(** * Camera: analytics tracker, heatmap, alerts and frame counters

    A shallow embedding of [software/analytics_module.py],
    [software/security_module.py], the detection filters and the motion
    detector of [software/detector.py], [software/config.py], the capture
    loop of [software/camera_handler.py] and the frame loop of
    [software/main.py], with the properties of the tracker, the heatmap, the
    statistics, the alert stage and the frame counters stated over it. *)

From stdpp Require Import base gmap sets list strings.
From Stdlib Require Import ZArith QArith Qround Lia Ascii.

Open Scope Z_scope.

(** ** Python values shared by the modules *)

Module Py.

(** Exceptions the modelled code can meet. *)
Inductive exn : Type :=
| KeyError
| NameError (name : string)
| ZeroDivisionError
| TypeError
| LibraryError.

(** A [try] body that mutates an object either runs to its end or raises;
    in both cases the mutations done so far stay. *)
Inductive outcome (S : Type) : Type :=
| Normal (s : S)
| Raised (e : exn) (s : S).
Arguments Normal {S} s.
Arguments Raised {S} e s.

Definition state_of {S : Type} (o : outcome S) : S :=
  match o with Normal s => s | Raised _ s => s end.

(** A [dict] keeps its keys in insertion order: assigning to a key that
    is present replaces the value in place, assigning to a new key appends,
    [del] removes the entry. *)
Section Dict.
Context {K : Type} `{EqDecision K} {V : Type}.

Fixpoint dict_get (k : K) (d : list (K * V)) : option V :=
  match d with
  | [] => None
  | (k', v) :: d' => if decide (k = k') then Some v else dict_get k d'
  end.

Fixpoint dict_set (k : K) (v : V) (d : list (K * V)) : list (K * V) :=
  match d with
  | [] => [(k, v)]
  | (k', v') :: d' =>
      if decide (k = k') then (k, v) :: d' else (k', v') :: dict_set k v d'
  end.

Fixpoint dict_del (k : K) (d : list (K * V)) : list (K * V) :=
  match d with
  | [] => []
  | (k', v') :: d' =>
      if decide (k = k') then d' else (k', v') :: dict_del k d'
  end.

Definition keys (d : list (K * V)) : list K := d.*1.
Definition values (d : list (K * V)) : list V := d.*2.
End Dict.

(** [time.time()]: the process reads a wall clock; the n-th reading is
    [clock n].  A computation that reads the clock threads the number of
    readings made so far. *)
Definition Clocked (A : Type) : Type := nat -> A * nat.

Definition cret {A : Type} (a : A) : Clocked A := fun n => (a, n).

Definition cbind {A B : Type} (m : Clocked A) (f : A -> Clocked B) : Clocked B :=
  fun n => let '(a, n') := m n in f a n'.

Definition time_time (clock : nat -> Q) : Clocked Q :=
  fun n => (clock n, S n).

(** [np.mean] of a non-empty list and [sum]; floats are read as the
    rationals they stand for. *)
Definition Qsum (l : list Q) : Q := foldr Qplus 0%Q l.

Definition np_mean (l : list Q) : Q :=
  (Qsum l / inject_Z (Z.of_nat (length l)))%Q.

Definition len {A : Type} (l : list A) : Z := Z.of_nat (length l).

Definition Qltb (a b : Q) : bool :=
  (Qnum a * Zpos (Qden b) <? Qnum b * Zpos (Qden a))%Z.

End Py.

Import Py.

#[global] Instance clocked_ret : MRet Clocked := @cret.
#[global] Instance clocked_bind : MBind Clocked :=
  fun A B f m => cbind m f.

(** ** detector.py *)

Module Detector.

(** A detection as [extract_detections] builds it: every coordinate went
    through [int(...)]. *)
Record Detection : Type := {
  class_id : Z;
  class_name : string;
  confidence : Q;
  x1 : Z; y1 : Z; x2 : Z; y2 : Z
}.

Definition get_people_detections (detections : list Detection)
  : list Detection :=
  filter (fun d => class_name d = "person"%string) detections.

(** Lines 111-114. *)
Definition vehicle_classes : list string :=
  ["car"; "truck"; "bus"; "motorcycle"; "bicycle"]%string.

Definition get_vehicle_detections (detections : list Detection)
  : list Detection :=
  filter (fun d => class_name d ∈ vehicle_classes) detections.

End Detector.

Import Detector.

(** ** detector.py, the motion detector *)

Module MotionDetector.

(** A grayscale image as [cv2.cvtColor] returns it: its shape (rows,
    columns) and its pixels, row after row. *)
Record Gray : Type := {
  g_shape : Z * Z;
  g_pixels : list Z
}.

(** A float that may be the [nan] of a division of zero by zero. *)
Inductive reading : Type :=
| Value (q : Q)
| NaN.

(** The attributes of a [MotionDetector] object. *)
Record Self : Type := {
  motion_threshold : Q;
  prev_frame : option Gray
}.

Definition __init__ (threshold : Q) : Self :=
  {| motion_threshold := threshold; prev_frame := None |}.

Definition with_prev (self : Self) (g : Gray) : Self :=
  {| motion_threshold := motion_threshold self; prev_frame := Some g |}.

(** [cv2.absdiff] on two arrays of one shape. *)
Definition absdiff (a b : list Z) : list Z :=
  zip_with (fun x y => Z.abs (x - y)) a b.

(** [cv2.threshold(diff, 30, 255, cv2.THRESH_BINARY)]. *)
Definition threshold_binary (diff : list Z) : list Z :=
  map (fun d => if 30 <? d then 255 else 0) diff.

Definition Zsum (l : list Z) : Z := foldr Z.add 0 l.

(** Line 144: [np.sum(thresh) / (255.0 * thresh.size) * 100]; an array
    without pixels gives 0.0 / 0.0. *)
Definition magnitude (thresh : list Z) : reading :=
  if decide (len thresh = 0) then NaN
  else Value (inject_Z (Zsum thresh) / (255 * inject_Z (len thresh)) * 100)%Q.

(** [x > threshold]; every comparison with [nan] is false. *)
Definition above (x : reading) (threshold : Q) : bool :=
  match x with
  | Value q => Qltb threshold q
  | NaN => false
  end.

(** Line 133: [cv2.cvtColor(frame, cv2.COLOR_BGR2GRAY)] on what the
    camera delivered, [None] when it raises; it raises on an image without
    pixels. *)
Definition cvtColor (gray : option Gray) : option Gray :=
  match gray with
  | Some g => if decide (g_pixels g = []) then None else Some g
  | None => None
  end.

(** Lines 127-153.  [cv2.absdiff] raises on arrays of different shapes.
    Whatever is raised comes out as (False, 0.0), with the stored frame as it
    was. *)
Definition detect_motion (self : Self) (gray : option Gray)
    : Self * (bool * reading) :=
  match cvtColor gray with
  | None => (self, (false, Value 0))
  | Some g =>
      match prev_frame self with
      | None => (with_prev self g, (false, Value 0))
      | Some prev =>
          if decide (g_shape g = g_shape prev) then
            let diff := absdiff (g_pixels g) (g_pixels prev) in
            let thresh := threshold_binary diff in
            let motion_magnitude := magnitude thresh in
            let motion_detected :=
              above motion_magnitude (motion_threshold self) in
            (with_prev self g, (motion_detected, motion_magnitude))
          else (self, (false, Value 0))
      end
  end.

(** The detector fed with the frames of a run, oldest first; the answers
    come in the same order. *)
Fixpoint detect_all (self : Self) (grays : list (option Gray))
    : Self * list (bool * reading) :=
  match grays with
  | [] => (self, [])
  | g :: rest =>
      let r := detect_motion self g in
      let rs := detect_all r.1 rest in
      (rs.1, r.2 :: rs.2)
  end.

End MotionDetector.

(** A frame is an opaque pixel buffer for the pipeline.  It is modelled by
    its [shape] (rows, columns) and by what the external capabilities answer
    on it in the cycle that processes it: its grayscale image ([gray],
    [None] when [cv2.cvtColor] rejects the frame), the object detector after
    [extract_detections], the [face_recognition] library on the reduced
    frame, and whether the drawing calls return or raise: [drawn] for the
    [cv2.rectangle] and [cv2.putText] calls of [draw_detections], [overlaid]
    for the [cv2.putText] of the info overlay. *)
Record Frame : Type := {
  shape : Z * Z;
  gray : option MotionDetector.Gray;
  detected : list Detection;
  face_locations : list (Z * Z * Z * Z);
  face_encodings : list (list Q);
  drawn : bool;
  overlaid : bool
}.

(** The configuration values the modelled classes read, after the defaults
    of [config.get] have been applied. *)
Record Config : Type := {
  analytics_enable_people_counting : bool;
  analytics_enable_heatmap : bool;
  analytics_heatmap_resolution : Z * Z;
  security_enable_face_recognition : bool;
  security_enable_alerts : bool;
  security_motion_threshold : Q
}.

(** ** analytics_module.py *)

Module AnalyticsModule.

(** The value stored under a track id in [person_tracks]. *)
Record Track : Type := {
  position : Z * Z;
  entry_time : Q;
  last_seen : Q
}.

(** The events of one call of [_update_tracks]: which centroid index was
    given to which track, which tracks were deleted, and which index
    opened which new track. *)
Record TrackTrace : Type := {
  assigned : list (Z * nat);
  evicted : list Z;
  created : list (nat * Z)
}.

(** The running values of the matching loop (lines 94-112). *)
Record MatchLoop : Type := {
  ml_tracks : list (Z * Track);
  ml_matched : gset nat;
  ml_assigned : list (Z * nat);
  ml_evicted : list Z
}.

(** The running values of the new-track loop (lines 115-122). *)
Record SpawnLoop : Type := {
  sl_tracks : list (Z * Track);
  sl_counter : Z;
  sl_created : list (nat * Z)
}.

Definition centroid (det : Detection) : Z * Z :=
  ((x1 det + x2 det) `div` 2, (y1 det + y2 det) `div` 2).

(** Lines 83-89: [current_centroids[len(current_centroids)] = (cx, cy)]. *)
Definition current_centroids (detections : list Detection)
  : list (nat * (Z * Z)) :=
  fold_left (fun cc det => cc ++ [(length cc, centroid det)]) detections [].

(** The argument of [np.sqrt] on line 101, a Python int.  Where the root
    exists the code compares [np.sqrt(d2)]; a candidate is only ever kept
    when its root is below 50, that is [d2 < 2500], and on these integers
    the rounded root is strictly increasing, so both comparisons of line 102
    are decided by the squares. *)
Definition dist_sq (pos old_pos : Z * Z) : Z :=
  (pos.1 - old_pos.1) ^ 2 + (pos.2 - old_pos.2) ^ 2.

(** [np.sqrt] on a Python int: an int below 2^64 is taken as a 64-bit
    number and rooted; a larger one becomes an object array, on which the
    ufunc raises [TypeError]. *)
Definition sqrt_limit : Z := 2 ^ 64.

Definition max_dist_sq : Z := 50 * 50.

(** [closest_dist] ([None] is [float('inf')]) and [closest_idx]
    ([None] is [-1], which is no key of [current_centroids]). *)
Record Closest : Type := {
  closest_dist : option Z;
  closest_idx : option nat
}.

Definition closest_init : Closest :=
  {| closest_dist := None; closest_idx := None |}.

Definition below_closest (dist : Z) (c : Closest) : bool :=
  match closest_dist c with
  | None => true
  | Some d => dist <? d
  end.

(** Lines 99-104; [None] when [np.sqrt] raises. *)
Fixpoint nearest (old_pos : Z * Z) (matched_tracks : gset nat)
    (items : list (nat * (Z * Z))) (c : Closest) : option Closest :=
  match items with
  | [] => Some c
  | (idx, pos) :: items' =>
      if decide (idx ∈ matched_tracks) then
        nearest old_pos matched_tracks items' c
      else
        let dist := dist_sq pos old_pos in
        if decide (sqrt_limit <= dist) then None
        else
          nearest old_pos matched_tracks items'
            (if below_closest dist c && (dist <? max_dist_sq)
             then {| closest_dist := Some dist; closest_idx := Some idx |}
             else c)
  end.

(** The attributes of an [AnalyticsModule] object.  [heatmap] is the
    float32 array of shape [heatmap_resolution], read at (row, column);
    outside the shape it has no cell and the function is never written. *)
Record Self : Type := {
  enable_counting : bool;
  enable_heatmap : bool;
  heatmap_resolution : Z * Z;
  heatmap : Z -> Z -> Q;
  person_tracks : list (Z * Track);
  track_counter : Z;
  frame_count : Z;
  people_count_history : gmap Z Z
}.

(** The dict returned by [update]. *)
Record UpdateResult : Type := {
  people_count : Z;
  active_tracks : Z;
  average_dwell_time : Q
}.

(** The dict returned by [get_statistics]. *)
Record Statistics : Type := {
  total_frames : Z;
  average_people_count : Q;
  peak_people_count : Z;
  current_tracks : Z;
  avg_dwell_time : Q;
  total_people_passed : Z
}.

Definition zeros : Z -> Z -> Q := fun _ _ => 0%Q.

Definition __init__ (config : Config) : Self :=
  {| enable_counting := analytics_enable_people_counting config;
     enable_heatmap := analytics_enable_heatmap config;
     heatmap_resolution := analytics_heatmap_resolution config;
     heatmap := zeros;
     person_tracks := [];
     track_counter := 0;
     frame_count := 0;
     people_count_history := ∅ |}.

Definition with_heatmap (self : Self) (hm : Z -> Z -> Q) : Self :=
  {| enable_counting := enable_counting self;
     enable_heatmap := enable_heatmap self;
     heatmap_resolution := heatmap_resolution self;
     heatmap := hm;
     person_tracks := person_tracks self;
     track_counter := track_counter self;
     frame_count := frame_count self;
     people_count_history := people_count_history self |}.

Definition with_tracks (self : Self) (tracks : list (Z * Track))
    (counter : Z) : Self :=
  {| enable_counting := enable_counting self;
     enable_heatmap := enable_heatmap self;
     heatmap_resolution := heatmap_resolution self;
     heatmap := heatmap self;
     person_tracks := tracks;
     track_counter := counter;
     frame_count := frame_count self;
     people_count_history := people_count_history self |}.

Definition with_counts (self : Self) (frames : Z) (history : gmap Z Z)
    : Self :=
  {| enable_counting := enable_counting self;
     enable_heatmap := enable_heatmap self;
     heatmap_resolution := heatmap_resolution self;
     heatmap := heatmap self;
     person_tracks := person_tracks self;
     track_counter := track_counter self;
     frame_count := frames;
     people_count_history := history |}.

Definition in_shape (rows cols r c : Z) : bool :=
  (0 <=? r) && (r <? rows) && (0 <=? c) && (c <? cols).

Definition Zmax_list (l : list Z) : Z :=
  match l with
  | [] => 0
  | x :: l' => foldr Z.max x l'
  end.

(** [people_count_history.values()]; only their sum, their number and
    their maximum are used, so their order does not matter. *)
Definition history_values (h : gmap Z Z) : list Z := (map_to_list h).*2.

Section WithEnvironment.
Variable clock : nat -> Q.

(** [float_scale c dim map_dim] is [int((c / dim) * map_dim)] in binary64
    arithmetic for [dim <> 0]; the rounding of the two float operations is
    the interpreter's, not this file's. *)
Variable float_scale : Z -> Z -> Z -> Z.

(** [circle_pixels (x, y) radius] is the set of pixels (column, row) that
    OpenCV's filled [cv2.circle] covers, or [None] when OpenCV rejects the
    arguments and raises. *)
Variable circle_pixels : Z * Z -> Z -> option (Z -> Z -> bool).

(** Lines 95-112, the body of the loop for one [track_id]. *)
Definition match_track (cc : list (nat * (Z * Z))) (st : MatchLoop)
    (track_id : Z) : Clocked (outcome MatchLoop) :=
  match dict_get track_id (ml_tracks st) with
  | None => cret (Raised KeyError st)
  | Some tr =>
      match nearest (position tr) (ml_matched st) cc closest_init with
      | None => cret (Raised TypeError st)
      | Some c =>
          match closest_idx c with
          | Some idx =>
              match dict_get idx cc with
              | None => cret (Raised KeyError st)
              | Some pos =>
                  now ← time_time clock;
                  cret (Normal
                    {| ml_tracks :=
                         dict_set track_id
                           {| position := pos;
                              entry_time := entry_time tr;
                              last_seen := now |} (ml_tracks st);
                       ml_matched := {[idx]} ∪ ml_matched st;
                       ml_assigned := ml_assigned st ++ [(track_id, idx)];
                       ml_evicted := ml_evicted st |})
              end
          | None =>
              cret (Normal
                {| ml_tracks := dict_del track_id (ml_tracks st);
                   ml_matched := ml_matched st;
                   ml_assigned := ml_assigned st;
                   ml_evicted := ml_evicted st ++ [track_id] |})
          end
      end
  end.

(** Line 94: the loop over the snapshot [list(self.person_tracks.keys())]. *)
Fixpoint match_loop (cc : list (nat * (Z * Z))) (track_ids : list Z)
    (st : MatchLoop) : Clocked (outcome MatchLoop) :=
  match track_ids with
  | [] => cret (Normal st)
  | track_id :: rest =>
      r ← match_track cc st track_id;
      match r with
      | Normal st' => match_loop cc rest st'
      | Raised e st' => cret (Raised e st')
      end
  end.

(** Lines 115-122. *)
Fixpoint spawn_loop (matched_tracks : gset nat)
    (items : list (nat * (Z * Z))) (st : SpawnLoop) : Clocked SpawnLoop :=
  match items with
  | [] => cret st
  | (idx, pos) :: items' =>
      if decide (idx ∈ matched_tracks) then
        spawn_loop matched_tracks items' st
      else
        let track_counter := sl_counter st + 1 in
        t_entry ← time_time clock;
        t_seen ← time_time clock;
        spawn_loop matched_tracks items'
          {| sl_tracks :=
               dict_set track_counter
                 {| position := pos;
                    entry_time := t_entry;
                    last_seen := t_seen |} (sl_tracks st);
             sl_counter := track_counter;
             sl_created := sl_created st ++ [(idx, track_counter)] |}
  end.

(** [cv2.circle(img, center, radius, color, -1)] on a one-channel float
    array of shape (rows, cols): every covered cell of the array is set to
    [color]. *)
Definition cv2_circle (rows cols : Z) (img : Z -> Z -> Q) (center : Z * Z)
    (radius : Z) (color : Q) : option (Z -> Z -> Q) :=
  match circle_pixels center radius with
  | None => None
  | Some covers =>
      Some (fun r c =>
              if in_shape rows cols r c && covers c r then color else img r c)
  end.

(** Lines 63-74, the loop of [_update_heatmap]. *)
Fixpoint heatmap_loop (frame_h frame_w map_h map_w : Z)
    (detections : list Detection) (hm : Z -> Z -> Q)
    : outcome (Z -> Z -> Q) :=
  match detections with
  | [] => Normal hm
  | det :: rest =>
      let center_x := (x1 det + x2 det) `quot` 2 in
      let center_y := (y1 det + y2 det) `quot` 2 in
      if decide (frame_w = 0) then Raised ZeroDivisionError hm
      else
        let hm_x := float_scale center_x frame_w map_w in
        if decide (frame_h = 0) then Raised ZeroDivisionError hm
        else
          let hm_y := float_scale center_y frame_h map_h in
          match cv2_circle map_h map_w hm (hm_x, hm_y) 10 1%Q with
          | None => Raised LibraryError hm
          | Some hm' => heatmap_loop frame_h frame_w map_h map_w rest hm'
          end
  end.

(** Lines 57-77: whatever the [try] body raises is logged and dropped. *)
Definition _update_heatmap (self : Self) (detections : list Detection)
    (frame : Frame) : Self :=
  let '(frame_h, frame_w) := shape frame in
  let '(map_h, map_w) := heatmap_resolution self in
  with_heatmap self
    (state_of (heatmap_loop frame_h frame_w map_h map_w detections
                 (heatmap self))).

(** Lines 79-125. *)
Definition _update_tracks (self : Self) (detections : list Detection)
    : Clocked (Self * TrackTrace) :=
  let cc := current_centroids detections in
  r ← match_loop cc (keys (person_tracks self))
         {| ml_tracks := person_tracks self;
            ml_matched := ∅;
            ml_assigned := [];
            ml_evicted := [] |};
  match r with
  | Raised _ st =>
      cret (with_tracks self (ml_tracks st) (track_counter self),
            {| assigned := ml_assigned st;
               evicted := ml_evicted st;
               created := [] |})
  | Normal st =>
      sp ← spawn_loop (ml_matched st) cc
              {| sl_tracks := ml_tracks st;
                 sl_counter := track_counter self;
                 sl_created := [] |};
      cret (with_tracks self (sl_tracks sp) (sl_counter sp),
            {| assigned := ml_assigned st;
               evicted := ml_evicted st;
               created := sl_created sp |})
  end.

(** Lines 127-144. *)
Definition _calculate_avg_dwell_time (self : Self) : Clocked Q :=
  match person_tracks self with
  | [] => cret 0%Q
  | _ =>
      current_time ← time_time clock;
      let dwell_times :=
        map (fun track => (current_time - entry_time track)%Q)
            (values (person_tracks self)) in
      cret (match dwell_times with
            | [] => 0%Q
            | _ => np_mean dwell_times
            end)
  end.

(** Lines 35-55. *)
Definition update (self : Self) (person_detections : list Detection)
    (frame : Frame) : Clocked (Self * UpdateResult) :=
  let frame_count' := frame_count self + 1 in
  let current_count := len person_detections in
  let self1 :=
    with_counts self frame_count'
      (<[frame_count' `div` 30 := current_count]>
         (people_count_history self)) in
  let self2 :=
    if enable_heatmap self1
    then _update_heatmap self1 person_detections frame
    else self1 in
  st ← (if enable_counting self2
         then _update_tracks self2 person_detections
         else cret (self2,
                    {| assigned := []; evicted := []; created := [] |}));
  avg ← _calculate_avg_dwell_time st.1;
  cret (st.1,
        {| people_count := current_count;
           active_tracks := len (person_tracks st.1);
           average_dwell_time := avg |}).

(** Lines 162-180. *)
Definition get_statistics (self : Self) : Clocked Statistics :=
  let counts := history_values (people_count_history self) in
  let avg_people :=
    match counts with
    | [] => 0%Q
    | _ => np_mean (map inject_Z counts)
    end in
  let peak_people := Zmax_list counts in
  dwell ← _calculate_avg_dwell_time self;
  cret {| total_frames := frame_count self;
          average_people_count := avg_people;
          peak_people_count := peak_people;
          current_tracks := len (person_tracks self);
          avg_dwell_time := dwell;
          total_people_passed := track_counter self |}.

(** Lines 182-185. *)
Definition reset_heatmap (self : Self) : Self :=
  with_heatmap self zeros.

(** Lines 187-193. *)
Definition reset_statistics (self : Self) : Self :=
  {| enable_counting := enable_counting self;
     enable_heatmap := enable_heatmap self;
     heatmap_resolution := heatmap_resolution self;
     heatmap := heatmap self;
     person_tracks := [];
     track_counter := 0;
     frame_count := 0;
     people_count_history := ∅ |}.

End WithEnvironment.

(** [update], together with the events of its [_update_tracks] call. *)
Definition update_traced (clock : nat -> Q) (float_scale : Z -> Z -> Z -> Z)
    (circle_pixels : Z * Z -> Z -> option (Z -> Z -> bool)) (self : Self)
    (person_detections : list Detection) (frame : Frame)
    : Clocked (Self * UpdateResult * TrackTrace) :=
  let frame_count' := frame_count self + 1 in
  let current_count := len person_detections in
  let self1 :=
    with_counts self frame_count'
      (<[frame_count' `div` 30 := current_count]>
         (people_count_history self)) in
  let self2 :=
    if enable_heatmap self1
    then _update_heatmap float_scale circle_pixels self1 person_detections
           frame
    else self1 in
  st ← (if enable_counting self2
         then _update_tracks clock self2 person_detections
         else cret (self2,
                    {| assigned := []; evicted := []; created := [] |}));
  avg ← _calculate_avg_dwell_time clock st.1;
  cret (st.1,
        {| people_count := current_count;
           active_tracks := len (person_tracks st.1);
           average_dwell_time := avg |},
        st.2).

(** The calls a client makes on an [AnalyticsModule] object. *)
Inductive Op : Type :=
| OpUpdate (person_detections : list Detection) (frame : Frame)
| OpGetStatistics
| OpResetHeatmap
| OpResetStatistics.

(** An object together with the track ids it has handed out: [issued] is
    every id since construction, [issued_epoch] those since the last
    [reset_statistics]; both oldest first. *)
Record Session : Type := {
  obj : Self;
  issued : list Z;
  issued_epoch : list Z
}.

Definition step (clock : nat -> Q) (float_scale : Z -> Z -> Z -> Z)
    (circle_pixels : Z * Z -> Z -> option (Z -> Z -> bool)) (s : Session)
    (op : Op) : Clocked Session :=
  match op with
  | OpUpdate person_detections frame =>
      r ← update_traced clock float_scale circle_pixels (obj s)
             person_detections frame;
      let ids := (created r.2).*2 in
      cret {| obj := r.1.1;
              issued := issued s ++ ids;
              issued_epoch := issued_epoch s ++ ids |}
  | OpGetStatistics =>
      _ ← get_statistics clock (obj s);
      cret s
  | OpResetHeatmap =>
      cret {| obj := reset_heatmap (obj s);
              issued := issued s;
              issued_epoch := issued_epoch s |}
  | OpResetStatistics =>
      cret {| obj := reset_statistics (obj s);
              issued := issued s;
              issued_epoch := [] |}
  end.

Fixpoint run (clock : nat -> Q) (float_scale : Z -> Z -> Z -> Z)
    (circle_pixels : Z * Z -> Z -> option (Z -> Z -> bool)) (ops : list Op)
    (s : Session) : Clocked Session :=
  match ops with
  | [] => cret s
  | op :: ops' =>
      s' ← step clock float_scale circle_pixels s op;
      run clock float_scale circle_pixels ops' s'
  end.

Definition fresh (config : Config) : Session :=
  {| obj := __init__ config; issued := []; issued_epoch := [] |}.

End AnalyticsModule.

(** ** security_module.py *)

Module SecurityModule.

(** The names bound at the top level of [security_module.py]: its imports,
    its logger and its class.  [np] is not among them. *)
Definition module_globals : list string :=
  ["logging"; "smtplib"; "json"; "sqlite3"; "datetime"; "MIMEText";
   "MIMEMultipart"; "requests"; "cv2"; "os"; "logger";
   "SecurityModule"]%string.

Definition global_name (name : string) : outcome unit :=
  if decide (name ∈ module_globals) then Normal ()
  else Raised (NameError name) ().

(** The attributes of a [SecurityModule] object.  [face_recognition] is
    the truth value of the attribute of that name: the imported library, or
    [None] when the import failed. *)
Record Self : Type := {
  enable_face_recognition : bool;
  enable_alerts : bool;
  face_recognition : bool;
  known_faces : list (string * list Q)
}.

(** An entry of the list [detect_faces] returns. *)
Record Face : Type := {
  location : Z * Z * Z * Z;
  encoding : list Q;
  name : string;
  is_known : bool
}.

(** The [data] dict of an alert: the two shapes [process_frame] builds. *)
Inductive AlertData : Type :=
| MotionData (severity : string) (motion_magnitude : Q) (person_count : Z)
| FaceData (severity : string) (face_name : string)
    (face_location : Z * Z * Z * Z).

(** An alert that went past the [enable_alerts] test of [generate_alert],
    to the event store, the configured notifiers and the warning log. *)
Record Alert : Type := {
  alert_type : string;
  data : AlertData
}.

(** Lines 43-53: one [known_faces[name] = encoding] per stored face. *)
Definition _load_known_faces (stored : list (string * list Q))
    : list (string * list Q) :=
  fold_left (fun kf face => dict_set face.1 face.2 kf) stored [].

(** Lines 22-41.  [imported] tells whether [import face_recognition]
    succeeded; [stored] is what the database holds. *)
Definition __init__ (config : Config) (imported : bool)
    (stored : list (string * list Q)) : Self :=
  {| enable_face_recognition := security_enable_face_recognition config;
     enable_alerts := security_enable_alerts config;
     face_recognition := imported;
     known_faces := if imported then _load_known_faces stored else [] |}.

Fixpoint argmin_from (best : nat) (best_val : Q) (i : nat) (l : list Q)
    : nat :=
  match l with
  | [] => best
  | x :: l' =>
      if Qltb x best_val then argmin_from i x (S i) l'
      else argmin_from best best_val (S i) l'
  end.

Definition argmin (l : list Q) : nat :=
  match l with
  | [] => 0%nat
  | x :: l' => argmin_from 0%nat x 1%nat l'
  end.

Section WithLibrary.
(** [face_recognition.face_distance]; [None] when the library raises. *)
Variable face_distance : list (list Q) -> list Q -> option (list Q).

(** Lines 98-106, the [try] body of [_recognize_face]. *)
Definition recognize_body (self : Self) (encoding : list Q)
    : outcome string :=
  let known_encodings := values (known_faces self) in
  match face_distance known_encodings encoding with
  | None => Raised LibraryError "Unknown"%string
  | Some distances =>
      match global_name "np" with
      | Raised e _ => Raised e "Unknown"%string
      | Normal _ =>
          let best_match_idx := argmin distances in
          match distances !! best_match_idx with
          | None => Raised KeyError "Unknown"%string
          | Some d =>
              if Qltb d (6 # 10) then
                match keys (known_faces self) !! best_match_idx with
                | Some n => Normal n
                | None => Raised KeyError "Unknown"%string
                end
              else Normal "Unknown"%string
          end
      end
  end.

(** Lines 93-110: whatever the body raises, the answer is "Unknown". *)
Definition _recognize_face (self : Self) (encoding : list Q) : string :=
  match known_faces self with
  | [] => "Unknown"%string
  | _ =>
      match recognize_body self encoding with
      | Normal n => n
      | Raised _ _ => "Unknown"%string
      end
  end.

(** Lines 55-91. *)
Definition detect_faces (self : Self) (frame : Frame) : list Face :=
  if face_recognition self then
    map (fun le : (Z * Z * Z * Z) * list Q =>
           let '(top_, right_, bottom_, left_) := le.1 in
           let name := _recognize_face self le.2 in
           {| location := (top_ * 4, right_ * 4, bottom_ * 4, left_ * 4);
              encoding := le.2;
              name := name;
              is_known := bool_decide (name <> "Unknown"%string) |})
        (zip (face_locations frame) (face_encodings frame))
  else [].

End WithLibrary.

(** Lines 112-143: nothing happens when alerts are disabled; otherwise the
    alert is stored, notified and logged. *)
Definition generate_alert (self : Self) (alert_type : string)
    (data : AlertData) : list Alert :=
  if enable_alerts self
  then [ {| alert_type := alert_type; data := data |} ]
  else [].

End SecurityModule.

(** ** main.py *)

Module CameraApp.

Import SecurityModule.

(** The attributes of a [CameraApp] object that the frame loop and the
    status route read or write. *)
Record Self : Type := {
  running : bool;
  current_frame : option Frame;
  fps_counter : Z;
  last_fps_time : Q;
  motion_detector : MotionDetector.Self;
  security : SecurityModule.Self;
  analytics : AnalyticsModule.Self
}.

(** The fields of the JSON answer of [/api/status] that come from the
    object. *)
Record Status : Type := {
  status_text : string;
  frames_processed : Z;
  fps : Q
}.

Definition with_fps (self : Self) (counter : Z) (since : Q) : Self :=
  {| running := running self;
     current_frame := current_frame self;
     fps_counter := counter;
     last_fps_time := since;
     motion_detector := motion_detector self;
     security := security self;
     analytics := analytics self |}.

Definition with_analytics (self : Self) (a : AnalyticsModule.Self) : Self :=
  {| running := running self;
     current_frame := current_frame self;
     fps_counter := fps_counter self;
     last_fps_time := last_fps_time self;
     motion_detector := motion_detector self;
     security := security self;
     analytics := a |}.

Definition with_motion (self : Self) (m : MotionDetector.Self) : Self :=
  {| running := running self;
     current_frame := current_frame self;
     fps_counter := fps_counter self;
     last_fps_time := last_fps_time self;
     motion_detector := m;
     security := security self;
     analytics := analytics self |}.

Definition with_running (self : Self) (r : bool) : Self :=
  {| running := r;
     current_frame := current_frame self;
     fps_counter := fps_counter self;
     last_fps_time := last_fps_time self;
     motion_detector := motion_detector self;
     security := security self;
     analytics := analytics self |}.

Definition with_frame (self : Self) (f : option Frame) : Self :=
  {| running := running self;
     current_frame := f;
     fps_counter := fps_counter self;
     last_fps_time := last_fps_time self;
     motion_detector := motion_detector self;
     security := security self;
     analytics := analytics self |}.

Section WithEnvironment.
Variable clock : nat -> Q.
Variable float_scale : Z -> Z -> Z -> Z.
Variable circle_pixels : Z * Z -> Z -> option (Z -> Z -> bool).
Variable face_distance : list (list Q) -> list Q -> option (list Q).

(** Lines 47-70. *)
Definition __init__ (config : Config) (imported : bool)
    (stored : list (string * list Q)) : Clocked Self :=
  t0 ← time_time clock;
  cret {| running := false;
          current_frame := None;
          fps_counter := 0;
          last_fps_time := t0;
          motion_detector :=
            MotionDetector.__init__ (security_motion_threshold config);
          security := SecurityModule.__init__ config imported stored;
          analytics := AnalyticsModule.__init__ config |}.

(** Lines 121-129. *)
Definition get_fps (self : Self) : Clocked (Self * Q) :=
  t ← time_time clock;
  let elapsed := (t - last_fps_time self)%Q in
  if Qltb 1 elapsed then
    let fps := (inject_Z (fps_counter self) / elapsed)%Q in
    t' ← time_time clock;
    cret (with_fps self 0 t', fps)
  else cret (self, 0%Q).

(** Lines 75-84, the [/api/status] route: [frames_processed] is read
    before [get_fps] runs. *)
Definition status (self : Self) : Clocked (Self * Status) :=
  let frames := fps_counter self in
  r ← get_fps self;
  cret (r.1,
        {| status_text :=
             if running self then "running"%string else "stopped"%string;
           frames_processed := frames;
           fps := r.2 |}).

(** Lines 171-183. *)
Definition unknown_face_alerts (self : Self) (frame : Frame)
    (person_detections : list Detection) : list Alert :=
  if face_recognition (security self) && (0 <? len person_detections) then
    let faces := detect_faces face_distance (security self) frame in
    flat_map
      (fun face =>
         if is_known face then []
         else generate_alert (security self) "unknown_face"
                (FaceData "critical" (name face) (location face)))
      faces
  else [].

(** Lines 160-169, on the answer of the motion detector; a comparison
    with [nan] is false. *)
Definition motion_alerts (self : Self)
    (report : bool * MotionDetector.reading)
    (person_detections : list Detection) : list Alert :=
  match report.2 with
  | MotionDetector.Value motion_mag =>
      if report.1 && Qltb 10 motion_mag then
        generate_alert (security self) "motion_detected"
          (MotionData "medium" motion_mag (len person_detections))
      else []
  | MotionDetector.NaN => []
  end.

(** Lines 87-105 of detector.py: whether [draw_detections] returns.  The
    drawing calls are in the loop over the detections. *)
Definition draw_detections (frame : Frame) (detections : list Detection)
    : bool :=
  match detections with
  | [] => true
  | _ => drawn frame
  end.

(** Lines 149-201; the result is the object after the call and the alerts
    of the cycle, oldest first.  The calls up to [analytics.update] catch
    what they raise themselves; when [draw_detections] (line 189) or the
    [cv2.putText] of line 193 raises, the handler of lines 199-201 returns
    with the counter as it is.  [get_fps] runs on line 192, between the
    two. *)
Definition process_frame (self : Self) (frame : Frame)
    : Clocked (Self * list Alert) :=
  let m := MotionDetector.detect_motion (motion_detector self) (gray frame) in
  let self0 := with_motion self m.1 in
  let detections := detected frame in
  let person_detections := get_people_detections detections in
  let alerts :=
    motion_alerts self0 m.2 person_detections
    ++ unknown_face_alerts self0 frame person_detections in
  a ← AnalyticsModule.update clock float_scale circle_pixels
         (analytics self0) person_detections frame;
  let self1 := with_analytics self0 a.1 in
  if draw_detections frame detections then
    r ← get_fps self1;
    let self2 := r.1 in
    if overlaid frame then
      cret (with_fps self2 (fps_counter self2 + 1) (last_fps_time self2),
            alerts)
    else cret (self2, alerts)
  else cret (self1, alerts).

(** Lines 242-251, one turn of the loop [while self.running]. *)
Definition loop_turn (self : Self) (frame : option Frame)
    : Clocked (Self * list Alert) :=
  if running self then
    match frame with
    | None => cret (self, [])
    | Some f =>
        r ← process_frame self f;
        cret (with_frame r.1 (Some f), r.2)
    end
  else cret (self, []).

(** Line 212 of [run], after a successful [initialize]. *)
Definition start (self : Self) : Self := with_running self true.

(** Lines 265-276. *)
Definition stop (self : Self) : Clocked Self :=
  let self1 := with_running self false in
  _ ← AnalyticsModule.get_statistics clock (analytics self1);
  cret self1.

(** What happens to a started application: the loop takes a turn on a
    frame, a client reads the status, or the application is stopped. *)
Inductive Event : Type :=
| EvFrame (frame : Frame)
| EvStatus
| EvStop.

Definition react (self : Self) (ev : Event) : Clocked Self :=
  match ev with
  | EvFrame f => r ← loop_turn self (Some f); cret r.1
  | EvStatus => r ← status self; cret r.1
  | EvStop => stop self
  end.

Fixpoint react_all (evs : list Event) (self : Self) : Clocked Self :=
  match evs with
  | [] => cret self
  | ev :: evs' => self' ← react self ev; react_all evs' self'
  end.

End WithEnvironment.

End CameraApp.

(** ** config.py *)

Module ConfigTree.

(** The values [json.load] builds. *)
#[local] Unset Elimination Schemes.
Inductive value : Type :=
| VNone
| VBool (b : bool)
| VInt (z : Z)
| VFloat (q : Q)
| VStr (s : string)
| VList (l : list value)
| VDict (d : list (string * value)).
#[local] Set Elimination Schemes.

(** [key.split('.')]. *)
Fixpoint split_dot (s : string) : list string :=
  match s with
  | EmptyString => [EmptyString]
  | String c s' =>
      if decide (c = "."%char) then EmptyString :: split_dot s'
      else
        match split_dot s' with
        | [] => [String c EmptyString]
        | w :: ws => String c w :: ws
        end
  end.

(** Lines 91-96, the loop of [get] and its last line. *)
Fixpoint get_path (keys : list string) (v : value) (default : value)
    : value :=
  match keys with
  | [] => match v with VNone => default | _ => v end
  | k :: ks =>
      match v with
      | VDict d =>
          get_path ks
            (match dict_get k d with Some x => x | None => VNone end)
            default
      | _ => default
      end
  end.

(** Lines 87-96. *)
Definition get (config : list (string * value)) (key : string)
    (default : value) : value :=
  get_path (split_dot key) (VDict config) default.

(** Lines 101-106 on the dict [cfg]; [None] stands for the [TypeError]
    (or, on no key at all, the [IndexError]) the statements raise when the
    path runs into a value that is no dict.  Nothing has been written by
    then. *)
Fixpoint set_path (keys : list string) (v : value)
    (cfg : list (string * value)) : option (list (string * value)) :=
  match keys with
  | [] => None
  | [k] => Some (dict_set k v cfg)
  | k :: ks =>
      match dict_get k cfg with
      | None =>
          match set_path ks v [] with
          | Some sub => Some (dict_set k (VDict sub) cfg)
          | None => None
          end
      | Some (VDict d) =>
          match set_path ks v d with
          | Some sub => Some (dict_set k (VDict sub) cfg)
          | None => None
          end
      | Some _ => None
      end
  end.

(** Lines 98-106. *)
Definition set (config : list (string * value)) (key : string) (v : value)
    : option (list (string * value)) :=
  set_path (split_dot key) v config.

(** How a merge ends: at its end, or on the [TypeError] of a statement
    applied to a value that is no dict; the value is [base] as the merge left
    it. *)
Inductive merged : Type :=
| Merged (base : value)
| TypeError (base : value).

Definition merged_value (m : merged) : value :=
  match m with Merged v => v | TypeError v => v end.

(** Lines 79-85: [_merge_config(base, update)].  A [base] that is no dict
    makes the first entry of [update] raise, an [update] that is no dict has
    no [items]. *)
Fixpoint _merge_config (base : value) (update : value) {struct update}
    : merged :=
  match update with
  | VDict items =>
      (fix merge_items (items : list (string * value)) (base : value)
         : merged :=
         match items with
         | [] => Merged base
         | (key, v) :: rest =>
             match base with
             | VDict b =>
                 match v, dict_get key b with
                 | VDict _, Some sub =>
                     match _merge_config sub v with
                     | Merged sub' =>
                         merge_items rest (VDict (dict_set key sub' b))
                     | TypeError sub' =>
                         TypeError (VDict (dict_set key sub' b))
                     end
                 | _, _ => merge_items rest (VDict (dict_set key v b))
                 end
             | _ => TypeError base
             end
         end) items base
  | _ => TypeError base
  end.

(** Lines 69-77: [load_from_file] keeps what the merge did, raised or
    not. *)
Definition load_from_file (config : list (string * value))
    (user_config : value) : value :=
  merged_value (_merge_config (VDict config) user_config).

End ConfigTree.

(** ** camera_handler.py *)

Module CameraCapture.

(** The attributes of a [CameraCapture] object the capture loop uses; the
    four first are what it reads from the configuration. *)
Record Self : Type := {
  flip : bool;
  rotation : Z;
  fps : Z;
  frame_buffer_size : Z;
  frame_buffer : list Frame;
  current_frame : option Frame;
  is_running : bool;
  frame_count : Z;
  fps_clock : Q
}.

(** [deque(maxlen=n).append(x)]: a full deque drops its oldest element,
    a deque of length 0 keeps nothing. *)
Definition deque_append (maxlen : Z) (x : Frame) (buf : list Frame)
    : list Frame :=
  if decide (maxlen = 0) then buf
  else if decide (maxlen <= len buf) then drop 1 buf ++ [x]
  else buf ++ [x].

Definition with_capture (self : Self) (buf : list Frame)
    (cur : option Frame) (count : Z) : Self :=
  {| flip := flip self;
     rotation := rotation self;
     fps := fps self;
     frame_buffer_size := frame_buffer_size self;
     frame_buffer := buf;
     current_frame := cur;
     is_running := is_running self;
     frame_count := count;
     fps_clock := fps_clock self |}.

Definition with_running (self : Self) (r : bool) : Self :=
  {| flip := flip self;
     rotation := rotation self;
     fps := fps self;
     frame_buffer_size := frame_buffer_size self;
     frame_buffer := frame_buffer self;
     current_frame := current_frame self;
     is_running := r;
     frame_count := frame_count self;
     fps_clock := fps_clock self |}.

Definition with_fps_clock (self : Self) (t : Q) : Self :=
  {| flip := flip self;
     rotation := rotation self;
     fps := fps self;
     frame_buffer_size := frame_buffer_size self;
     frame_buffer := frame_buffer self;
     current_frame := current_frame self;
     is_running := is_running self;
     frame_count := frame_count self;
     fps_clock := t |}.

(** The three rotations of [cv2.rotate]. *)
Inductive rotate_code : Type :=
| ROTATE_90_CLOCKWISE
| ROTATE_180
| ROTATE_90_COUNTERCLOCKWISE.

Section WithCamera.
Variable clock : nat -> Q.
(** [cv2.flip(frame, 1)] and [cv2.rotate(frame, code)]. *)
Variable cv2_flip : Frame -> Frame.
Variable cv2_rotate : rotate_code -> Frame -> Frame.

(** Lines 26-39; a negative [maxlen] makes [deque] raise. *)
Definition __init__ (flip_ : bool) (rotation_ fps_ size_ : Z)
    : Clocked (option Self) :=
  if decide (size_ < 0) then cret None
  else
    t ← time_time clock;
    cret (Some {| flip := flip_;
                  rotation := rotation_;
                  fps := fps_;
                  frame_buffer_size := size_;
                  frame_buffer := [];
                  current_frame := None;
                  is_running := false;
                  frame_count := 0;
                  fps_clock := t |}).

(** Lines 72-87. *)
Definition _apply_transforms (self : Self) (frame : Frame) : Frame :=
  let frame1 := if flip self then cv2_flip frame else frame in
  if decide (rotation self = 90) then cv2_rotate ROTATE_90_CLOCKWISE frame1
  else if decide (rotation self = 180) then cv2_rotate ROTATE_180 frame1
  else if decide (rotation self = 270)
       then cv2_rotate ROTATE_90_COUNTERCLOCKWISE frame1
  else frame1.

(** Lines 41-70; [opened] and [first] are the answers of the device. *)
Definition initialize (self : Self) (opened : bool) (first : option Frame)
    : Self * bool :=
  if opened then
    match first with
    | Some frame =>
        let frame' := _apply_transforms self frame in
        (with_capture self
           (deque_append (frame_buffer_size self) frame' (frame_buffer self))
           (Some frame') (frame_count self),
         true)
    | None => (self, false)
    end
  else (self, false).

(** Lines 89-98, without the thread. *)
Definition start_capture (self : Self) : Self :=
  if is_running self then self else with_running self true.

(** Lines 103-127, one turn of the loop on the answer [read] of the
    device.  The division of line 118 raises on an elapsed time of zero, the
    one of line 123 on [fps = 0], and [time.sleep] on a negative length; the
    handler then clears [is_running]. *)
Definition capture_turn (self : Self) (read : option Frame) : Clocked Self :=
  if is_running self then
    match read with
    | None => cret self
    | Some frame =>
        let frame' := _apply_transforms self frame in
        let self1 :=
          with_capture self
            (deque_append (frame_buffer_size self) frame' (frame_buffer self))
            (Some frame') (frame_count self + 1) in
        r ← (if decide (frame_count self1 `mod` 30 = 0) then
               t ← time_time clock;
               let elapsed := (t - fps_clock self1)%Q in
               if Qeq_bool elapsed 0 then cret (Raised ZeroDivisionError self1)
               else
                 t' ← time_time clock;
                 cret (Normal (with_fps_clock self1 t'))
             else cret (Normal self1));
        match r with
        | Raised _ self2 => cret (with_running self2 false)
        | Normal self2 =>
            if decide (fps self2 = 0) then cret (with_running self2 false)
            else if decide (fps self2 < 0) then cret (with_running self2 false)
            else cret self2
        end
    end
  else cret self.

Fixpoint capture_all (self : Self) (reads : list (option Frame))
    : Clocked Self :=
  match reads with
  | [] => cret self
  | read :: rest => self' ← capture_turn self read; capture_all self' rest
  end.

(** Lines 133-137. *)
Definition get_frame_copy (self : Self) : option Frame := current_frame self.

(** Lines 139-141. *)
Definition get_buffer (self : Self) : list Frame := frame_buffer self.

End WithCamera.

End CameraCapture.

(** ** Predicates used in the statements *)

Import AnalyticsModule.

(** What a Python dict guarantees for [person_tracks] (no key twice) and
    what the numbering guarantees (every id in use was handed out by the
    counter). *)
Definition tracks_ok (self : AnalyticsModule.Self) : Prop :=
  NoDup (keys (person_tracks self))
  /\ Forall (fun k => k <= track_counter self) (keys (person_tracks self)).

(** Every root line 101 can ask for in a call exists: each track position
    and each centroid of the call are less than 2^32 apart.  Pixel
    coordinates are far below that. *)
Definition roots_defined (self : AnalyticsModule.Self)
    (detections : list Detection) : Prop :=
  Forall (fun tr =>
            Forall (fun det =>
                      dist_sq (centroid det) (position tr) < sqrt_limit)
              detections)
    (values (person_tracks self)).

(** The first state of the matching loop of [_update_tracks]. *)
Definition match_start (self : AnalyticsModule.Self) : MatchLoop :=
  {| ml_tracks := person_tracks self;
     ml_matched := ∅;
     ml_assigned := [];
     ml_evicted := [] |}.

(** The centroid indices already matched when the loop has gone through
    the tracks [earlier] and turns to the next one. *)
Definition matched_before (clock : nat -> Q) (self : AnalyticsModule.Self)
    (detections : list Detection) (earlier : list Z) (tk : nat) : gset nat :=
  ml_matched
    (state_of
       (match_loop clock (current_centroids detections) earlier
          (match_start self) tk).1).

(** Every element is below all later ones. *)
Definition strictly_increasing (l : list Z) : Prop :=
  forall i j a b, (i < j)%nat -> l !! i = Some a -> l !! j = Some b -> a < b.

Definition binary_cells (hm : Z -> Z -> Q) : Prop :=
  forall r c, hm r c = 0%Q \/ hm r c = 1%Q.

(** The spec's wording of the dwell figure: the arithmetic mean of
    (now - entry time) over the active tracks, 0.0 when there is none. *)
Definition spec_avg_dwell (now : Q) (active : list Track) : Q :=
  match active with
  | [] => 0%Q
  | _ =>
      (Qsum (map (fun t => now - entry_time t) active)
       / inject_Z (len active))%Q
  end.

(** The reading of "identifiers are never reused" on a run of calls from a
    new object: the ids handed out, in order, keep growing. *)
Definition ids_never_reused (clock : nat -> Q)
    (float_scale : Z -> Z -> Z -> Z)
    (circle_pixels : Z * Z -> Z -> option (Z -> Z -> bool))
    (config : Config) (ops : list Op) (tk : nat) : Prop :=
  strictly_increasing
    (issued (run clock float_scale circle_pixels ops (fresh config) tk).1).

(** The ids handed out since the last [reset_statistics] are 1, 2, ... up
    to the counter. *)
Definition ids_in_step (s : Session) : Prop :=
  tracks_ok (obj s)
  /\ 0 <= track_counter (obj s)
  /\ issued_epoch s = seqZ 1 (track_counter (obj s)).

(** What binning by wall-clock second entails on a new object, whatever
    the numbering of the bins: two consecutive updates that start in
    different wall-clock seconds leave their two counts in two different bins
    of the history. *)
Definition bins_by_wall_clock_second (clock : nat -> Q)
    (float_scale : Z -> Z -> Z -> Z)
    (circle_pixels : Z * Z -> Z -> option (Z -> Z -> bool))
    (config : Config) : Prop :=
  forall dets1 frame1 dets2 frame2 tk,
    let r1 := update clock float_scale circle_pixels (__init__ config)
                dets1 frame1 tk in
    let r2 := update clock float_scale circle_pixels r1.1.1
                dets2 frame2 r1.2 in
    Qfloor (clock tk) <> Qfloor (clock r1.2) ->
    exists k1 k2,
      k1 <> k2
      /\ people_count_history r2.1.1 !! k1 = Some (len dets1)
      /\ people_count_history r2.1.1 !! k2 = Some (len dets2).

(** The alert the spec asks for on a face that is not known. *)
Definition unknown_face_alert_of (face : SecurityModule.Face)
    : SecurityModule.Alert :=
  {| SecurityModule.alert_type := "unknown_face";
     SecurityModule.data :=
       SecurityModule.FaceData "critical" "Unknown"
         (SecurityModule.location face) |}.

(** The [unknown_face] alerts of one processing cycle. *)
Definition unknown_face_emitted (clock : nat -> Q)
    (float_scale : Z -> Z -> Z -> Z)
    (circle_pixels : Z * Z -> Z -> option (Z -> Z -> bool))
    (face_distance : list (list Q) -> list Q -> option (list Q))
    (self : CameraApp.Self) (frame : Frame) (tk : nat)
    : list SecurityModule.Alert :=
  filter (fun a => SecurityModule.alert_type a = "unknown_face"%string)
    (CameraApp.process_frame clock float_scale circle_pixels face_distance
       self frame tk).1.2.

(** The faces of a frame that [detect_faces] does not report as known. *)
Definition unmatched_faces
    (face_distance : list (list Q) -> list Q -> option (list Q))
    (self : CameraApp.Self) (frame : Frame) : list SecurityModule.Face :=
  filter (fun f => SecurityModule.is_known f = false)
    (SecurityModule.detect_faces face_distance (CameraApp.security self)
       frame).

(** Face evaluation is enabled when the configuration asks for it and the
    library is there to do it. *)
Definition face_evaluation_enabled (sec : SecurityModule.Self) : bool :=
  SecurityModule.enable_face_recognition sec
  && SecurityModule.face_recognition sec.

(** The rule on unknown faces as the spec words it, read on one cycle:
    with face evaluation enabled and a person in the frame, one alert per
    unmatched face; without either, none. *)
Definition unknown_face_rule (clock : nat -> Q)
    (float_scale : Z -> Z -> Z -> Z)
    (circle_pixels : Z * Z -> Z -> option (Z -> Z -> bool))
    (face_distance : list (list Q) -> list Q -> option (list Q))
    (self : CameraApp.Self) (frame : Frame) (tk : nat) : Prop :=
  let persons := get_people_detections (detected frame) in
  let emitted :=
    unknown_face_emitted clock float_scale circle_pixels face_distance
      self frame tk in
  (face_evaluation_enabled (CameraApp.security self) = true ->
   persons <> [] ->
   emitted = unknown_face_alert_of <$> unmatched_faces face_distance self frame)
  /\ (face_evaluation_enabled (CameraApp.security self) = false
      \/ persons = [] ->
      emitted = []).

(** The two halves of the spec's sentence on the frame counter. *)
Definition counter_grows_while_running (clock : nat -> Q)
    (float_scale : Z -> Z -> Z -> Z)
    (circle_pixels : Z * Z -> Z -> option (Z -> Z -> bool))
    (face_distance : list (list Q) -> list Q -> option (list Q)) : Prop :=
  forall self ev tk,
    CameraApp.running self = true ->
    ev <> CameraApp.EvStop ->
    CameraApp.fps_counter self
    <= CameraApp.fps_counter
         (CameraApp.react clock float_scale circle_pixels face_distance
            self ev tk).1.

Definition counter_frozen_while_stopped (clock : nat -> Q)
    (float_scale : Z -> Z -> Z -> Z)
    (circle_pixels : Z * Z -> Z -> option (Z -> Z -> bool))
    (face_distance : list (list Q) -> list Q -> option (list Q)) : Prop :=
  forall self ev tk,
    CameraApp.running self = false ->
    CameraApp.fps_counter
      (CameraApp.react clock float_scale circle_pixels face_distance
         self ev tk).1
    = CameraApp.fps_counter self.

(** Whether a call of [get_fps] whose first clock reading is the [t]-th
    finds the window of more than one second elapsed. *)
Definition window_elapsed (clock : nat -> Q) (self : CameraApp.Self)
    (t : nat) : bool :=
  Qltb 1 (clock t - CameraApp.last_fps_time self)%Q.

(** A clock that never goes back. *)
Definition clock_monotone (clock : nat -> Q) : Prop :=
  forall a b, (a <= b)%nat -> (clock a <= clock b)%Q.

(** The entry time of a track is a clock reading made before the
    [tk]-th. *)
Definition read_before (clock : nat -> Q) (tk : nat) (tr : Track) : Prop :=
  exists t, (t < tk)%nat /\ entry_time tr = clock t.

(** That holds for every track of the dict. *)
Definition entries_read_before (clock : nat -> Q)
    (self : AnalyticsModule.Self) (tk : nat) : Prop :=
  Forall (read_before clock tk) (values (person_tracks self)).

(** The number of frames the loop processes over a run of events: frames
    count while the application runs, none after a stop. *)
Fixpoint frames_taken (running : bool) (evs : list CameraApp.Event) : Z :=
  match evs with
  | [] => 0
  | CameraApp.EvFrame _ :: rest =>
      (if running then 1 else 0) + frames_taken running rest
  | CameraApp.EvStatus :: rest => frames_taken running rest
  | CameraApp.EvStop :: rest => frames_taken false rest
  end.

(** The last [n] elements of a list. *)
Definition take_last {A : Type} (n : Z) (l : list A) : list A :=
  drop (length l - Z.to_nat n) l.

(** The cells of a map of the given resolution that the deposit for one
    detection on a frame covers: the pixels of the disc of radius 10 around
    the centre of the box, scaled from the frame to the map, that lie inside
    the map. *)
Definition deposit_cells (float_scale : Z -> Z -> Z -> Z)
    (circle_pixels : Z * Z -> Z -> option (Z -> Z -> bool))
    (resolution : Z * Z) (frame : Frame) (det : Detection)
    : option (Z -> Z -> bool) :=
  let center_x := (x1 det + x2 det) `quot` 2 in
  let center_y := (y1 det + y2 det) `quot` 2 in
  let hm_x := float_scale center_x (shape frame).2 resolution.2 in
  let hm_y := float_scale center_y (shape frame).1 resolution.1 in
  match circle_pixels (hm_x, hm_y) 10 with
  | Some covers =>
      Some (fun r c => in_shape resolution.1 resolution.2 r c && covers c r)
  | None => None
  end.

(** The frame a motion detector keeps came through [cv2.cvtColor], so it
    has pixels. *)
Definition stored_has_pixels (self : MotionDetector.Self) : Prop :=
  match MotionDetector.prev_frame self with
  | Some prev => MotionDetector.g_pixels prev <> []
  | None => True
  end.

(** ** Sample inputs *)

Module Sample.

(** A clock whose n-th reading is n seconds. *)
Definition seconds : nat -> Q := fun n => inject_Z (Z.of_nat n).

(** A clock that stands at 100 seconds. *)
Definition at_100 : nat -> Q := fun _ => 100%Q.

(** Exact scaling, good enough for sample runs. *)
Definition scale : Z -> Z -> Z -> Z := fun c dim map_dim => (c * map_dim) `quot` dim.

(** The discs of the Euclidean metric. *)
Definition disc : Z * Z -> Z -> option (Z -> Z -> bool) :=
  fun center radius =>
    Some (fun x y =>
            (x - center.1) ^ 2 + (y - center.2) ^ 2 <=? radius ^ 2).

Definition no_distance : list (list Q) -> list Q -> option (list Q) :=
  fun known _ => Some (map (fun _ => 1%Q) known).

Definition config : Config :=
  {| analytics_enable_people_counting := true;
     analytics_enable_heatmap := true;
     analytics_heatmap_resolution := (640, 480);
     security_enable_face_recognition := true;
     security_enable_alerts := true;
     security_motion_threshold := 5%Q |}.

Definition quiet_config : Config :=
  {| analytics_enable_people_counting := true;
     analytics_enable_heatmap := true;
     analytics_heatmap_resolution := (640, 480);
     security_enable_face_recognition := true;
     security_enable_alerts := false;
     security_motion_threshold := 5%Q |}.

Definition person (a b c d : Z) : Detection :=
  {| class_id := 0; class_name := "person"; confidence := 9 # 10;
     x1 := a; y1 := b; x2 := c; y2 := d |}.

(** Boxes centred at (100,100), (500,500) and (105,102). *)
Definition det_a : Detection := person 80 60 120 140.
Definition det_b : Detection := person 480 460 520 540.
Definition det_c : Detection := person 85 62 125 142.

(** A frame of 1080 rows and 1920 columns with the given detections, from
    a single-channel camera: [cv2.cvtColor] rejects it, the drawing calls
    return. *)
Definition frame_of (dets : list Detection) : Frame :=
  {| shape := (1080, 1920);
     gray := None;
     detected := dets;
     face_locations := [];
     face_encodings := [];
     drawn := true;
     overlaid := true |}.

(** One person and one face in view. *)
Definition frame_face : Frame :=
  {| shape := (1080, 1920);
     gray := None;
     detected := [det_a];
     face_locations := [(10, 40, 30, 20)];
     face_encodings := [[0%Q]];
     drawn := true;
     overlaid := true |}.

Definition track_at (p : Z * Z) : Track :=
  {| position := p; entry_time := 0%Q; last_seen := 0%Q |}.

(** An object that tracks two people, ids 1 and 2. *)
Definition two_tracks : AnalyticsModule.Self :=
  {| enable_counting := true;
     enable_heatmap := true;
     heatmap_resolution := (640, 480);
     heatmap := zeros;
     person_tracks := [(1, track_at (100, 100)); (2, track_at (500, 500))];
     track_counter := 2;
     frame_count := 1;
     people_count_history := {[ 0 := 2 ]} |}.

(** An application built at the first clock reading, with the face
    library present and no stored face. *)
Definition app (config : Config) : CameraApp.Self :=
  CameraApp.start
    (CameraApp.__init__ seconds config true [] 0%nat).1.

(** The same application after a frame and a status read; the clock has
    been read 7 times by then. *)
Definition app_later : CameraApp.Self :=
  (CameraApp.react_all seconds scale disc no_distance
     [CameraApp.EvFrame (frame_of [det_a]); CameraApp.EvStatus]
     (app config) 1%nat).1.

(** A frame without rows or columns: no OpenCV call accepts it. *)
Definition frame_empty : Frame :=
  {| shape := (0, 0);
     gray := None;
     detected := [det_a];
     face_locations := [];
     face_encodings := [];
     drawn := false;
     overlaid := false |}.

(** Two grayscale images, 2 x 2 and 1 x 2. *)
Definition gray_a : MotionDetector.Gray :=
  {| MotionDetector.g_shape := (2, 2);
     MotionDetector.g_pixels := [10; 200; 30; 40] |}.

Definition gray_b : MotionDetector.Gray :=
  {| MotionDetector.g_shape := (1, 2);
     MotionDetector.g_pixels := [10; 200] |}.

(** [gray_a] with three of its four pixels changed by more than 30. *)
Definition gray_c : MotionDetector.Gray :=
  {| MotionDetector.g_shape := (2, 2);
     MotionDetector.g_pixels := [200; 10; 130; 40] |}.

(** Two frames of a colour camera with nobody in view, whose grayscale
    images are [gray_a] and [gray_c]. *)
Definition frame_dark : Frame :=
  {| shape := (2, 2);
     gray := Some gray_a;
     detected := [];
     face_locations := [];
     face_encodings := [];
     drawn := true;
     overlaid := true |}.

Definition frame_bright : Frame :=
  {| shape := (2, 2);
     gray := Some gray_c;
     detected := [];
     face_locations := [];
     face_encodings := [];
     drawn := true;
     overlaid := true |}.

(** A box centred at (20000000020, 100): the square of its distance to
    any track of a camera picture is above 2^64. *)
Definition det_far : Detection := person 20000000000 60 20000000040 140.

(** A motion detector with the default threshold that has seen
    [gray_a]. *)
Definition motion_seen : MotionDetector.Self :=
  MotionDetector.with_prev (MotionDetector.__init__ 5%Q) gray_a.

(** A small configuration tree, and the same after
    [set("camera.fps", 15)]. *)
Definition tree : list (string * ConfigTree.value) :=
  [("camera"%string,
    ConfigTree.VDict
      [("fps"%string, ConfigTree.VInt 30);
       ("resolution"%string,
        ConfigTree.VList [ConfigTree.VInt 1920; ConfigTree.VInt 1080])]);
   ("debug"%string, ConfigTree.VBool false)].

Definition tree_15 : list (string * ConfigTree.value) :=
  [("camera"%string,
    ConfigTree.VDict
      [("fps"%string, ConfigTree.VInt 15);
       ("resolution"%string,
        ConfigTree.VList [ConfigTree.VInt 1920; ConfigTree.VInt 1080])]);
   ("debug"%string, ConfigTree.VBool false)].

(** A user configuration without nested dicts. *)
Definition flat_items : list (string * ConfigTree.value) :=
  [("debug"%string, ConfigTree.VBool true);
   ("name"%string, ConfigTree.VStr "door")].

(** Stand-ins for [cv2.flip] and [cv2.rotate] on the modelled frames: a
    quarter turn swaps rows and columns. *)
Definition mirror (frame : Frame) : Frame := frame.

Definition turn (code : CameraCapture.rotate_code) (frame : Frame) : Frame :=
  match code with
  | CameraCapture.ROTATE_180 => frame
  | _ =>
      {| shape := ((shape frame).2, (shape frame).1);
         gray := gray frame;
         detected := detected frame;
         face_locations := face_locations frame;
         face_encodings := face_encodings frame;
         drawn := drawn frame;
         overlaid := overlaid frame |}
  end.

(** A camera that turns the frames by 90 degrees and keeps two of them,
    with its capture loop started; the second has no target rate. *)
Definition camera : CameraCapture.Self :=
  {| CameraCapture.flip := false;
     CameraCapture.rotation := 90;
     CameraCapture.fps := 30;
     CameraCapture.frame_buffer_size := 2;
     CameraCapture.frame_buffer := [];
     CameraCapture.current_frame := None;
     CameraCapture.is_running := true;
     CameraCapture.frame_count := 0;
     CameraCapture.fps_clock := 0%Q |}.

Definition camera_no_rate : CameraCapture.Self :=
  {| CameraCapture.flip := false;
     CameraCapture.rotation := 90;
     CameraCapture.fps := 0;
     CameraCapture.frame_buffer_size := 2;
     CameraCapture.frame_buffer := [];
     CameraCapture.current_frame := None;
     CameraCapture.is_running := true;
     CameraCapture.frame_count := 0;
     CameraCapture.fps_clock := 0%Q |}.

End Sample.

(** ** Lists *)

Lemma filter_all {A : Type} (P : A -> Prop) `{forall x, Decision (P x)}
    (l : list A) :
  (forall x, x ∈ l -> P x) -> filter P l = l.
Proof.
  induction l as [|a l IH]; intros Hall; [done |].
  rewrite filter_cons_True by (apply Hall; left).
  f_equal. apply IH. intros x Hx. apply Hall. by right.
Qed.

Lemma filter_none {A : Type} (P : A -> Prop) `{forall x, Decision (P x)}
    (l : list A) :
  (forall x, x ∈ l -> ~ P x) -> filter P l = [].
Proof.
  induction l as [|a l IH]; intros Hall; [done |].
  rewrite filter_cons_False by (apply Hall; left).
  apply IH. intros x Hx. apply Hall. by right.
Qed.

Lemma filter_ext_in {A : Type} (P Q : A -> Prop) `{forall x, Decision (P x)}
    `{forall x, Decision (Q x)} (l : list A) :
  (forall x, x ∈ l -> P x <-> Q x) -> filter P l = filter Q l.
Proof.
  induction l as [|a l IH]; intros Hall; [done |].
  assert (Hl : filter P l = filter Q l).
  { apply IH. intros x Hx. apply Hall. by right. }
  destruct (decide (P a)) as [Hp | Hp].
  - rewrite !filter_cons_True; [by f_equal | by apply Hall; [left |] | done].
  - rewrite !filter_cons_False; [done | | done].
    intros Hq. apply Hp. apply Hall; [left | done].
Qed.

(** ** Dicts *)

Section DictFacts.
Context {K : Type} `{EqDecision K} {V : Type}.
Implicit Types (k : K) (v : V) (d : list (K * V)).

Lemma dict_get_None k d : dict_get k d = None <-> k ∉ keys d.
Proof.
  unfold keys. induction d as [|[k' v'] d IH]; simpl.
  - split; [intros _; apply not_elem_of_nil | done].
  - case_decide as E.
    + subst. split; [done | intros Hn; exfalso; apply Hn; left].
    + rewrite IH. rewrite not_elem_of_cons. tauto.
Qed.

Lemma dict_get_is_Some k d : is_Some (dict_get k d) <-> k ∈ keys d.
Proof.
  rewrite <- not_eq_None_Some, dict_get_None.
  destruct (decide (k ∈ keys d)); tauto.
Qed.

Lemma dict_get_elem k v d : dict_get k d = Some v -> (k, v) ∈ d.
Proof.
  induction d as [|[k' v'] d IH]; simpl; [done |].
  case_decide as E.
  - intros [= ->]. subst. left.
  - intros Hg. right. auto.
Qed.

Lemma elem_dict_get k v d : NoDup (keys d) -> (k, v) ∈ d -> dict_get k d = Some v.
Proof.
  unfold keys. induction d as [|[k' v'] d IH]; simpl.
  - intros _ Hin. by apply elem_of_nil in Hin.
  - rewrite NoDup_cons. intros [Hk Hnd] Hin.
    apply elem_of_cons in Hin as [[= -> ->] | Hin].
    + by rewrite decide_True.
    + case_decide as E; [| auto].
      subst. exfalso. apply Hk. apply list_elem_of_fmap.
      by exists (k', v).
Qed.

Lemma keys_dict_set_in k v d : k ∈ keys d -> keys (dict_set k v d) = keys d.
Proof.
  unfold keys. induction d as [|[k' v'] d IH]; simpl.
  - intros Hin. by apply elem_of_nil in Hin.
  - intros Hin. case_decide as E; simpl; [by subst |].
    f_equal. apply IH. apply elem_of_cons in Hin as [? | ?]; [done | auto].
Qed.

Lemma keys_dict_set_fresh k v d :
  k ∉ keys d -> keys (dict_set k v d) = keys d ++ [k].
Proof.
  unfold keys. induction d as [|[k' v'] d IH]; simpl; [done |].
  rewrite not_elem_of_cons. intros [Hne Hn].
  rewrite decide_False by done. simpl. f_equal. auto.
Qed.

Lemma dict_get_set_eq k v d : dict_get k (dict_set k v d) = Some v.
Proof.
  induction d as [|[k' v'] d IH]; simpl.
  - by rewrite decide_True.
  - case_decide as E; simpl.
    + by rewrite decide_True.
    + by rewrite decide_False.
Qed.

Lemma dict_get_set_ne k k' v d :
  k <> k' -> dict_get k' (dict_set k v d) = dict_get k' d.
Proof.
  intros Hne. induction d as [|[k0 v0] d IH]; simpl.
  - by rewrite decide_False.
  - case_decide as E; simpl.
    + subst. by rewrite !decide_False.
    + by rewrite IH.
Qed.

Lemma dict_get_del_ne k k' d :
  k <> k' -> dict_get k' (dict_del k d) = dict_get k' d.
Proof.
  intros Hne. induction d as [|[k0 v0] d IH]; simpl; [done |].
  case_decide as E; simpl.
  - subst. by rewrite decide_False.
  - by rewrite IH.
Qed.

Lemma keys_dict_del k d :
  NoDup (keys d) -> keys (dict_del k d) = filter (fun x => x <> k) (keys d).
Proof.
  unfold keys. induction d as [|[k0 v0] d IH]; simpl; [done |].
  rewrite NoDup_cons. intros [Hk Hnd].
  case_decide as E; simpl.
  - subst. rewrite filter_cons_False by (intros Hx; by apply Hx).
    symmetry. apply filter_all. intros x Hx ->. done.
  - rewrite filter_cons_True by (intros ->; done).
    f_equal. auto.
Qed.

Lemma dict_get_del_eq k d : NoDup (keys d) -> dict_get k (dict_del k d) = None.
Proof.
  intros Hnd. apply dict_get_None. rewrite keys_dict_del by done.
  rewrite list_elem_of_filter. tauto.
Qed.

Lemma dict_get_values k v d : dict_get k d = Some v -> v ∈ values d.
Proof.
  intros Hg. apply dict_get_elem in Hg. unfold values.
  apply list_elem_of_fmap. by exists (k, v).
Qed.

End DictFacts.

(** ** The centroids of a call *)

Lemma centroids_from (dets : list Detection) (acc : list (nat * (Z * Z))) :
  fold_left (fun cc det => cc ++ [(length cc, centroid det)]) dets acc
  = acc ++ imap (fun i det => ((length acc + i)%nat, centroid det)) dets.
Proof.
  revert acc. induction dets as [|d dets IH]; intros acc; simpl.
  - by rewrite app_nil_r.
  - rewrite IH, <- app_assoc. simpl.
    replace (length acc + 0)%nat with (length acc) by lia.
    do 2 f_equal. apply imap_ext. intros i x _. simpl. f_equal.
    rewrite length_app. simpl. lia.
Qed.

Lemma current_centroids_imap (dets : list Detection) :
  current_centroids dets = imap (fun i det => (i, centroid det)) dets.
Proof. unfold current_centroids. by rewrite centroids_from. Qed.

Lemma current_centroids_keys (dets : list Detection) :
  (current_centroids dets).*1 = seq 0 (length dets).
Proof.
  rewrite current_centroids_imap, fmap_imap.
  rewrite <- (list_fmap_id (seq 0 (length dets))).
  by rewrite <- (imap_seq_0 dets id).
Qed.

Lemma current_centroids_NoDup (dets : list Detection) :
  NoDup (current_centroids dets).*1.
Proof. rewrite current_centroids_keys. apply NoDup_seq. Qed.

Lemma current_centroids_elem (dets : list Detection) idx pos :
  (idx, pos) ∈ current_centroids dets
  <-> exists det, dets !! idx = Some det /\ pos = centroid det.
Proof.
  rewrite current_centroids_imap, elem_of_lookup_imap. split.
  - intros (i & det & [= -> ->] & Hl). eauto.
  - intros (det & Hl & ->). eauto.
Qed.

(** ** The scan for the nearest free centroid *)

Section NearestFacts.
Variables (old_pos : Z * Z) (matched : gset nat).

(** The scan raises exactly when a free centroid is too far for
    [np.sqrt]. *)
Lemma nearest_raises items c :
  nearest old_pos matched items c = None
  <-> exists idx pos,
        (idx, pos) ∈ items /\ (idx ∉ matched)
        /\ sqrt_limit <= dist_sq pos old_pos.
Proof.
  revert c. induction items as [|[i p] items IH]; intros c; cbn [nearest].
  - split; [done |]. intros (idx & pos & Hin & _). by apply elem_of_nil in Hin.
  - destruct (decide (i ∈ matched)) as [Hi | Hi].
    + rewrite IH. split.
      * intros (idx & pos & Hin & Hf & Hd). exists idx, pos.
        split; [by right | done].
      * intros (idx & pos & Hin & Hf & Hd).
        apply elem_of_cons in Hin as [[= -> ->] | Hin]; [done |].
        by exists idx, pos.
    + cbn zeta. destruct (decide (sqrt_limit <= dist_sq p old_pos)) as [Hd | Hd].
      * split; [| done]. intros _. exists i, p. split; [left | done].
      * rewrite IH. split.
        -- intros (idx & pos & Hin & Hf & Hd'). exists idx, pos.
           split; [by right | done].
        -- intros (idx & pos & Hin & Hf & Hd').
           apply elem_of_cons in Hin as [[= -> ->] | Hin]; [done |].
           by exists idx, pos.
Qed.

Lemma nearest_defined items c :
  (forall idx pos, (idx, pos) ∈ items -> idx ∉ matched ->
     dist_sq pos old_pos < sqrt_limit) ->
  is_Some (nearest old_pos matched items c).
Proof.
  intros Hfit. destruct (nearest old_pos matched items c) eqn:Hn; [done |].
  apply nearest_raises in Hn as (idx & pos & Hin & Hf & Hd).
  specialize (Hfit idx pos Hin Hf). lia.
Qed.

Lemma nearest_keeps items c c' :
  nearest old_pos matched items c = Some c' ->
  is_Some (closest_idx c) -> is_Some (closest_idx c').
Proof.
  revert c. induction items as [|[idx pos] items IH]; intros c; cbn [nearest].
  - by intros [= <-].
  - case_decide; [apply IH |]. cbn zeta. case_decide; [done |].
    intros Hn Hc. apply (IH _ Hn).
    destruct (_ && _); [by eexists | done].
Qed.

Lemma nearest_sound items c c' idx :
  nearest old_pos matched items c = Some c' ->
  closest_idx c' = Some idx ->
  closest_idx c = Some idx
  \/ ((idx ∉ matched)
      /\ exists pos, (idx, pos) ∈ items /\ dist_sq pos old_pos < max_dist_sq).
Proof.
  revert c. induction items as [|[i pos] items IH]; intros c; cbn [nearest].
  - intros [= <-]. by left.
  - case_decide as Hi.
    + intros Hn Hres. destruct (IH _ Hn Hres) as [Hc | (Hm & p & Hp & Hd)];
        [by left |].
      right. split; [done |]. exists p. split; [by right | done].
    + cbn zeta. case_decide; [done |]. intros Hn Hres.
      destruct (IH _ Hn Hres) as [Hc | (Hm & p & Hp & Hd)].
      * destruct (below_closest _ _ && _) eqn:Hb; [| by left].
        simpl in Hc. injection Hc as <-.
        apply andb_true_iff in Hb as [_ Hb%Z.ltb_lt].
        right. split; [done |]. exists pos. split; [left | done].
      * right. split; [done |]. exists p. split; [by right | done].
Qed.

Lemma nearest_skips items c c' :
  nearest old_pos matched items c = Some c' ->
  (forall idx pos, (idx, pos) ∈ items -> idx ∉ matched ->
     max_dist_sq <= dist_sq pos old_pos) ->
  c' = c.
Proof.
  revert c. induction items as [|[i pos] items IH]; intros c; cbn [nearest].
  - by intros [= <-].
  - intros Hn Hfar.
    assert (Hfar' : forall idx p, (idx, p) ∈ items -> idx ∉ matched ->
                      max_dist_sq <= dist_sq p old_pos)
      by (intros idx p Hin; apply (Hfar idx p); by right).
    case_decide as Hi; [by apply IH |].
    cbn zeta in Hn. case_decide; [done |].
    assert (Hd : max_dist_sq <= dist_sq pos old_pos)
      by (apply (Hfar i pos); [left | done]).
    apply Z.ltb_ge in Hd. rewrite Hd, andb_false_r in Hn. by apply IH.
Qed.

Lemma nearest_complete items c' :
  nearest old_pos matched items closest_init = Some c' ->
  closest_idx c' = None ->
  forall idx pos, (idx, pos) ∈ items -> idx ∉ matched ->
    max_dist_sq <= dist_sq pos old_pos.
Proof.
  induction items as [|[i p] items IH]; cbn [nearest];
    intros Hn Hres idx pos Hin Hm.
  - by apply elem_of_nil in Hin.
  - destruct (decide (i ∈ matched)) as [Hi | Hi].
    + apply elem_of_cons in Hin as [[= -> ->] | Hin]; [done |].
      by apply (IH Hn Hres idx pos).
    + cbn zeta in Hn. case_decide; [done |].
      destruct (dist_sq p old_pos <? max_dist_sq) eqn:Hd.
      * cbn in Hn.
        destruct (nearest_keeps items _ c' Hn) as [j Hj]; [by eexists |].
        congruence.
      * rewrite andb_false_r in Hn.
        apply elem_of_cons in Hin as [[= -> ->] | Hin];
          [by apply Z.ltb_ge | by apply (IH Hn Hres idx pos)].
Qed.

End NearestFacts.

(** ** The matching loop *)

Section MatchLoopFacts.
Variable clock : nat -> Q.
Variable cc : list (nat * (Z * Z)).
Hypothesis cc_keys : NoDup cc.*1.

Lemma match_loop_app pre post st tk :
  match_loop clock cc (pre ++ post) st tk
  = match (match_loop clock cc pre st tk).1 with
    | Normal st' => match_loop clock cc post st' (match_loop clock cc pre st tk).2
    | Raised e st' => (Raised e st', (match_loop clock cc pre st tk).2)
    end.
Proof.
  revert st tk. induction pre as [|k pre IH]; intros st tk; [done |].
  simpl. unfold mbind, clocked_bind, cbind.
  destruct (match_track clock cc st k tk) as [[st1 | e st1] tk1]; [apply IH | done].
Qed.

(** The loop on distinct ids that are all keys of the dict.  It goes
    through a prefix [seen] of the ids, all of them unless [np.sqrt] raised;
    [na] and [ne] are the assignments and evictions it adds, and the state
    is the one the [except] clause finds. *)
Lemma match_loop_spec ids : forall st tk,
  NoDup ids ->
  NoDup (keys (ml_tracks st)) ->
  (forall k, k ∈ ids -> k ∈ keys (ml_tracks st)) ->
  exists r tk' seen na ne,
    match_loop clock cc ids st tk = (r, tk')
    /\ seen `prefix_of` ids
    /\ (forall st', r = Normal st' -> seen = ids)
    /\ ml_assigned (state_of r) = ml_assigned st ++ na
    /\ ml_evicted (state_of r) = ml_evicted st ++ ne
    /\ (forall idx, idx ∈ ml_matched (state_of r)
                    <-> idx ∈ ml_matched st \/ idx ∈ na.*2)
    /\ NoDup na.*2
    /\ (forall idx, idx ∈ na.*2 -> (idx ∉ ml_matched st) /\ idx ∈ cc.*1)
    /\ na.*1 = filter (fun k => k ∉ ne) seen
    /\ ne `sublist_of` seen
    /\ keys (ml_tracks (state_of r))
       = filter (fun k => k ∉ ne) (keys (ml_tracks st))
    /\ (forall k, k ∉ seen ->
          dict_get k (ml_tracks (state_of r)) = dict_get k (ml_tracks st)).
Proof.
  assert (Hstop : forall (r : outcome MatchLoop) (st : MatchLoop)
                          (l : list Z),
            state_of r = st -> (forall st', r <> Normal st') \/ l = [] ->
            exists seen na ne,
              seen `prefix_of` l
              /\ (forall st', r = Normal st' -> seen = l)
              /\ ml_assigned (state_of r) = ml_assigned st ++ na
              /\ ml_evicted (state_of r) = ml_evicted st ++ ne
              /\ (forall idx, idx ∈ ml_matched (state_of r)
                              <-> idx ∈ ml_matched st \/ idx ∈ na.*2)
              /\ NoDup na.*2
              /\ (forall idx, idx ∈ na.*2 ->
                    (idx ∉ ml_matched st) /\ idx ∈ cc.*1)
              /\ na.*1 = filter (fun k => k ∉ ne) seen
              /\ ne `sublist_of` seen
              /\ keys (ml_tracks (state_of r))
                 = filter (fun k => k ∉ ne) (keys (ml_tracks st))
              /\ (forall k, k ∉ seen ->
                    dict_get k (ml_tracks (state_of r))
                    = dict_get k (ml_tracks st))).
  { intros r st l <- Hr. exists [], [], []. cbn. rewrite !app_nil_r.
    split; [apply prefix_nil |].
    split.
    { intros st' ->. destruct Hr as [Hr | ->]; [by destruct (Hr st') | done]. }
    repeat split; try done.
    - by left.
    - intros [? | Hin]; [done | by apply elem_of_nil in Hin].
    - constructor.
    - by apply elem_of_nil in H.
    - by apply elem_of_nil in H.
    - symmetry. apply filter_all. intros x _. apply not_elem_of_nil. }
  induction ids as [|k rest IH]; intros st tk Hnd Hkeys Hsub.
  - exists (Normal st), tk.
    destruct (Hstop (Normal st) st [] eq_refl (or_intror eq_refl))
      as (seen & na & ne & H).
    by exists seen, na, ne.
  - apply NoDup_cons in Hnd as [Hk Hrest].
    assert (Hin : k ∈ keys (ml_tracks st)) by (apply Hsub; left).
    apply dict_get_is_Some in Hin as Hget. destruct Hget as [tr Hget].
    cbn [match_loop]. unfold mbind, clocked_bind, cbind, match_track.
    rewrite Hget.
    destruct (nearest (position tr) (ml_matched st) cc closest_init)
      as [c |] eqn:Hscan; cycle 1.
    { exists (Raised TypeError st), tk. unfold cret.
      destruct (Hstop (Raised TypeError st) st (k :: rest) eq_refl)
        as (seen & na & ne & H); [by left |].
      by exists seen, na, ne. }
    destruct (closest_idx c) as [idx |] eqn:Hc.
    + destruct (nearest_sound _ _ _ _ _ _ Hscan Hc)
        as [Hc0 | (Hfree & pos & Hpos & Hd)]; [done |].
      rewrite (elem_dict_get idx pos cc cc_keys Hpos).
      unfold time_time, cret. simpl.
      set (st1 := Build_MatchLoop _ _ _ _).
      destruct (IH st1 (S tk) Hrest) as
        (r & tk' & seen & na & ne & Hrun & Hpre & Hall & Ha & He & Hm & Hna
         & Hnew & Hfst & Hsl & Hk' & Hg).
      { simpl. by rewrite keys_dict_set_in. }
      { intros x Hx. simpl. rewrite keys_dict_set_in by done. apply Hsub. by right. }
      assert (Hdone : forall x, x ∈ seen -> x ∈ rest).
      { intros x Hx. destruct Hpre as [more ->]. apply elem_of_app. by left. }
      assert (Hkne : k ∉ ne).
      { intros Hx. apply Hk, Hdone. by apply (sublist_subseteq _ _ Hsl). }
      exists r, tk', (k :: seen), ((k, idx) :: na), ne.
      split; [done |].
      split; [by apply prefix_cons |].
      split; [intros st' Hr; by rewrite (Hall st' Hr) |].
      split; [by rewrite Ha; simpl; rewrite <- app_assoc |].
      split; [done |].
      split.
      { intros i. rewrite Hm. simpl. rewrite elem_of_union, elem_of_singleton, elem_of_cons.
        tauto. }
      split.
      { simpl. apply NoDup_cons. split; [| done].
        intros Hx. apply Hnew in Hx as [Hx _]. apply Hx. simpl.
        apply elem_of_union_l. by apply elem_of_singleton. }
      split.
      { intros i. simpl. rewrite elem_of_cons. intros [-> | Hi].
        - split; [done |]. apply list_elem_of_fmap. by exists (idx, pos).
        - apply Hnew in Hi as [Hi ?]. split; [| done].
          intros Hx. apply Hi. simpl. by apply elem_of_union_r. }
      split; [simpl; rewrite filter_cons_True by done; by f_equal |].
      split; [by apply sublist_cons |].
      split; [rewrite Hk'; simpl; by rewrite keys_dict_set_in |].
      intros x Hx. apply not_elem_of_cons in Hx as [Hne Hx].
      rewrite Hg by done. simpl. by apply dict_get_set_ne.
    + unfold cret.
      set (st1 := Build_MatchLoop _ _ _ _).
      assert (Hkeys1 : keys (ml_tracks st1) = filter (fun x => x <> k) (keys (ml_tracks st)))
        by (simpl; by apply keys_dict_del).
      destruct (IH st1 tk Hrest) as
        (r & tk' & seen & na & ne & Hrun & Hpre & Hall & Ha & He & Hm & Hna
         & Hnew & Hfst & Hsl & Hk' & Hg).
      { rewrite Hkeys1. by apply NoDup_filter. }
      { intros x Hx. rewrite Hkeys1. apply list_elem_of_filter. split.
        - intros ->. done.
        - apply Hsub. by right. }
      exists r, tk', (k :: seen), na, (k :: ne).
      split; [done |].
      split; [by apply prefix_cons |].
      split; [intros st' Hr; by rewrite (Hall st' Hr) |].
      split; [done |].
      split; [by rewrite He; simpl; rewrite <- app_assoc |].
      split; [done |]. split; [done |]. split; [done |].
      split.
      { rewrite filter_cons_False by (intros Hx; apply Hx; left).
        rewrite Hfst. apply filter_ext_in. intros x Hx.
        rewrite not_elem_of_cons. split; [| tauto].
        intros Hn. split; [| done]. intros ->.
        destruct Hpre as [more ->]. apply Hk. apply elem_of_app. by left. }
      split; [by apply sublist_skip |].
      split.
      { rewrite Hk', Hkeys1, list_filter_filter. apply filter_ext_in.
        intros x _. rewrite not_elem_of_cons. tauto. }
      intros x Hx. apply not_elem_of_cons in Hx as [Hne Hx].
      rewrite Hg by done. simpl. by apply dict_get_del_ne.
Qed.

(** When every root the loop can ask for exists, it raises nothing. *)
Lemma match_loop_normal ids : forall st tk,
  NoDup ids ->
  (forall k, k ∈ ids ->
     exists tr, dict_get k (ml_tracks st) = Some tr
                /\ forall idx pos, (idx, pos) ∈ cc ->
                     dist_sq pos (position tr) < sqrt_limit) ->
  exists st', (match_loop clock cc ids st tk).1 = Normal st'.
Proof.
  induction ids as [|k rest IH]; intros st tk Hnd Hfit; [by eexists |].
  apply NoDup_cons in Hnd as [Hk Hrest].
  destruct (Hfit k) as (tr & Hget & Hroots); [left |].
  cbn [match_loop]. unfold mbind, clocked_bind, cbind, match_track.
  rewrite Hget.
  assert (Hsome : is_Some (nearest (position tr) (ml_matched st) cc
                             closest_init)).
  { apply nearest_defined. intros idx pos Hin _. by apply (Hroots idx). }
  destruct Hsome as [c Hscan]. rewrite Hscan.
  assert (Hother : forall v k', k' ∈ rest ->
            exists tr', dict_get k' (dict_set k v (ml_tracks st)) = Some tr'
                        /\ forall idx pos, (idx, pos) ∈ cc ->
                             dist_sq pos (position tr') < sqrt_limit).
  { intros v k' Hk'. destruct (Hfit k') as (tr' & Hg' & Hr'); [by right |].
    exists tr'. split; [| done]. rewrite dict_get_set_ne; [done |].
    intros ->. done. }
  destruct (closest_idx c) as [idx |] eqn:Hc.
  - destruct (nearest_sound _ _ _ _ _ _ Hscan Hc)
      as [Hc0 | (Hfree & pos & Hpos & Hd)]; [done |].
    rewrite (elem_dict_get idx pos cc cc_keys Hpos).
    unfold time_time, cret. simpl. apply IH; [done |].
    intros k' Hk'. simpl. by apply Hother.
  - unfold cret. apply IH; [done |].
    intros k' Hk'. simpl. destruct (Hfit k') as (tr' & Hg' & Hr'); [by right |].
    exists tr'. split; [| done]. rewrite dict_get_del_ne; [done |].
    intros ->. done.
Qed.

End MatchLoopFacts.

(** ** The loop that opens new tracks *)

Section SpawnLoopFacts.
Variable clock : nat -> Q.
Variable matched : gset nat.

Lemma spawn_loop_spec items : forall st tk,
  Forall (fun k => k <= sl_counter st) (keys (sl_tracks st)) ->
  let r := (spawn_loop clock matched items st tk).1 in
  let free := filter (fun i => i ∉ matched) items.*1 in
  let ids := seqZ (sl_counter st + 1) (len free) in
  sl_created r = sl_created st ++ zip free ids
  /\ sl_counter r = sl_counter st + len free
  /\ keys (sl_tracks r) = keys (sl_tracks st) ++ ids
  /\ (forall k, k <= sl_counter st ->
        dict_get k (sl_tracks r) = dict_get k (sl_tracks st))
  /\ (forall idx id, (idx, id) ∈ zip free ids ->
        exists tr, dict_get id (sl_tracks r) = Some tr
                   /\ (idx, position tr) ∈ items).
Proof.
  induction items as [|[idx pos] items IH]; intros st tk Hle; cbv zeta.
  - simpl. rewrite !app_nil_r. unfold len. simpl. rewrite Z.add_0_r.
    repeat split; try done. intros i id Hin. by apply elem_of_nil in Hin.
  - rewrite fmap_cons. cbn [spawn_loop fst]. case_decide as Hm.
    + rewrite filter_cons_False by (intros Hx; by apply Hx).
      destruct (IH st tk Hle) as (Hc & Hn & Hk & Hg & Hnew).
      cbv zeta in *. repeat split; try done.
      intros i id Hin. destruct (Hnew i id Hin) as (tr & Htr & Hpos).
      exists tr. split; [done | by right].
    + rewrite filter_cons_True by done.
      unfold mbind, clocked_bind, cbind, time_time. cbn beta iota.
      set (st1 := Build_SpawnLoop _ _ _).
      assert (Hfresh : (sl_counter st + 1) ∉ keys (sl_tracks st)).
      { intros Hin. rewrite Forall_forall in Hle. apply Hle in Hin. lia. }
      assert (Hk1 : keys (sl_tracks st1) = keys (sl_tracks st) ++ [sl_counter st + 1])
        by (simpl; by apply keys_dict_set_fresh).
      destruct (IH st1 (S (S tk))) as (Hc & Hn & Hk & Hg & Hnew);
        cbv zeta in *.
      { rewrite Hk1. apply Forall_app. split.
        - eapply Forall_impl; [exact Hle |]. simpl. intros; lia.
        - apply Forall_singleton. simpl. lia. }
      set (free := filter (fun i => i ∉ matched) items.*1) in *.
      assert (Hlen : len (idx :: free) = len free + 1)
        by (unfold len; simpl; lia).
      assert (Hseq : seqZ (sl_counter st + 1) (len (idx :: free))
                     = (sl_counter st + 1) :: seqZ (sl_counter st1 + 1) (len free)).
      { rewrite seqZ_cons by (unfold len; simpl; lia).
        rewrite Hlen. simpl. do 2 f_equal; lia. }
      rewrite Hseq. simpl zip.
      split; [by rewrite Hc; simpl; rewrite <- app_assoc |].
      split; [rewrite Hn, Hlen; simpl; lia |].
      split; [by rewrite Hk, Hk1, <- app_assoc |].
      split.
      { intros k Hk0. rewrite Hg by (simpl; lia). simpl.
        apply dict_get_set_ne. lia. }
      intros i id Hin. apply elem_of_cons in Hin as [[= -> ->] | Hin].
      * rewrite Hg by (simpl; lia). simpl. rewrite dict_get_set_eq.
        eexists. split; [done |]. simpl. left.
      * destruct (Hnew i id Hin) as (tr & Htr & Hpos).
        exists tr. split; [done | by right].
Qed.

End SpawnLoopFacts.

(** ** One call of [_update_tracks] *)

Section UpdateTracksFacts.
Variable clock : nat -> Q.

(** Under [roots_defined] the matching loop of a call raises nothing. *)
Lemma update_tracks_no_raise self dets tk :
  NoDup (keys (person_tracks self)) ->
  roots_defined self dets ->
  exists st',
    (match_loop clock (current_centroids dets) (keys (person_tracks self))
       (match_start self) tk).1 = Normal st'.
Proof.
  intros Hnd Hroots.
  apply match_loop_normal; [apply current_centroids_NoDup | done |].
  intros k Hk. apply dict_get_is_Some in Hk as [tr Htr].
  exists tr. split; [done |]. intros idx pos Hin.
  apply current_centroids_elem in Hin as (det & Hdet & ->).
  unfold roots_defined in Hroots. rewrite Forall_forall in Hroots.
  specialize (Hroots tr (dict_get_values _ _ _ Htr)).
  rewrite Forall_forall in Hroots. apply Hroots.
  by apply list_elem_of_lookup_2 in Hdet.
Qed.

(** A call whose matching loop raises nothing, seen from outside: which
    tracks survive, which centroids open a track, and under which ids. *)
Lemma update_tracks_normal self dets tk st0 :
  tracks_ok self ->
  (match_loop clock (current_centroids dets) (keys (person_tracks self))
     (match_start self) tk).1 = Normal st0 ->
  let r := (_update_tracks clock self dets tk).1 in
  let free := filter (fun i => i ∉ (assigned r.2).*2) (seq 0 (length dets)) in
  let ids := seqZ (track_counter self + 1) (len free) in
  NoDup (assigned r.2).*2
  /\ (forall idx, idx ∈ (assigned r.2).*2 -> (idx < length dets)%nat)
  /\ (assigned r.2).*1
     = filter (fun k => k ∉ evicted r.2) (keys (person_tracks self))
  /\ evicted r.2 `sublist_of` keys (person_tracks self)
  /\ created r.2 = zip free ids
  /\ track_counter r.1 = track_counter self + len free
  /\ keys (person_tracks r.1) = (assigned r.2).*1 ++ ids
  /\ (forall idx id, (idx, id) ∈ created r.2 ->
        exists tr det, dict_get id (person_tracks r.1) = Some tr
                       /\ dets !! idx = Some det
                       /\ position tr = centroid det).
Proof.
  intros [Hnd Hle] Hnormal. cbv zeta.
  pose proof (current_centroids_NoDup dets) as Hcc.
  destruct (match_loop_spec clock (current_centroids dets) Hcc
              (keys (person_tracks self)) (match_start self) tk Hnd Hnd)
    as (r & tk' & seen & na & ne & Hrun & _ & Hall & Ha & He & Hm & Hna & Hnew
        & Hfst & Hsl & Hk & Hg);
    [done |].
  rewrite Hrun in Hnormal. cbn [fst] in Hnormal. subst r.
  rewrite (Hall st0 eq_refl) in Hfst, Hsl. clear Hall Hg seen.
  cbn [state_of] in *. rename st0 into st'.
  simpl in Ha, He, Hk, Hm.
  assert (Hfree : filter (fun i => i ∉ ml_matched st') (current_centroids dets).*1
                  = filter (fun i => i ∉ na.*2) (seq 0 (length dets))).
  { rewrite current_centroids_keys. apply filter_ext_in. intros i _.
    rewrite Hm. rewrite elem_of_empty. tauto. }
  unfold _update_tracks, mbind, clocked_bind, cbind.
  fold (match_start self). rewrite Hrun.
  set (sp0 := Build_SpawnLoop _ _ _).
  destruct (spawn_loop_spec clock (ml_matched st') (current_centroids dets) sp0 tk')
    as (Hc & Hn & Hks & Hgs & Hpos).
  { simpl. rewrite Hk. apply Forall_forall. intros k Hin.
    apply list_elem_of_filter in Hin as [_ Hin].
    rewrite Forall_forall in Hle. by apply Hle. }
  cbv zeta in Hc, Hn, Hks, Hgs, Hpos. rewrite Hfree in Hc, Hn, Hks, Hpos.
  simpl in Hc, Hn, Hks, Hgs, Hpos.
  destruct (spawn_loop clock (ml_matched st') (current_centroids dets) sp0 tk')
    as [sp tk''] eqn:Hsp.
  simpl in *. rewrite Ha.
  split; [done |].
  split.
  { intros idx Hin. apply Hnew in Hin as [_ Hin].
    rewrite current_centroids_keys in Hin. apply elem_of_seq in Hin. lia. }
  split; [by rewrite Hfst, He |].
  split; [by rewrite He |].
  split; [done |].
  split; [done |].
  split; [by rewrite Hks, Hk, Hfst |].
  intros idx id Hin. rewrite Hc in Hin.
  destruct (Hpos idx id Hin) as (tr & Htr & Hel).
  apply current_centroids_elem in Hel as (det & Hdet & Hp).
  by exists tr, det.
Qed.

Lemma update_tracks_spec self dets tk :
  tracks_ok self ->
  roots_defined self dets ->
  let r := (_update_tracks clock self dets tk).1 in
  let free := filter (fun i => i ∉ (assigned r.2).*2) (seq 0 (length dets)) in
  let ids := seqZ (track_counter self + 1) (len free) in
  NoDup (assigned r.2).*2
  /\ (forall idx, idx ∈ (assigned r.2).*2 -> (idx < length dets)%nat)
  /\ (assigned r.2).*1
     = filter (fun k => k ∉ evicted r.2) (keys (person_tracks self))
  /\ evicted r.2 `sublist_of` keys (person_tracks self)
  /\ created r.2 = zip free ids
  /\ track_counter r.1 = track_counter self + len free
  /\ keys (person_tracks r.1) = (assigned r.2).*1 ++ ids
  /\ (forall idx id, (idx, id) ∈ created r.2 ->
        exists tr det, dict_get id (person_tracks r.1) = Some tr
                       /\ dets !! idx = Some det
                       /\ position tr = centroid det).
Proof.
  intros Hok Hroots.
  destruct (update_tracks_no_raise self dets tk (proj1 Hok) Hroots) as [st' Hn].
  by apply (update_tracks_normal self dets tk st').
Qed.

(** A call whose matching loop raises: the [except] clause leaves the dict
    as the loop left it, opens no track and keeps the counter. *)
Lemma update_tracks_raised self dets tk e st0 :
  tracks_ok self ->
  (match_loop clock (current_centroids dets) (keys (person_tracks self))
     (match_start self) tk).1 = Raised e st0 ->
  let r := (_update_tracks clock self dets tk).1 in
  created r.2 = []
  /\ track_counter r.1 = track_counter self
  /\ keys (person_tracks r.1)
     = filter (fun k => k ∉ evicted r.2) (keys (person_tracks self)).
Proof.
  intros [Hnd Hle] Hraised. cbv zeta.
  pose proof (current_centroids_NoDup dets) as Hcc.
  destruct (match_loop_spec clock (current_centroids dets) Hcc
              (keys (person_tracks self)) (match_start self) tk Hnd Hnd)
    as (r & tk' & seen & na & ne & Hrun & _ & _ & _ & He & _ & _ & _ & _ & _
        & Hk & _);
    [done |].
  rewrite Hrun in Hraised. cbn [fst] in Hraised. subst r.
  cbn [state_of] in *. simpl in He, Hk.
  unfold _update_tracks, mbind, clocked_bind, cbind.
  fold (match_start self). rewrite Hrun. cbn. by rewrite He.
Qed.

(** Whether the loop raises or not, the new ids are the next ones of the
    counter and the dict holds the tracks that stay, then the new ones. *)
Lemma update_tracks_ids self dets tk :
  tracks_ok self ->
  let r := (_update_tracks clock self dets tk).1 in
  exists n,
    0 <= n
    /\ (created r.2).*2 = seqZ (track_counter self + 1) n
    /\ track_counter r.1 = track_counter self + n
    /\ keys (person_tracks r.1)
       = filter (fun k => k ∉ evicted r.2) (keys (person_tracks self))
         ++ seqZ (track_counter self + 1) n.
Proof.
  intros Hok. cbv zeta.
  destruct (match_loop clock (current_centroids dets) (keys (person_tracks self))
              (match_start self) tk).1 as [st' | e st'] eqn:Hrun.
  - destruct (update_tracks_normal self dets tk st' Hok Hrun)
      as (_ & _ & Hfst & _ & Hcr & Hcnt & Hkeys & _).
    cbv zeta in *.
    set (u := (_update_tracks clock self dets tk).1) in *.
    set (free := filter (fun i => i ∉ (assigned u.2).*2) (seq 0 (length dets))) in *.
    exists (len free). split; [unfold len; lia |].
    split; [| split; [done | by rewrite Hkeys, Hfst]].
    rewrite Hcr. apply snd_zip. rewrite length_seqZ. unfold len. lia.
  - destruct (update_tracks_raised self dets tk e st' Hok Hrun)
      as (Hcr & Hcnt & Hkeys).
    cbv zeta in *. exists 0. split; [done |].
    rewrite Hcr, Hcnt, Hkeys. cbn. rewrite app_nil_r.
    split; [done |]. split; [lia | done].
Qed.

End UpdateTracksFacts.

Section UpdateFacts.
Variable clock : nat -> Q.
Variable float_scale : Z -> Z -> Z -> Z.
Variable circle_pixels : Z * Z -> Z -> option (Z -> Z -> bool).

Lemma update_tracks_ok self dets tk :
  tracks_ok self -> tracks_ok (_update_tracks clock self dets tk).1.1.
Proof.
  intros Hok.
  destruct (update_tracks_ids clock self dets tk Hok)
    as (n & Hn & _ & Hcnt & Hkeys).
  cbv zeta in *. destruct Hok as [Hnd Hle]. rewrite Forall_forall in Hle.
  split.
  - rewrite Hkeys. apply NoDup_app. split; [by apply NoDup_filter |].
    split; [| apply NoDup_seqZ].
    intros k Hk Hs. apply list_elem_of_filter in Hk as [_ Hk].
    apply Hle in Hk. apply elem_of_seqZ in Hs. lia.
  - rewrite Hkeys, Hcnt. apply Forall_app. split; apply Forall_forall.
    + intros k Hk. apply list_elem_of_filter in Hk as [_ Hk].
      apply Hle in Hk. lia.
    + intros k Hk. apply elem_of_seqZ in Hk. lia.
Qed.

(** [_update_tracks] reads nothing of the object but the dict and the
    counter. *)
Lemma update_tracks_reads self self2 dets tk :
  person_tracks self2 = person_tracks self ->
  track_counter self2 = track_counter self ->
  (_update_tracks clock self2 dets tk).1.2 = (_update_tracks clock self dets tk).1.2
  /\ person_tracks (_update_tracks clock self2 dets tk).1.1
     = person_tracks (_update_tracks clock self dets tk).1.1
  /\ track_counter (_update_tracks clock self2 dets tk).1.1
     = track_counter (_update_tracks clock self dets tk).1.1
  /\ (_update_tracks clock self2 dets tk).2 = (_update_tracks clock self dets tk).2.
Proof.
  intros Ht Hc. unfold _update_tracks, mbind, clocked_bind, cbind.
  rewrite Ht, Hc.
  destruct (match_loop _ _ _ _ _) as [[st | e st] tk1]; [| done].
  destruct (spawn_loop _ _ _ _ _) as [sp tk2]. done.
Qed.

Lemma update_heatmap_keeps self dets frame :
  person_tracks (_update_heatmap float_scale circle_pixels self dets frame)
  = person_tracks self
  /\ track_counter (_update_heatmap float_scale circle_pixels self dets frame)
     = track_counter self
  /\ enable_counting (_update_heatmap float_scale circle_pixels self dets frame)
     = enable_counting self.
Proof.
  unfold _update_heatmap. by destruct (shape frame), (heatmap_resolution self).
Qed.

(** The tracker part of [update] is the call of [_update_tracks] on the
    object as it came in. *)
Lemma update_traced_tracks self dets frame tk :
  enable_counting self = true ->
  let r := (update_traced clock float_scale circle_pixels self dets frame tk).1 in
  let u := (_update_tracks clock self dets tk).1 in
  r.2 = u.2
  /\ person_tracks r.1.1 = person_tracks u.1
  /\ track_counter r.1.1 = track_counter u.1.
Proof.
  intros Hen. cbv zeta. unfold update_traced, mbind, clocked_bind, cbind.
  set (self1 := with_counts _ _ _).
  set (self2 := if enable_heatmap self1 then _ else self1).
  assert (H2 : person_tracks self2 = person_tracks self
               /\ track_counter self2 = track_counter self
               /\ enable_counting self2 = true).
  { subst self2. destruct (enable_heatmap self1).
    - destruct (update_heatmap_keeps self1 dets frame) as (-> & -> & ->). done.
    - done. }
  destruct H2 as (Ht & Hc & ->).
  destruct (update_tracks_reads self self2 dets tk Ht Hc) as (Htr & Hp & Hcn & _).
  destruct (_update_tracks clock self2 dets tk) as [[s2 tr2] tk2].
  destruct (_calculate_avg_dwell_time clock (s2, tr2).1 tk2) as [avg tk3].
  simpl in *. done.
Qed.

Lemma update_is_traced self dets frame tk :
  update clock float_scale circle_pixels self dets frame tk
  = ((update_traced clock float_scale circle_pixels self dets frame tk).1.1,
     (update_traced clock float_scale circle_pixels self dets frame tk).2).
Proof.
  unfold update, update_traced, mbind, clocked_bind, cbind.
  destruct (if enable_counting _ then _ else _) as [[s2 tr2] tk2].
  by destruct (_calculate_avg_dwell_time clock (s2, tr2).1 tk2).
Qed.

End UpdateFacts.

(** ** The tracker *)

(** C1. In one call of [update] that runs the tracker ([enable_counting]),
    on any track dict and any detections whose centroids are less than 2^32
    away from every track (so that every [np.sqrt] of line 101 returns): no
    centroid index is given to two tracks, no track is given two centroids,
    every assignment joins a track that existed with a centroid of the call,
    the centroids that open a new track are exactly the unmatched ones, each
    once, the new ids are pairwise distinct and were not in use, and the dict
    afterwards holds the matched tracks followed by the new ones. *)
Theorem update_matches_one_to_one (clock : nat -> Q)
    (float_scale : Z -> Z -> Z -> Z)
    (circle_pixels : Z * Z -> Z -> option (Z -> Z -> bool))
    (self : AnalyticsModule.Self) (dets : list Detection) (frame : Frame)
    (tk : nat) :
  enable_counting self = true ->
  tracks_ok self ->
  roots_defined self dets ->
  let r := (update_traced clock float_scale circle_pixels self dets frame tk).1 in
  NoDup (assigned r.2).*2
  /\ NoDup (assigned r.2).*1
  /\ (forall tid idx, (tid, idx) ∈ assigned r.2 ->
        tid ∈ keys (person_tracks self) /\ (idx < length dets)%nat)
  /\ (created r.2).*1
     = filter (fun i => i ∉ (assigned r.2).*2) (seq 0 (length dets))
  /\ NoDup (created r.2).*2
  /\ (forall id, id ∈ (created r.2).*2 -> id ∉ keys (person_tracks self))
  /\ keys (person_tracks r.1.1) = (assigned r.2).*1 ++ (created r.2).*2.
Proof.
  intros Hen Hok Hroots. cbv zeta.
  destruct (update_traced_tracks clock float_scale circle_pixels self dets frame tk Hen)
    as (-> & -> & _).
  destruct (update_tracks_spec clock self dets tk Hok Hroots)
    as (Hnd2 & Hidx & Hfst & _ & Hcr & _ & Hkeys & _).
  cbv zeta in *.
  set (tr := (_update_tracks clock self dets tk).1.2) in *.
  set (free := filter (fun i => i ∉ (assigned tr).*2) (seq 0 (length dets))) in *.
  assert (Hlen : length (seqZ (track_counter self + 1) (len free)) = length free)
    by (rewrite length_seqZ; unfold len; lia).
  assert (Hc1 : (created tr).*1 = free) by (rewrite Hcr; apply fst_zip; lia).
  assert (Hc2 : (created tr).*2 = seqZ (track_counter self + 1) (len free))
    by (rewrite Hcr; apply snd_zip; lia).
  destruct Hok as [Hnd Hle]. rewrite Forall_forall in Hle.
  split; [done |].
  split; [rewrite Hfst; by apply NoDup_filter |].
  split.
  { intros tid idx Hin. split.
    - assert (Ht : tid ∈ (assigned tr).*1)
        by (apply list_elem_of_fmap; by exists (tid, idx)).
      rewrite Hfst in Ht. by apply list_elem_of_filter in Ht as [_ Ht].
    - apply Hidx. apply list_elem_of_fmap. by exists (tid, idx). }
  split; [done |].
  split; [rewrite Hc2; apply NoDup_seqZ |].
  split.
  { intros id Hid Hin. rewrite Hc2 in Hid. apply elem_of_seqZ in Hid.
    apply Hle in Hin. lia. }
  by rewrite Hc2.
Qed.

Lemma update_matches_one_to_one_witness :
  enable_counting Sample.two_tracks = true
  /\ tracks_ok Sample.two_tracks
  /\ roots_defined Sample.two_tracks
       [Sample.det_c; Sample.det_b; Sample.det_a]
  /\ NoDup
       (assigned
          (update_traced Sample.seconds Sample.scale Sample.disc
             Sample.two_tracks [Sample.det_c; Sample.det_b; Sample.det_a]
             (Sample.frame_of []) 0%nat).1.2).*2.
Proof.
  assert (Hok : tracks_ok Sample.two_tracks).
  { split; simpl.
    - apply NoDup_cons. split; [| apply NoDup_singleton].
      intros Hin. apply list_elem_of_singleton in Hin. discriminate.
    - repeat constructor; simpl; lia. }
  assert (Hroots : roots_defined Sample.two_tracks
                     [Sample.det_c; Sample.det_b; Sample.det_a])
    by (unfold roots_defined; repeat (apply Forall_cons; split);
        try apply Forall_nil_2; vm_compute; reflexivity).
  split; [reflexivity |]. split; [exact Hok |]. split; [exact Hroots |].
  exact (proj1 (update_matches_one_to_one Sample.seconds Sample.scale
                  Sample.disc Sample.two_tracks
                  [Sample.det_c; Sample.det_b; Sample.det_a]
                  (Sample.frame_of []) 0%nat eq_refl Hok Hroots)).
Defined.

Section TurnFacts.
Variable clock : nat -> Q.
Variable float_scale : Z -> Z -> Z -> Z.
Variable circle_pixels : Z * Z -> Z -> option (Z -> Z -> bool).

Lemma update_tracks_evicted self dets tk :
  evicted (_update_tracks clock self dets tk).1.2
  = ml_evicted
      (state_of
         (match_loop clock (current_centroids dets) (keys (person_tracks self))
            (match_start self) tk).1).
Proof.
  unfold _update_tracks, mbind, clocked_bind, cbind. fold (match_start self).
  destruct (match_loop _ _ _ _ _) as [[st | e st] tk1]; [| done].
  by destruct (spawn_loop _ _ _ _ _).
Qed.

Lemma update_tracks_assigned self dets tk :
  assigned (_update_tracks clock self dets tk).1.2
  = ml_assigned
      (state_of
         (match_loop clock (current_centroids dets) (keys (person_tracks self))
            (match_start self) tk).1).
Proof.
  unfold _update_tracks, mbind, clocked_bind, cbind. fold (match_start self).
  destruct (match_loop _ _ _ _ _) as [[st | e st] tk1]; [| done].
  by destruct (spawn_loop _ _ _ _ _).
Qed.

(** The scan returns a free centroid in range that no free centroid
    beats, with its squared distance. *)
Lemma nearest_minimal old_pos matched items c c' idx :
  closest_idx c = None -> closest_dist c = None ->
  nearest old_pos matched items c = Some c' ->
  closest_idx c' = Some idx ->
  exists pos,
    (idx, pos) ∈ items
    /\ (idx ∉ matched)
    /\ dist_sq pos old_pos < max_dist_sq
    /\ forall j p, (j, p) ∈ items -> j ∉ matched ->
         dist_sq pos old_pos <= dist_sq p old_pos.
Proof.
  intros Hi Hd Hscan Hres.
  assert (Hgen : forall items c c' idx,
    (closest_idx c = None -> closest_dist c = None) ->
    (forall i, closest_idx c = Some i ->
       exists d, closest_dist c = Some d /\ d < max_dist_sq) ->
    nearest old_pos matched items c = Some c' ->
    closest_idx c' = Some idx ->
    (exists pos, (idx, pos) ∈ items /\ (idx ∉ matched)
                 /\ dist_sq pos old_pos < max_dist_sq
                 /\ (forall d, closest_dist c = Some d -> dist_sq pos old_pos < d)
                 /\ forall j p, (j, p) ∈ items -> j ∉ matched ->
                      dist_sq pos old_pos <= dist_sq p old_pos)
    \/ (closest_idx c = Some idx
        /\ forall d, closest_dist c = Some d ->
             forall j p, (j, p) ∈ items -> j ∉ matched ->
               d <= dist_sq p old_pos)).
  { clear. intros items.
    induction items as [| [i q] items IH]; intros c c' idx Hn Hs Hscan Hres.
    - cbn [nearest] in Hscan. injection Hscan as <-.
      right. split; [done |]. intros d _ j p Hin. by apply elem_of_nil in Hin.
    - cbn [nearest] in Hscan.
      destruct (decide (i ∈ matched)) as [Him | Him].
      + destruct (IH c c' idx Hn Hs Hscan Hres)
          as [(pos & Hin & Hf & Hr & Hlt & Hmin) | (Hc & Hmin)].
        * left. exists pos. split; [by right |]. repeat split; try done.
          intros j p Hjp Hj. apply elem_of_cons in Hjp as [[= -> ->] | Hjp];
            [done | by apply (Hmin j p)].
        * right. split; [done |]. intros d Hd j p Hjp Hj.
          apply elem_of_cons in Hjp as [[= -> ->] | Hjp];
            [done | by apply (Hmin d Hd j p)].
      + cbn zeta in Hscan.
        destruct (decide (sqrt_limit <= dist_sq q old_pos)); [done |].
        destruct (below_closest (dist_sq q old_pos) c
                  && (dist_sq q old_pos <? max_dist_sq)) eqn:Hb.
        * apply andb_true_iff in Hb as [Hbelow Hrange%Z.ltb_lt].
          set (c1 := {| closest_dist := Some (dist_sq q old_pos);
                        closest_idx := Some i |}) in *.
          assert (Hbelow' : forall d, closest_dist c = Some d ->
                              dist_sq q old_pos < d).
          { intros d Hd. unfold below_closest in Hbelow. rewrite Hd in Hbelow.
            by apply Z.ltb_lt. }
          destruct (IH c1 c' idx) as [(pos & Hin & Hf & Hr & Hlt & Hmin) | (Hc & Hmin)];
            [done | | done | done | |].
          { intros i0 [= <-]. by exists (dist_sq q old_pos). }
          -- left. exists pos. split; [by right |].
             specialize (Hlt _ eq_refl).
             repeat split; try done.
             ++ intros d Hd. specialize (Hbelow' d Hd). lia.
             ++ intros j p Hjp Hj.
                apply elem_of_cons in Hjp as [[= -> ->] | Hjp];
                  [lia | by apply (Hmin j p)].
          -- injection Hc as <-. left. exists q. split; [left |].
             repeat split; try done.
             intros j p Hjp Hj.
             apply elem_of_cons in Hjp as [[= -> ->] | Hjp]; [lia |].
             by apply (Hmin _ eq_refl j p).
        * destruct (IH c c' idx Hn Hs Hscan Hres)
            as [(pos & Hin & Hf & Hr & Hlt & Hmin) | (Hc & Hmin)].
          -- left. exists pos. split; [by right |]. repeat split; try done.
             intros j p Hjp Hj.
             apply elem_of_cons in Hjp as [[= -> ->] | Hjp];
               [| by apply (Hmin j p)].
             apply andb_false_iff in Hb as [Hb | Hb%Z.ltb_ge].
             ++ unfold below_closest in Hb.
                destruct (closest_dist c) as [d |] eqn:Hd; [| done].
                apply Z.ltb_ge in Hb. specialize (Hlt d eq_refl). lia.
             ++ unfold max_dist_sq in *. lia.
          -- right. split; [done |]. intros d Hd j p Hjp Hj.
             apply elem_of_cons in Hjp as [[= -> ->] | Hjp];
               [| by apply (Hmin d Hd j p)].
             apply andb_false_iff in Hb as [Hb | Hb%Z.ltb_ge].
             ++ unfold below_closest in Hb. rewrite Hd in Hb.
                by apply Z.ltb_ge in Hb.
             ++ destruct (Hs idx Hc) as (d' & Hd' & Hlt').
                rewrite Hd in Hd'. injection Hd' as <-. lia. }
  destruct (Hgen items c c' idx) as [(pos & Hin & Hf & Hr & _ & Hmin) | (Hc & _)];
    [done | | done | done | | congruence].
  - intros i Hci. congruence.
  - by exists pos.
Qed.

Lemma match_loop_ticks cc ids : forall st tk,
  (tk <= (match_loop clock cc ids st tk).2)%nat.
Proof.
  induction ids as [| k rest IH]; intros st tk; [done |].
  cbn [match_loop]. unfold mbind, clocked_bind, cbind, match_track.
  destruct (dict_get k (ml_tracks st)) as [tr |]; [| done].
  destruct (nearest _ _ _ _) as [c |]; [| done].
  destruct (closest_idx c) as [idx |].
  - destruct (dict_get idx cc) as [pos |]; [| done].
    unfold time_time, cret. cbn beta iota.
    etransitivity; [| apply IH]. lia.
  - unfold cret. apply IH.
Qed.

Lemma spawn_loop_ticks matched items : forall st tk,
  (tk <= (spawn_loop clock matched items st tk).2)%nat.
Proof.
  induction items as [| [idx pos] items IH]; intros st tk; [done |].
  cbn [spawn_loop]. case_decide; [apply IH |].
  unfold mbind, clocked_bind, cbind, time_time. cbn beta iota.
  etransitivity; [| apply IH]. lia.
Qed.

(** The clock readings of [update] are those of its matching loop, then
    others. *)
Lemma update_ticks self dets frame tk :
  enable_counting self = true ->
  ((match_loop clock (current_centroids dets) (keys (person_tracks self))
      (match_start self) tk).2
   <= (update clock float_scale circle_pixels self dets frame tk).2)%nat.
Proof.
  intros Hen. unfold update, mbind, clocked_bind, cbind.
  set (self1 := with_counts _ _ _).
  set (self2 := if enable_heatmap self1 then _ else self1).
  assert (H2 : person_tracks self2 = person_tracks self
               /\ enable_counting self2 = true).
  { subst self2. destruct (enable_heatmap self1).
    - by destruct (update_heatmap_keeps float_scale circle_pixels self1 dets frame)
        as (-> & _ & ->).
    - done. }
  destruct H2 as [Ht ->].
  unfold _update_tracks, mbind, clocked_bind, cbind.
  rewrite Ht. fold (match_start self).
  destruct (match_loop _ _ _ _ _) as [[st | e st] tk1]; cbn [snd].
  - pose proof (spawn_loop_ticks (ml_matched st) (current_centroids dets)
                  {| sl_tracks := ml_tracks st;
                     sl_counter := track_counter self2;
                     sl_created := [] |} tk1) as Hsp.
    destruct (spawn_loop _ _ _ _ _) as [sp tk2]. unfold cret. cbn [fst snd] in *.
    unfold _calculate_avg_dwell_time, mbind, clocked_bind, cbind, time_time, cret.
    simpl. destruct (sl_tracks sp); simpl; lia.
  - unfold cret. cbn [fst snd].
    unfold _calculate_avg_dwell_time, mbind, clocked_bind, cbind, time_time, cret.
    simpl. destruct (ml_tracks st); simpl; lia.
Qed.

(** What happens to one track when its turn comes.  When [np.sqrt] raises
    before the turn or in the scan made for the track, the track is left as
    it was; otherwise the scan decides. *)
Lemma turn_outcome self dets tk pre tid post tr :
  NoDup (keys (person_tracks self)) ->
  keys (person_tracks self) = pre ++ tid :: post ->
  dict_get tid (person_tracks self) = Some tr ->
  let cc := current_centroids dets in
  let whole := match_loop clock cc (keys (person_tracks self))
                 (match_start self) tk in
  let final := state_of whole.1 in
  let untouched :=
    (forall j, (tid, j) ∉ ml_assigned final)
    /\ (tid ∉ ml_evicted final)
    /\ dict_get tid (ml_tracks final) = Some tr
    /\ exists e st, whole.1 = Raised e st in
  match (match_loop clock cc pre (match_start self) tk).1 with
  | Raised _ _ => untouched
  | Normal _ =>
      match nearest (position tr) (matched_before clock self dets pre tk)
              cc closest_init with
      | None => untouched
      | Some c =>
          match closest_idx c with
          | Some idx =>
              (tid, idx) ∈ ml_assigned final
              /\ (forall j, (tid, j) ∈ ml_assigned final -> j = idx)
              /\ (tid ∉ ml_evicted final)
              /\ exists pos t,
                   dict_get idx cc = Some pos
                   /\ (tk <= t < whole.2)%nat
                   /\ dict_get tid (ml_tracks final)
                      = Some {| position := pos;
                                entry_time := entry_time tr;
                                last_seen := clock t |}
          | None =>
              tid ∈ ml_evicted final
              /\ (forall j, (tid, j) ∉ ml_assigned final)
              /\ dict_get tid (ml_tracks final) = None
          end
      end
  end.
Proof.
  intros Hnd Hkeys Hget. cbv zeta.
  pose proof (current_centroids_NoDup dets) as Hcc.
  set (cc := current_centroids dets) in *.
  assert (Hsplit : NoDup (pre ++ tid :: post)) by (by rewrite <- Hkeys).
  apply NoDup_app in Hsplit as (Hpre & Hdisj & Hrest).
  apply NoDup_cons in Hrest as [Htid Hpost].
  assert (Htpre : tid ∉ pre) by (intros Hin; apply (Hdisj tid Hin); left).
  destruct (match_loop_spec clock cc Hcc pre (match_start self) tk Hpre Hnd)
    as (r1 & tk1 & seen1 & na1 & ne1 & Hrun1 & Hpre1 & Hall1 & Ha1 & He1 & _ & _
        & _ & Hf1 & Hsl1 & Hk1 & Hg1).
  { intros k Hk. simpl. rewrite Hkeys. apply elem_of_app. by left. }
  pose proof (match_loop_ticks cc pre (match_start self) tk) as Htk1.
  rewrite Hrun1 in Htk1. cbn [snd] in Htk1.
  assert (Hseen1 : forall x, x ∈ seen1 -> x ∈ pre).
  { intros x Hx. destruct Hpre1 as [more ->]. apply elem_of_app. by left. }
  assert (Hna1 : forall j, (tid, j) ∉ na1).
  { intros j Hin. assert (Ht : tid ∈ na1.*1)
      by (apply list_elem_of_fmap; by exists (tid, j)).
    rewrite Hf1 in Ht. apply list_elem_of_filter in Ht as [_ Ht].
    by apply Htpre, Hseen1. }
  assert (Hne1 : tid ∉ ne1).
  { intros Hin. apply Htpre, Hseen1. by apply (sublist_subseteq _ _ Hsl1). }
  assert (Hg1' : dict_get tid (ml_tracks (state_of r1)) = Some tr).
  { rewrite Hg1; [done |]. intros Hin. by apply Htpre, Hseen1. }
  simpl in Ha1, He1.
  unfold matched_before. fold cc.
  rewrite Hkeys, match_loop_app, Hrun1. cbn [fst snd].
  destruct r1 as [st1 | e1 st1]; cbn [fst snd state_of] in *.
  2: { rewrite Ha1, He1. repeat split; [done | done | done |]. by eexists _, _. }
  pose proof (Hall1 st1 eq_refl) as ->. clear Hall1 Hpre1 Hseen1.
  cbn [match_loop]. unfold mbind, clocked_bind, cbind, match_track.
  rewrite Hg1'.
  assert (Hnd1 : NoDup (keys (ml_tracks st1)))
    by (rewrite Hk1; by apply NoDup_filter).
  assert (Hin1 : forall k : Z, k ∈ post -> k ∈ keys (ml_tracks st1)).
  { intros k Hk. rewrite Hk1. apply list_elem_of_filter. split.
    - intros Hin. apply (sublist_subseteq _ _ Hsl1) in Hin.
      apply (Hdisj k Hin). by right.
    - simpl. rewrite Hkeys. apply elem_of_app. right. by right. }
  destruct (nearest (position tr) (ml_matched st1) cc closest_init)
    as [c |] eqn:Hscan; cycle 1.
  { unfold cret. cbn [fst state_of]. rewrite Ha1, He1.
    repeat split; [done | done | done |]. by eexists _, _. }
  destruct (closest_idx c) as [idx |] eqn:Hc.
  - destruct (nearest_sound _ _ _ _ _ _ Hscan Hc)
      as [Hc0 | (Hfree & pos & Hpos & Hd)]; [done |].
    rewrite (elem_dict_get idx pos cc Hcc Hpos).
    unfold time_time, cret. simpl.
    set (st2 := Build_MatchLoop _ _ _ _).
    destruct (match_loop_spec clock cc Hcc post st2 (S tk1) Hpost)
      as (r3 & tk3 & seen3 & na3 & ne3 & Hrun3 & Hpre3 & _ & Ha3 & He3 & _ & _
          & _ & Hf3 & Hsl3 & _ & Hg3).
    { simpl. rewrite keys_dict_set_in; [done |].
      apply dict_get_is_Some. rewrite Hg1'. by eexists. }
    { intros k Hk. simpl. rewrite keys_dict_set_in; [by apply Hin1 |].
      apply dict_get_is_Some. rewrite Hg1'. by eexists. }
    pose proof (match_loop_ticks cc post st2 (S tk1)) as Htk3.
    rewrite Hrun3 in Htk3 |- *. cbn [fst snd] in *. rewrite Ha3, He3. simpl.
    assert (Hseen3 : forall x, x ∈ seen3 -> x ∈ post).
    { intros x Hx. destruct Hpre3 as [more ->]. apply elem_of_app. by left. }
    assert (Hna3 : forall j, (tid, j) ∉ na3).
    { intros j Hin. assert (Ht : tid ∈ na3.*1)
        by (apply list_elem_of_fmap; by exists (tid, j)).
      rewrite Hf3 in Ht. apply list_elem_of_filter in Ht as [_ Ht].
      by apply Htid, Hseen3. }
    assert (Hne3 : tid ∉ ne3).
    { intros Hin. apply Htid, Hseen3. by apply (sublist_subseteq _ _ Hsl3). }
    split.
    { apply elem_of_app. left. rewrite Ha1.
      apply elem_of_app. right. left. }
    split.
    { intros j Hin. rewrite Ha1 in Hin.
      rewrite !elem_of_app in Hin. destruct Hin as [[Hin | Hin] | Hin].
      - by apply Hna1 in Hin.
      - apply list_elem_of_singleton in Hin. by injection Hin.
      - by apply Hna3 in Hin. }
    split.
    { rewrite He1. apply not_elem_of_app. by split. }
    exists pos, tk1. split; [done |]. split; [lia |].
    rewrite Hg3; [simpl; apply dict_get_set_eq |].
    intros Hin. by apply Htid, Hseen3.
  - unfold cret.
    set (st2 := Build_MatchLoop _ _ _ _).
    assert (Hk2 : keys (ml_tracks st2) = filter (fun x => x <> tid) (keys (ml_tracks st1)))
      by (simpl; by apply keys_dict_del).
    destruct (match_loop_spec clock cc Hcc post st2 tk1 Hpost)
      as (r3 & tk3 & seen3 & na3 & ne3 & Hrun3 & Hpre3 & _ & Ha3 & He3 & _ & _
          & _ & Hf3 & Hsl3 & _ & Hg3).
    { rewrite Hk2. by apply NoDup_filter. }
    { intros k Hk. rewrite Hk2. apply list_elem_of_filter. split.
      - intros ->. done.
      - by apply Hin1. }
    rewrite Hrun3. cbn [fst state_of]. rewrite Ha3, He3. simpl.
    assert (Hseen3 : forall x, x ∈ seen3 -> x ∈ post).
    { intros x Hx. destruct Hpre3 as [more ->]. apply elem_of_app. by left. }
    split.
    { apply elem_of_app. left. rewrite He1. apply elem_of_app. right. left. }
    split.
    { intros j Hin. rewrite Ha1 in Hin.
      apply elem_of_app in Hin as [Hin | Hin].
      - by apply Hna1 in Hin.
      - assert (Ht : tid ∈ na3.*1)
          by (apply list_elem_of_fmap; by exists (tid, j)).
        rewrite Hf3 in Ht. apply list_elem_of_filter in Ht as [_ Ht].
        by apply Htid, Hseen3. }
    rewrite Hg3; [simpl; by apply dict_get_del_eq |].
    intros Hin. by apply Htid, Hseen3.
Qed.

(** The loop that opens new tracks, and the [except] clause when the
    matching loop raised, leave the entries of the old ids as the matching
    loop left them. *)
Lemma update_tracks_old_ids self dets tk k :
  tracks_ok self ->
  k <= track_counter self ->
  dict_get k (person_tracks (_update_tracks clock self dets tk).1.1)
  = dict_get k
      (ml_tracks
         (state_of
            (match_loop clock (current_centroids dets)
               (keys (person_tracks self)) (match_start self) tk).1)).
Proof.
  intros [Hnd Hle] Hk.
  pose proof (current_centroids_NoDup dets) as Hcc.
  destruct (match_loop_spec clock (current_centroids dets) Hcc
              (keys (person_tracks self)) (match_start self) tk Hnd Hnd)
    as (r & tk' & seen & na & ne & Hrun & _ & _ & _ & _ & _ & _ & _ & _ & _
        & Hkeys & _);
    [done |].
  unfold _update_tracks, mbind, clocked_bind, cbind.
  fold (match_start self). rewrite Hrun. cbn [fst].
  destruct r as [st' | e st']; cbn [state_of] in *; [| done].
  set (sp0 := Build_SpawnLoop _ _ _).
  destruct (spawn_loop_spec clock (ml_matched st') (current_centroids dets) sp0 tk')
    as (_ & _ & _ & Hg & _).
  { simpl. rewrite Hkeys. apply Forall_forall. intros x Hin.
    apply list_elem_of_filter in Hin as [_ Hin].
    rewrite Forall_forall in Hle. by apply Hle. }
  cbv zeta in Hg.
  destruct (spawn_loop clock (ml_matched st') (current_centroids dets) sp0 tk')
    as [sp tk'']. simpl in *. by apply Hg.
Qed.

Lemma update_person_tracks self dets frame tk :
  enable_counting self = true ->
  person_tracks (update clock float_scale circle_pixels self dets frame tk).1.1
  = person_tracks (_update_tracks clock self dets tk).1.1.
Proof.
  intros Hen. rewrite update_is_traced. cbn [fst].
  by destruct (update_traced_tracks clock float_scale circle_pixels self dets
                 frame tk Hen) as (_ & -> & _).
Qed.

Lemma roots_bound self dets tid tr idx pos :
  roots_defined self dets ->
  dict_get tid (person_tracks self) = Some tr ->
  (idx, pos) ∈ current_centroids dets ->
  dist_sq pos (position tr) < sqrt_limit.
Proof.
  intros Hroots Htr Hin.
  apply current_centroids_elem in Hin as (det & Hdet & ->).
  unfold roots_defined in Hroots. rewrite Forall_forall in Hroots.
  specialize (Hroots tr (dict_get_values _ _ _ Htr)).
  rewrite Forall_forall in Hroots. apply Hroots.
  by apply list_elem_of_lookup_2 in Hdet.
Qed.

(** Where every root is defined the matching loop reaches every turn. *)
Lemma prefix_no_raise self dets tk pre post :
  NoDup (keys (person_tracks self)) ->
  roots_defined self dets ->
  keys (person_tracks self) = pre ++ post ->
  exists st',
    (match_loop clock (current_centroids dets) pre (match_start self) tk).1
    = Normal st'.
Proof.
  intros Hnd Hroots Hkeys.
  apply match_loop_normal; [apply current_centroids_NoDup | |].
  - rewrite Hkeys in Hnd. by apply NoDup_app in Hnd as (? & _ & _).
  - intros k Hk.
    assert (Hin : k ∈ keys (person_tracks self))
      by (rewrite Hkeys; apply elem_of_app; by left).
    apply dict_get_is_Some in Hin as [tr Htr].
    exists tr. split; [done |]. intros idx pos Hin.
    by apply (roots_bound self dets k tr idx pos).
Qed.

End TurnFacts.

(** C2. In a call of [update] that runs the tracker on detections whose
    squared distances to the tracks are below 2^64 (so that [np.sqrt] is
    defined on each of them), a track that existed before the call and for
    which, when its turn comes, every centroid not yet matched lies at
    distance 50 or more, is absent from the dict when the call returns. *)
Theorem unmatched_track_is_deleted (clock : nat -> Q)
    (float_scale : Z -> Z -> Z -> Z)
    (circle_pixels : Z * Z -> Z -> option (Z -> Z -> bool))
    (self : AnalyticsModule.Self) (dets : list Detection) (frame : Frame)
    (tk : nat) (pre post : list Z) (tid : Z) (tr : Track) :
  enable_counting self = true ->
  tracks_ok self ->
  roots_defined self dets ->
  keys (person_tracks self) = pre ++ tid :: post ->
  dict_get tid (person_tracks self) = Some tr ->
  (forall idx pos, (idx, pos) ∈ current_centroids dets ->
     idx ∉ matched_before clock self dets pre tk ->
     50 * 50 <= dist_sq pos (position tr)) ->
  dict_get tid
    (person_tracks
       (update clock float_scale circle_pixels self dets frame tk).1.1)
  = None.
Proof.
  intros Hen Hok Hroots Hkeys Hget Hfar.
  rewrite (update_person_tracks clock float_scale circle_pixels self dets
             frame tk Hen).
  rewrite (update_tracks_old_ids clock self dets tk tid Hok).
  2: { destruct Hok as [_ Hle]. rewrite Forall_forall in Hle. apply Hle.
       rewrite Hkeys. apply elem_of_app. right. left. }
  pose proof (turn_outcome clock self dets tk pre tid post tr
                (proj1 Hok) Hkeys Hget) as Hturn.
  cbv zeta in Hturn.
  destruct (prefix_no_raise clock self dets tk pre (tid :: post)
              (proj1 Hok) Hroots Hkeys) as [st1 Hst1].
  rewrite Hst1 in Hturn.
  assert (Hsome : is_Some (nearest (position tr)
                             (matched_before clock self dets pre tk)
                             (current_centroids dets) closest_init)).
  { apply nearest_defined. intros idx pos Hin _.
    by apply (roots_bound self dets tid tr idx pos). }
  destruct Hsome as [c Hc]. rewrite Hc in Hturn.
  destruct (closest_idx c) as [idx |] eqn:Hidx.
  - exfalso.
    destruct (nearest_sound _ _ _ _ _ _ Hc Hidx)
      as [H0 | (Hfree & pos & Hin & Hlt)]; [done |].
    specialize (Hfar idx pos Hin Hfree). unfold max_dist_sq in Hlt. lia.
  - by destruct Hturn as (_ & _ & ->).
Qed.

Lemma unmatched_track_is_deleted_witness :
  enable_counting Sample.two_tracks = true
  /\ tracks_ok Sample.two_tracks
  /\ roots_defined Sample.two_tracks [Sample.det_c]
  /\ dict_get 2
       (person_tracks
          (update Sample.seconds Sample.scale Sample.disc Sample.two_tracks
             [Sample.det_c] (Sample.frame_of [Sample.det_c]) 0%nat).1.1)
     = None.
Proof.
  assert (Hok : tracks_ok Sample.two_tracks).
  { split; simpl.
    - apply NoDup_cons. split; [| apply NoDup_singleton].
      intros Hin. apply list_elem_of_singleton in Hin. discriminate.
    - repeat constructor; simpl; lia. }
  assert (Hroots : roots_defined Sample.two_tracks [Sample.det_c]).
  { unfold roots_defined.
    repeat (apply Forall_cons; split); try apply Forall_nil_2;
      vm_compute; reflexivity. }
  split; [reflexivity |]. split; [exact Hok |]. split; [exact Hroots |].
  apply (unmatched_track_is_deleted Sample.seconds Sample.scale Sample.disc
           Sample.two_tracks [Sample.det_c] (Sample.frame_of [Sample.det_c])
           0%nat [1] [] 2 (Sample.track_at (500, 500)) eq_refl Hok Hroots
           eq_refl eq_refl).
  intros idx pos Hin _.
  apply current_centroids_elem in Hin as (det & Hl & ->).
  destruct idx as [| idx]; simpl in Hl; [| done].
  injection Hl as <-. vm_compute. discriminate.
Defined.

(** The tracks of a call depend on the detections through their centroids
    only. *)
Lemma update_tracks_centroids (clock : nat -> Q) self dets dets' tk :
  centroid <$> dets = centroid <$> dets' ->
  _update_tracks clock self dets tk = _update_tracks clock self dets' tk.
Proof.
  intros Heq. unfold _update_tracks.
  assert (Hcc : current_centroids dets = current_centroids dets').
  { rewrite !current_centroids_imap.
    transitivity (imap (fun i (p : Z * Z) => (i, p)) (centroid <$> dets)).
    - by rewrite imap_fmap.
    - rewrite Heq. by rewrite imap_fmap. }
  by rewrite Hcc.
Qed.

Section ScenarioFacts.
Variable clock : nat -> Q.
Variable float_scale : Z -> Z -> Z -> Z.
Variable circle_pixels : Z * Z -> Z -> option (Z -> Z -> bool).

Lemma update_keeps_switches self dets frame tk :
  enable_counting
    (update_traced clock float_scale circle_pixels self dets frame tk).1.1.1
  = enable_counting self
  /\ enable_heatmap
       (update_traced clock float_scale circle_pixels self dets frame tk).1.1.1
     = enable_heatmap self
  /\ heatmap_resolution
       (update_traced clock float_scale circle_pixels self dets frame tk).1.1.1
     = heatmap_resolution self.
Proof.
  unfold update_traced, mbind, clocked_bind, cbind.
  set (self1 := with_counts _ _ _).
  set (self2 := if enable_heatmap self1 then _ else self1).
  assert (H2 : enable_counting self2 = enable_counting self
               /\ enable_heatmap self2 = enable_heatmap self
               /\ heatmap_resolution self2 = heatmap_resolution self).
  { subst self2. destruct (enable_heatmap self1) eqn:Hh; [| done].
    unfold _update_heatmap.
    by destruct (shape frame), (heatmap_resolution self1) eqn:Hr. }
  destruct H2 as (H2c & H2h & H2r).
  rewrite <- H2c, <- H2h, <- H2r.
  destruct (enable_counting self2) eqn:Hc.
  - unfold _update_tracks, mbind, clocked_bind, cbind.
    destruct (match_loop _ _ _ _ _) as [[st | e st] tk1].
    + destruct (spawn_loop _ _ _ _ _) as [sp tk2]. unfold cret. simpl.
      destruct (_calculate_avg_dwell_time _ _ _). simpl. by rewrite Hc.
    + unfold cret. simpl.
      destruct (_calculate_avg_dwell_time _ _ _). simpl. by rewrite Hc.
  - unfold cret. simpl.
    destruct (_calculate_avg_dwell_time _ _ _). simpl. by rewrite Hc.
Qed.

Lemma update_active_tracks self dets frame tk :
  active_tracks (update clock float_scale circle_pixels self dets frame tk).1.2
  = len (person_tracks
           (update clock float_scale circle_pixels self dets frame tk).1.1).
Proof.
  unfold update, mbind, clocked_bind, cbind.
  destruct (if enable_counting _ then _ else _) as [[s2 tr2] tk2].
  by destruct (_calculate_avg_dwell_time clock (s2, tr2).1 tk2).
Qed.

End ScenarioFacts.

(** C3. From a new tracker, an update with detections centred at (100,100)
    and (500,500) opens tracks 1 and 2; a following update with one
    detection centred at (105,102) keeps track 1 at the new position with its
    entry time, deletes track 2, reports one active track and opens no
    track. *)
Theorem two_people_then_one (clock : nat -> Q)
    (float_scale : Z -> Z -> Z -> Z)
    (circle_pixels : Z * Z -> Z -> option (Z -> Z -> bool))
    (config : Config) (frame1 frame2 : Frame) (d1 d2 d3 : Detection)
    (tk : nat) :
  analytics_enable_people_counting config = true ->
  centroid d1 = (100, 100) ->
  centroid d2 = (500, 500) ->
  centroid d3 = (105, 102) ->
  let r1 := update clock float_scale circle_pixels (__init__ config)
              [d1; d2] frame1 tk in
  let r2 := update_traced clock float_scale circle_pixels r1.1.1
              [d3] frame2 r1.2 in
  person_tracks r1.1.1
  = [(1, {| position := (100, 100);
            entry_time := clock tk;
            last_seen := clock (S tk) |});
     (2, {| position := (500, 500);
            entry_time := clock (S (S tk));
            last_seen := clock (S (S (S tk))) |})]
  /\ active_tracks r1.1.2 = 2
  /\ person_tracks r2.1.1.1
     = [(1, {| position := (105, 102);
               entry_time := clock tk;
               last_seen := clock r1.2 |})]
  /\ active_tracks r2.1.1.2 = 1
  /\ assigned r2.1.2 = [(1, 0%nat)]
  /\ evicted r2.1.2 = [2]
  /\ created r2.1.2 = []
  /\ track_counter r2.1.1.1 = 2.
Proof.
  intros Hen H1 H2 H3. cbv zeta.
  set (r1 := update clock float_scale circle_pixels (__init__ config)
               [d1; d2] frame1 tk).
  assert (Hr1 : r1 = ((update_traced clock float_scale circle_pixels
                         (__init__ config) [d1; d2] frame1 tk).1.1,
                      (update_traced clock float_scale circle_pixels
                         (__init__ config) [d1; d2] frame1 tk).2))
    by apply update_is_traced.
  destruct (update_traced_tracks clock float_scale circle_pixels
              (__init__ config) [d1; d2] frame1 tk Hen) as (_ & Hp1 & Hc1).
  destruct (update_keeps_switches clock float_scale circle_pixels
              (__init__ config) [d1; d2] frame1 tk) as (He1 & _ & _).
  cbv zeta in Hp1, Hc1.
  rewrite (update_tracks_centroids clock (__init__ config) [d1; d2]
             [Sample.det_a; Sample.det_b] tk) in Hp1, Hc1
    by (simpl; by rewrite H1, H2).
  assert (Hs1 : r1.1.1 = (update_traced clock float_scale circle_pixels
                            (__init__ config) [d1; d2] frame1 tk).1.1.1)
    by (by rewrite Hr1).
  rewrite <- Hs1 in Hp1, Hc1, He1.
  assert (Ht1 : person_tracks r1.1.1
                = [(1, {| position := (100, 100);
                          entry_time := clock tk;
                          last_seen := clock (S tk) |});
                   (2, {| position := (500, 500);
                          entry_time := clock (S (S tk));
                          last_seen := clock (S (S (S tk))) |})])
    by (rewrite Hp1; reflexivity).
  assert (Hn1 : track_counter r1.1.1 = 2) by (rewrite Hc1; reflexivity).
  split; [exact Ht1 |].
  split; [unfold r1; rewrite update_active_tracks; fold r1; by rewrite Ht1 |].
  assert (Hen2 : enable_counting r1.1.1 = true) by (rewrite He1; exact Hen).
  destruct (update_traced_tracks clock float_scale circle_pixels
              r1.1.1 [d3] frame2 r1.2 Hen2) as (Htr2 & Hp2 & Hc2).
  cbv zeta in Htr2, Hp2, Hc2.
  set (known := with_tracks (__init__ config)
                  [(1, {| position := (100, 100);
                          entry_time := clock tk;
                          last_seen := clock (S tk) |});
                   (2, {| position := (500, 500);
                          entry_time := clock (S (S tk));
                          last_seen := clock (S (S (S tk))) |})] 2).
  destruct (update_tracks_reads clock known r1.1.1 [d3] r1.2)
    as (Hq & Hqp & Hqc & _); [by rewrite Ht1 | by rewrite Hn1 |].
  rewrite (update_tracks_centroids clock known [d3] [Sample.det_c] r1.2)
    in Hq, Hqp, Hqc by (simpl; by rewrite H3).
  rewrite Hq in Htr2. rewrite Hqp in Hp2. rewrite Hqc in Hc2.
  generalize dependent (r1.2). intros t2 Htr2 Hp2 Hc2.
  split; [rewrite Hp2; reflexivity |].
  split.
  { pose proof (update_is_traced clock float_scale circle_pixels r1.1.1
                  [d3] frame2 t2) as Hu.
    pose proof (update_active_tracks clock float_scale circle_pixels r1.1.1
                  [d3] frame2 t2) as Ha.
    rewrite Hu in Ha. cbn [fst snd] in Ha. rewrite Ha, Hp2. reflexivity. }
  rewrite Htr2, Hc2. repeat split; reflexivity.
Qed.

Lemma two_people_then_one_witness :
  analytics_enable_people_counting Sample.config = true
  /\ centroid Sample.det_a = (100, 100)
  /\ centroid Sample.det_b = (500, 500)
  /\ centroid Sample.det_c = (105, 102)
  /\ person_tracks
       (update Sample.seconds Sample.scale Sample.disc
          (__init__ Sample.config) [Sample.det_a; Sample.det_b]
          (Sample.frame_of []) 0%nat).1.1
     = [(1, {| position := (100, 100);
               entry_time := Sample.seconds 0;
               last_seen := Sample.seconds 1 |});
        (2, {| position := (500, 500);
               entry_time := Sample.seconds 2;
               last_seen := Sample.seconds 3 |})].
Proof.
  repeat (split; [reflexivity |]).
  exact (proj1 (two_people_then_one Sample.seconds Sample.scale Sample.disc
                  Sample.config (Sample.frame_of []) (Sample.frame_of [])
                  Sample.det_a Sample.det_b Sample.det_c 0%nat
                  eq_refl eq_refl eq_refl eq_refl)).
Defined.

(** ** Dwell time *)

(** C4. The figure [_calculate_avg_dwell_time] reports at a clock reading
    [now] is the arithmetic mean of (now - entry time) over the tracks in the
    dict, all of them and nothing else: it equals the spec's formula, times
    the number of tracks it is the sum of the dwell times, and with no track
    it is 0. *)
Theorem avg_dwell_is_mean (clock : nat -> Q) (self : AnalyticsModule.Self)
    (tk : nat) :
  let now := clock tk in
  let active := values (person_tracks self) in
  let avg := (_calculate_avg_dwell_time clock self tk).1 in
  (avg == spec_avg_dwell now active)%Q
  /\ (avg * inject_Z (len active)
      == Qsum (map (fun t => now - entry_time t) active))%Q
  /\ (active = [] -> avg = 0%Q).
Proof.
  cbv zeta. unfold _calculate_avg_dwell_time, spec_avg_dwell.
  destruct (person_tracks self) as [| [k t] rest] eqn:Htracks.
  - simpl. repeat split; try reflexivity.
  - unfold mbind, clocked_bind, cbind, time_time, cret. cbn [fst snd].
    unfold values. rewrite !fmap_cons. cbn [snd map].
    unfold np_mean, len. cbn [length].
    rewrite length_map.
    split; [reflexivity |]. split; [| discriminate].
    apply Qdiv_mult_l.
    intros Hz. unfold Qeq in Hz. simpl in Hz. lia.
Qed.

(** [update] reports the figure computed on the object it leaves behind. *)
Lemma update_reports_avg_dwell (clock : nat -> Q)
    (float_scale : Z -> Z -> Z -> Z)
    (circle_pixels : Z * Z -> Z -> option (Z -> Z -> bool))
    (self : AnalyticsModule.Self) (dets : list Detection) (frame : Frame)
    (tk : nat) :
  exists tk',
    average_dwell_time
      (update clock float_scale circle_pixels self dets frame tk).1.2
    = (_calculate_avg_dwell_time clock
         (update clock float_scale circle_pixels self dets frame tk).1.1 tk').1.
Proof.
  unfold update, mbind, clocked_bind, cbind.
  destruct (if enable_counting _ then _ else _) as [[s2 tr2] tk2].
  exists tk2. cbn [fst].
  destruct (_calculate_avg_dwell_time clock s2 tk2) as [q n] eqn:E.
  unfold cret. simpl. by rewrite E.
Qed.

(** ** The heatmap *)

Section HeatmapFacts.
Variable float_scale : Z -> Z -> Z -> Z.
Variable circle_pixels : Z * Z -> Z -> option (Z -> Z -> bool).

(** A deposit writes the colour over the covered cells and leaves the
    others as they were, whatever they held. *)
Lemma cv2_circle_overwrites rows cols img center radius color img' :
  cv2_circle circle_pixels rows cols img center radius color = Some img' ->
  exists covered : Z -> Z -> bool,
    forall r c, img' r c = if covered r c then color else img r c.
Proof.
  unfold cv2_circle. destruct (circle_pixels center radius) as [covers |]; [| done].
  intros [= <-]. by exists (fun r c => in_shape rows cols r c && covers c r).
Qed.

(** Which cells a run of the loop sets to 1 does not depend on what the
    array held. *)
Lemma heatmap_loop_painted frame_h frame_w map_h map_w dets :
  exists painted : Z -> Z -> bool,
    forall hm r c,
      state_of (heatmap_loop float_scale circle_pixels frame_h frame_w
                  map_h map_w dets hm) r c
      = if painted r c then 1%Q else hm r c.
Proof.
  induction dets as [| det rest [painted IH]].
  - by exists (fun _ _ => false).
  - cbn [heatmap_loop]. case_decide as Hw; [by exists (fun _ _ => false) |].
    case_decide as Hh; [by exists (fun _ _ => false) |].
    unfold cv2_circle.
    destruct (circle_pixels _ 10) as [covers |]; [| by exists (fun _ _ => false)].
    exists (fun r c => painted r c || (in_shape map_h map_w r c && covers c r)).
    intros hm r c. rewrite IH.
    destruct (painted r c); [done |]. simpl.
    by destruct (in_shape map_h map_w r c && covers c r).
Qed.

Lemma update_heatmap_painted self dets frame :
  exists painted : Z -> Z -> bool,
    forall r c,
      heatmap (_update_heatmap float_scale circle_pixels self dets frame) r c
      = if painted r c then 1%Q else heatmap self r c.
Proof.
  unfold _update_heatmap.
  destruct (shape frame) as [fh fw], (heatmap_resolution self) as [mh mw].
  destruct (heatmap_loop_painted fh fw mh mw dets) as [painted Hp].
  exists painted. intros r c. simpl. apply Hp.
Qed.

Lemma update_heatmap_binary self dets frame :
  binary_cells (heatmap self) ->
  binary_cells (heatmap (_update_heatmap float_scale circle_pixels self dets frame)).
Proof.
  intros Hb r c. destruct (update_heatmap_painted self dets frame) as [p Hp].
  rewrite Hp. destruct (p r c); [by right | apply Hb].
Qed.

Lemma update_heatmap_grows self dets frame r c :
  binary_cells (heatmap self) ->
  (heatmap self r c
   <= heatmap (_update_heatmap float_scale circle_pixels self dets frame) r c)%Q.
Proof.
  intros Hb. destruct (update_heatmap_painted self dets frame) as [p Hp].
  rewrite Hp. destruct (p r c); [| apply Qle_refl].
  destruct (Hb r c) as [-> | ->]; done.
Qed.

(** On a frame with rows and columns, where the library draws every
    disc, the cells of the deposits hold 1 and the others are as they
    were. *)
Lemma update_heatmap_deposits self dets frame cells r c :
  (shape frame).1 <> 0 -> (shape frame).2 <> 0 ->
  Forall2 (fun det cs =>
             deposit_cells float_scale circle_pixels (heatmap_resolution self)
               frame det = Some cs) dets cells ->
  heatmap (_update_heatmap float_scale circle_pixels self dets frame) r c
  = if existsb (fun cs : Z -> Z -> bool => cs r c) cells then 1%Q
    else heatmap self r c.
Proof.
  intros Hh Hw Hall. unfold _update_heatmap, deposit_cells in *.
  destruct (shape frame) as [fh fw], (heatmap_resolution self) as [mh mw].
  cbn [fst snd heatmap with_heatmap] in *.
  generalize (heatmap self). induction Hall as [| det cs dets cells Hdet _ IH];
    intros hm; [done |].
  cbn [heatmap_loop existsb]. rewrite !decide_False by done.
  unfold cv2_circle.
  destruct (circle_pixels _ 10) as [covers |]; [| done].
  injection Hdet as <-. rewrite IH.
  destruct (existsb _ cells); [by rewrite orb_true_r |].
  by rewrite orb_false_r.
Qed.

(** The same detections on the same frame a second time change nothing. *)
Lemma update_heatmap_idempotent self dets frame r c :
  heatmap (_update_heatmap float_scale circle_pixels
             (_update_heatmap float_scale circle_pixels self dets frame)
             dets frame) r c
  = heatmap (_update_heatmap float_scale circle_pixels self dets frame) r c.
Proof.
  unfold _update_heatmap.
  destruct (shape frame) as [fh fw], (heatmap_resolution self) as [mh mw] eqn:Hres.
  simpl. rewrite Hres.
  destruct (heatmap_loop_painted fh fw mh mw dets) as [painted Hp].
  simpl. rewrite !Hp. by destruct (painted r c).
Qed.

End HeatmapFacts.

(** ** Runs of calls on one object *)

Section RunFacts.
Variable clock : nat -> Q.
Variable float_scale : Z -> Z -> Z -> Z.
Variable circle_pixels : Z * Z -> Z -> option (Z -> Z -> bool).

Lemma update_tracks_heatmap self dets tk :
  heatmap (_update_tracks clock self dets tk).1.1 = heatmap self.
Proof.
  unfold _update_tracks, mbind, clocked_bind, cbind.
  destruct (match_loop _ _ _ _ _) as [[st | e st] tk1]; [| done].
  by destruct (spawn_loop _ _ _ _ _).
Qed.

Lemma update_traced_heatmap self dets frame tk :
  exists painted : Z -> Z -> bool,
    forall r c,
      heatmap (update_traced clock float_scale circle_pixels self dets frame tk).1.1.1 r c
      = if painted r c then 1%Q else heatmap self r c.
Proof.
  unfold update_traced, mbind, clocked_bind, cbind.
  set (self1 := with_counts _ _ _).
  set (self2 := if enable_heatmap self1 then _ else self1).
  assert (H2 : exists painted : Z -> Z -> bool,
             forall r c, heatmap self2 r c
                         = if painted r c then 1%Q else heatmap self r c).
  { subst self2. destruct (enable_heatmap self1).
    - apply (update_heatmap_painted float_scale circle_pixels self1 dets frame).
    - by exists (fun _ _ => false). }
  destruct H2 as [painted Hp]. exists painted. intros r c. rewrite <- Hp.
  destruct (enable_counting self2).
  - pose proof (update_tracks_heatmap self2 dets tk) as Hh.
    destruct (_update_tracks clock self2 dets tk) as [[s3 tr3] tk3].
    cbn [fst snd] in *.
    destruct (_calculate_avg_dwell_time clock s3 tk3). unfold cret. simpl.
    by rewrite Hh.
  - unfold cret. cbn [fst snd].
    by destruct (_calculate_avg_dwell_time clock self2 tk).
Qed.

Lemma update_traced_disabled self dets frame tk :
  enable_counting self = false ->
  let r := (update_traced clock float_scale circle_pixels self dets frame tk).1 in
  created r.2 = []
  /\ person_tracks r.1.1 = person_tracks self
  /\ track_counter r.1.1 = track_counter self.
Proof.
  intros Hen. cbv zeta. unfold update_traced, mbind, clocked_bind, cbind.
  set (self1 := with_counts _ _ _).
  set (self2 := if enable_heatmap self1 then _ else self1).
  assert (H2 : person_tracks self2 = person_tracks self
               /\ track_counter self2 = track_counter self
               /\ enable_counting self2 = false).
  { subst self2. destruct (enable_heatmap self1).
    - destruct (update_heatmap_keeps float_scale circle_pixels self1 dets frame)
        as (-> & -> & ->). done.
    - done. }
  destruct H2 as (Ht & Hc & ->). unfold cret. cbn [fst snd].
  by destruct (_calculate_avg_dwell_time clock self2 tk).
Qed.

Lemma run_invariant (I : Session -> Prop) :
  (forall s op tk, I s -> I (step clock float_scale circle_pixels s op tk).1) ->
  forall ops s tk,
    I s -> I (run clock float_scale circle_pixels ops s tk).1.
Proof.
  intros Hstep ops. induction ops as [| op ops IH]; intros s tk Hs; [done |].
  cbn [run]. unfold mbind, clocked_bind, cbind.
  pose proof (Hstep s op tk Hs) as H1.
  destruct (step clock float_scale circle_pixels s op tk) as [s1 tk1].
  by apply IH.
Qed.

Lemma step_ids_in_step s op tk :
  ids_in_step s -> ids_in_step (step clock float_scale circle_pixels s op tk).1.
Proof.
  intros (Hok & Hpos & Hep). unfold ids_in_step.
  destruct op as [dets frame | | |]; cbn [step].
  - unfold mbind, clocked_bind, cbind.
    destruct (enable_counting (obj s)) eqn:Hen.
    + destruct (update_traced_tracks clock float_scale circle_pixels (obj s)
                  dets frame tk Hen) as (Htr & Hp & Hc).
      pose proof (update_tracks_ok clock (obj s) dets tk Hok) as Hok'.
      destruct (update_tracks_ids clock (obj s) dets tk Hok)
        as (n & Hn & Hcr & Hcnt & _).
      cbv zeta in *.
      destruct (update_traced clock float_scale circle_pixels (obj s) dets frame tk)
        as [[[s1 res] tr] tk1].
      cbn [fst snd] in *. unfold cret. cbn [fst snd obj issued_epoch].
      split; [| split].
      * destruct Hok' as [Hnd Hle]. split; [by rewrite Hp |].
        by rewrite Hp, Hc.
      * rewrite Hc, Hcnt. lia.
      * rewrite Htr, Hcr. rewrite Hep, Hc, Hcnt.
        replace (track_counter (obj s) + 1) with (1 + track_counter (obj s)) by lia.
        symmetry. apply seqZ_app; [done | lia].
    + destruct (update_traced_disabled (obj s) dets frame tk Hen) as (Hcr & Hp & Hc).
      cbv zeta in *.
      destruct (update_traced clock float_scale circle_pixels (obj s) dets frame tk)
        as [[[s1 res] tr] tk1].
      cbn [fst snd] in *. unfold cret. cbn [fst snd obj issued_epoch].
      rewrite Hcr. cbn [fmap list_fmap]. rewrite app_nil_r.
      split; [| split]; [| lia | by rewrite Hc].
      destruct Hok as [Hnd Hle]. split; [by rewrite Hp | by rewrite Hp, Hc].
  - unfold mbind, clocked_bind, cbind.
    by destruct (get_statistics clock (obj s) tk).
  - done.
  - unfold cret. cbn [fst obj issued_epoch reset_statistics person_tracks track_counter].
    split; [| done]. split; [apply NoDup_nil_2 | apply Forall_nil_2].
Qed.

Lemma step_binary s op tk :
  binary_cells (heatmap (obj s)) ->
  binary_cells (heatmap (obj (step clock float_scale circle_pixels s op tk).1)).
Proof.
  intros Hb. destruct op as [dets frame | | |]; cbn [step].
  - unfold mbind, clocked_bind, cbind.
    destruct (update_traced_heatmap (obj s) dets frame tk) as [painted Hp].
    destruct (update_traced clock float_scale circle_pixels (obj s) dets frame tk)
      as [[[s1 res] tr] tk1].
    cbn [fst snd] in *. unfold cret. cbn [fst obj].
    intros r c. rewrite Hp. destruct (painted r c); [by right | apply Hb].
  - unfold mbind, clocked_bind, cbind.
    by destruct (get_statistics clock (obj s) tk).
  - intros r c. by left.
  - done.
Qed.

Lemma step_heatmap_grows s op tk r c :
  op <> OpResetHeatmap ->
  binary_cells (heatmap (obj s)) ->
  (heatmap (obj s) r c
   <= heatmap (obj (step clock float_scale circle_pixels s op tk).1) r c)%Q.
Proof.
  intros Hop Hb. destruct op as [dets frame | | |]; cbn [step].
  - unfold mbind, clocked_bind, cbind.
    destruct (update_traced_heatmap (obj s) dets frame tk) as [painted Hp].
    destruct (update_traced clock float_scale circle_pixels (obj s) dets frame tk)
      as [[[s1 res] tr] tk1].
    cbn [fst snd] in *. unfold cret. cbn [fst obj].
    rewrite Hp. destruct (painted r c); [| apply Qle_refl].
    destruct (Hb r c) as [-> | ->]; done.
  - unfold mbind, clocked_bind, cbind.
    destruct (get_statistics clock (obj s) tk). apply Qle_refl.
  - done.
  - apply Qle_refl.
Qed.

Lemma run_heatmap_grows ops : forall s tk r c,
  Forall (fun op => op <> OpResetHeatmap) ops ->
  binary_cells (heatmap (obj s)) ->
  (heatmap (obj s) r c
   <= heatmap (obj (run clock float_scale circle_pixels ops s tk).1) r c)%Q.
Proof.
  induction ops as [| op ops IH]; intros s tk r c Hops Hb.
  - apply Qle_refl.
  - apply Forall_cons in Hops as [Hop Hops].
    cbn [run]. unfold mbind, clocked_bind, cbind.
    pose proof (step_heatmap_grows s op tk r c Hop Hb) as H1.
    pose proof (step_binary s op tk Hb) as Hb1.
    destruct (step clock float_scale circle_pixels s op tk) as [s1 tk1].
    eapply Qle_trans; [exact H1 |]. by apply IH.
Qed.

End RunFacts.

(** ** Track identifiers *)

(** Every object reached from a new one by calls of the class has a dict
    with distinct keys, all handed out by the counter. *)
Lemma reachable_tracks_ok (clock : nat -> Q) (float_scale : Z -> Z -> Z -> Z)
    (circle_pixels : Z * Z -> Z -> option (Z -> Z -> bool))
    (config : Config) (ops : list Op) (tk : nat) :
  tracks_ok (obj (run clock float_scale circle_pixels ops (fresh config) tk).1).
Proof.
  apply (run_invariant clock float_scale circle_pixels ids_in_step
           (step_ids_in_step clock float_scale circle_pixels)
           ops (fresh config) tk).
  split; [| done]. split; [apply NoDup_nil_2 | apply Forall_nil_2].
Qed.

Lemma seqZ_strictly_increasing (m n : Z) : strictly_increasing (seqZ m n).
Proof.
  intros i j a b Hij Ha Hb.
  apply lookup_seqZ in Ha as [-> _]. apply lookup_seqZ in Hb as [-> _]. lia.
Qed.

Lemma step_epoch_suffix (clock : nat -> Q) (float_scale : Z -> Z -> Z -> Z)
    (circle_pixels : Z * Z -> Z -> option (Z -> Z -> bool)) s op tk :
  issued_epoch s `suffix_of` issued s ->
  issued_epoch (step clock float_scale circle_pixels s op tk).1
    `suffix_of` issued (step clock float_scale circle_pixels s op tk).1.
Proof.
  intros Hs. destruct op as [dets frame | | |]; cbn [step].
  - unfold mbind, clocked_bind, cbind.
    destruct (update_traced _ _ _ _ _ _ _) as [[[s1 res] tr] tk1].
    unfold cret. cbn [fst snd issued issued_epoch].
    destruct Hs as [older ->]. exists older. by rewrite app_assoc.
  - unfold mbind, clocked_bind, cbind.
    by destruct (get_statistics clock (obj s) tk).
  - done.
  - unfold cret. cbn [fst issued issued_epoch]. apply suffix_nil.
Qed.

(** C5, as the code has it. On any run of calls from a new object, the ids
    handed out since the most recent [reset_statistics] (or since
    construction) are 1, 2, ... up to the counter, so every new track gets an
    id above all ids of that period; they are the tail of all ids ever handed
    out; and [reset_statistics] empties the dict and sets the counter back
    to 0. *)
Theorem ids_grow_between_resets (clock : nat -> Q)
    (float_scale : Z -> Z -> Z -> Z)
    (circle_pixels : Z * Z -> Z -> option (Z -> Z -> bool))
    (config : Config) (ops : list Op) (tk : nat) :
  let s := (run clock float_scale circle_pixels ops (fresh config) tk).1 in
  strictly_increasing (issued_epoch s)
  /\ issued_epoch s = seqZ 1 (track_counter (obj s))
  /\ issued_epoch s `suffix_of` issued s
  /\ Forall (fun k => k <= track_counter (obj s)) (keys (person_tracks (obj s)))
  /\ person_tracks (reset_statistics (obj s)) = []
  /\ track_counter (reset_statistics (obj s)) = 0.
Proof.
  cbv zeta.
  pose proof (run_invariant clock float_scale circle_pixels ids_in_step
                (step_ids_in_step clock float_scale circle_pixels)
                ops (fresh config) tk) as Hinv.
  destruct Hinv as ((_ & Hle) & _ & Hep).
  { split; [| done]. split; [apply NoDup_nil_2 | apply Forall_nil_2]. }
  pose proof (run_invariant clock float_scale circle_pixels
                (fun s => issued_epoch s `suffix_of` issued s)
                (step_epoch_suffix clock float_scale circle_pixels)
                ops (fresh config) tk) as Hsuf.
  split; [rewrite Hep; apply seqZ_strictly_increasing |].
  split; [done |]. split; [by apply Hsuf |]. by split.
Qed.

Lemma ids_reused_after_reset :
  ~ ids_never_reused Sample.seconds Sample.scale Sample.disc Sample.config
      [OpUpdate [Sample.det_a] (Sample.frame_of [Sample.det_a]);
       OpResetStatistics;
       OpUpdate [Sample.det_a] (Sample.frame_of [Sample.det_a])] 0%nat.
Proof.
  unfold ids_never_reused. intros Hinc.
  assert (Hissued :
    issued
      (run Sample.seconds Sample.scale Sample.disc
         [OpUpdate [Sample.det_a] (Sample.frame_of [Sample.det_a]);
          OpResetStatistics;
          OpUpdate [Sample.det_a] (Sample.frame_of [Sample.det_a])]
         (fresh Sample.config) 0%nat).1 = [1; 1]) by (vm_compute; reflexivity).
  rewrite Hissued in Hinc.
  specialize (Hinc 0%nat 1%nat 1 1). cbn in Hinc.
  assert (1 < 1); [apply Hinc; (lia || reflexivity) | lia].
Qed.

(** ** Heatmap values *)

(** C8. On any run of calls from a new object every cell of the heatmap is
    non-negative; over any further calls among which there is no
    [reset_heatmap] no cell decreases; and right after [reset_heatmap] every
    cell is 0. *)
Theorem heatmap_grows_between_resets (clock : nat -> Q)
    (float_scale : Z -> Z -> Z -> Z)
    (circle_pixels : Z * Z -> Z -> option (Z -> Z -> bool))
    (config : Config) (ops1 ops2 : list Op) (tk : nat) :
  Forall (fun op => op <> OpResetHeatmap) ops2 ->
  let s1 := run clock float_scale circle_pixels ops1 (fresh config) tk in
  let s2 := run clock float_scale circle_pixels ops2 s1.1 s1.2 in
  (forall r c, (0 <= heatmap (obj s1.1) r c)%Q)
  /\ (forall r c, (heatmap (obj s1.1) r c <= heatmap (obj s2.1) r c)%Q)
  /\ (forall r c,
        heatmap
          (obj (step clock float_scale circle_pixels s1.1 OpResetHeatmap s1.2).1)
          r c = 0%Q).
Proof.
  intros Hops. cbv zeta.
  pose proof (run_invariant clock float_scale circle_pixels
                (fun s => binary_cells (heatmap (obj s)))
                (step_binary clock float_scale circle_pixels)
                ops1 (fresh config) tk) as Hb.
  assert (Hb1 : binary_cells
                  (heatmap (obj (run clock float_scale circle_pixels ops1
                                   (fresh config) tk).1)))
    by (apply Hb; intros r c; by left).
  split; [| split].
  - intros r c. destruct (Hb1 r c) as [-> | ->]; done.
  - intros r c. by apply run_heatmap_grows.
  - done.
Qed.

Lemma heatmap_grows_between_resets_witness :
  Forall (fun op => op <> OpResetHeatmap)
    [OpUpdate [Sample.det_b] (Sample.frame_of []); OpResetStatistics]
  /\ (forall r c,
        (heatmap
           (obj (run Sample.seconds Sample.scale Sample.disc
                   [OpUpdate [Sample.det_a] (Sample.frame_of [])]
                   (fresh Sample.config) 0%nat).1) r c
         <= heatmap
              (obj (run Sample.seconds Sample.scale Sample.disc
                      [OpUpdate [Sample.det_b] (Sample.frame_of []);
                       OpResetStatistics]
                      (run Sample.seconds Sample.scale Sample.disc
                         [OpUpdate [Sample.det_a] (Sample.frame_of [])]
                         (fresh Sample.config) 0%nat).1
                      (run Sample.seconds Sample.scale Sample.disc
                         [OpUpdate [Sample.det_a] (Sample.frame_of [])]
                         (fresh Sample.config) 0%nat).2).1) r c)%Q).
Proof.
  assert (Hops : Forall (fun op => op <> OpResetHeatmap)
                   [OpUpdate [Sample.det_b] (Sample.frame_of []);
                    OpResetStatistics])
    by (repeat constructor; discriminate).
  split; [exact Hops |].
  exact (proj1 (proj2 (heatmap_grows_between_resets Sample.seconds
                         Sample.scale Sample.disc Sample.config
                         [OpUpdate [Sample.det_a] (Sample.frame_of [])]
                         [OpUpdate [Sample.det_b] (Sample.frame_of []);
                          OpResetStatistics] 0%nat Hops))).
Defined.

(** C10. On any run of calls from a new object every cell of the heatmap
    holds 0 or 1.  A deposit overwrites: on a frame with rows and columns,
    where the library draws every disc, each cell inside the map and in the
    disc of radius 10 around the scaled centre of one of the detections holds
    1 afterwards, whatever it held, and every other cell is as it was.  In
    any case a deposit leaves each cell at 1 or as it was, and the same
    detections on the same frame a second time change no cell. *)
Theorem heatmap_cells_are_binary (clock : nat -> Q)
    (float_scale : Z -> Z -> Z -> Z)
    (circle_pixels : Z * Z -> Z -> option (Z -> Z -> bool))
    (config : Config) (ops : list Op) (tk : nat) :
  let s := (run clock float_scale circle_pixels ops (fresh config) tk).1 in
  binary_cells (heatmap (obj s))
  /\ (forall (self : AnalyticsModule.Self) dets frame cells r c,
        (shape frame).1 <> 0 -> (shape frame).2 <> 0 ->
        Forall2 (fun det cs =>
                   deposit_cells float_scale circle_pixels
                     (heatmap_resolution self) frame det = Some cs)
          dets cells ->
        heatmap (_update_heatmap float_scale circle_pixels self dets frame) r c
        = if existsb (fun cs : Z -> Z -> bool => cs r c) cells then 1%Q
          else heatmap self r c)
  /\ (forall (self : AnalyticsModule.Self) dets frame r c,
        heatmap (_update_heatmap float_scale circle_pixels self dets frame) r c
        = 1%Q
        \/ heatmap (_update_heatmap float_scale circle_pixels self dets frame) r c
           = heatmap self r c)
  /\ (forall (self : AnalyticsModule.Self) dets frame r c,
        heatmap
          (_update_heatmap float_scale circle_pixels
             (_update_heatmap float_scale circle_pixels self dets frame)
             dets frame) r c
        = heatmap (_update_heatmap float_scale circle_pixels self dets frame)
            r c).
Proof.
  cbv zeta. split; [| split; [| split]].
  - apply (run_invariant clock float_scale circle_pixels
             (fun s => binary_cells (heatmap (obj s)))
             (step_binary clock float_scale circle_pixels)).
    intros r c. by left.
  - intros self dets frame cells r c. apply update_heatmap_deposits.
  - intros self dets frame r c.
    destruct (update_heatmap_painted float_scale circle_pixels self dets frame)
      as [painted Hp].
    rewrite Hp. destruct (painted r c); [by left | by right].
  - intros self dets frame r c. apply update_heatmap_idempotent.
Qed.

(** A deposit on the sample frame: the box centred at (100, 100) lands at
    column 25 and row 59 of the map; that cell and the cells up to 10 away
    hold 1, the next one holds 0. *)
Example deposit_paints_disc_sample :
  let hm := heatmap
              (update Sample.seconds Sample.scale Sample.disc
                 (__init__ Sample.config) [Sample.det_a]
                 (Sample.frame_of [Sample.det_a]) 0%nat).1.1 in
  hm 59 25 = 1%Q /\ hm 59 35 = 1%Q /\ hm 69 25 = 1%Q
  /\ hm 59 36 = 0%Q /\ hm 70 25 = 0%Q /\ hm 0 0 = 0%Q.
Proof. cbv zeta. repeat split; vm_compute; reflexivity. Qed.

(** ** Occupancy statistics *)

Section CountFacts.
Variable clock : nat -> Q.
Variable float_scale : Z -> Z -> Z -> Z.
Variable circle_pixels : Z * Z -> Z -> option (Z -> Z -> bool).

Lemma update_tracks_counts self dets tk :
  frame_count (_update_tracks clock self dets tk).1.1 = frame_count self
  /\ people_count_history (_update_tracks clock self dets tk).1.1
     = people_count_history self.
Proof.
  unfold _update_tracks, mbind, clocked_bind, cbind.
  destruct (match_loop _ _ _ _ _) as [[st | e st] tk1]; [| done].
  by destruct (spawn_loop _ _ _ _ _).
Qed.

Lemma update_counts self dets frame tk :
  frame_count (update clock float_scale circle_pixels self dets frame tk).1.1
  = frame_count self + 1
  /\ people_count_history
       (update clock float_scale circle_pixels self dets frame tk).1.1
     = <[(frame_count self + 1) `div` 30 := len dets]>
         (people_count_history self).
Proof.
  unfold update, mbind, clocked_bind, cbind.
  set (self1 := with_counts _ _ _).
  set (self2 := if enable_heatmap self1 then _ else self1).
  assert (H2 : frame_count self2 = frame_count self + 1
               /\ people_count_history self2
                  = <[(frame_count self + 1) `div` 30 := len dets]>
                      (people_count_history self)).
  { subst self2. destruct (enable_heatmap self1); [| done].
    unfold _update_heatmap.
    by destruct (shape frame), (heatmap_resolution self1). }
  destruct H2 as [<- <-].
  destruct (enable_counting self2).
  - pose proof (update_tracks_counts self2 dets tk) as [Hf Hh].
    destruct (_update_tracks clock self2 dets tk) as [[s3 tr3] tk3].
    cbn [fst snd] in *.
    destruct (_calculate_avg_dwell_time clock s3 tk3). by unfold cret.
  - unfold cret. cbn [fst snd].
    by destruct (_calculate_avg_dwell_time clock self2 tk).
Qed.

End CountFacts.

(** What the code does with the counts: [update] stores the person count
    of the call in the bin numbered by the frame counter divided by 30,
    replacing what the bin held; no clock reading enters.  [get_statistics]
    reports the mean and the maximum of the values of the bins (0 when there
    is none). *)
Theorem counts_binned_by_frame_number (clock : nat -> Q)
    (float_scale : Z -> Z -> Z -> Z)
    (circle_pixels : Z * Z -> Z -> option (Z -> Z -> bool))
    (self : AnalyticsModule.Self) (dets : list Detection) (frame : Frame)
    (tk : nat) :
  let self' := (update clock float_scale circle_pixels self dets frame tk).1.1 in
  let bins := history_values (people_count_history self) in
  frame_count self' = frame_count self + 1
  /\ people_count_history self'
     = <[frame_count self' `div` 30 := len dets]> (people_count_history self)
  /\ (forall other_clock tk',
        people_count_history
          (update other_clock float_scale circle_pixels self dets frame tk').1.1
        = people_count_history self')
  /\ (average_people_count (get_statistics clock self tk).1
      * inject_Z (len bins)
      == inject_Z (foldr Z.add 0%Z bins))%Q
  /\ peak_people_count (get_statistics clock self tk).1 = Zmax_list bins.
Proof.
  cbv zeta.
  destruct (update_counts clock float_scale circle_pixels self dets frame tk)
    as [Hf Hh].
  split; [done |]. split; [by rewrite Hf |].
  split.
  { intros other tk'.
    destruct (update_counts other float_scale circle_pixels self dets frame tk')
      as [_ Hh']. by rewrite Hh, Hh'. }
  unfold get_statistics, mbind, clocked_bind, cbind.
  destruct (_calculate_avg_dwell_time clock self tk) as [dwell tk1].
  unfold cret. cbn [fst average_people_count peak_people_count].
  split; [| done].
  destruct (history_values (people_count_history self)) as [| v vs].
  - reflexivity.
  - unfold np_mean. rewrite length_map. unfold len.
    etransitivity.
    { apply Qdiv_mult_l. intros Hz. unfold Qeq in Hz. simpl in Hz. lia. }
    generalize (v :: vs). intros l. induction l as [| x l IH]; [reflexivity |].
    cbn [map foldr]. unfold Qsum in *. cbn [foldr].
    rewrite inject_Z_plus. apply Qplus_comp; [reflexivity | exact IH].
Qed.

(** C7. The bins are not wall-clock seconds, against the comment of line
    41.  On a new object, an update with one person that starts at second
    0, then an update with two people that starts at second 3: both counts
    go to bin 0, the second replaces the first, and the history is left with
    the one entry 0 -> 2; the count of second 0 is lost. *)
Theorem counts_not_binned_by_second :
  let r1 := update Sample.seconds Sample.scale Sample.disc
              (__init__ Sample.config) [Sample.det_a]
              (Sample.frame_of [Sample.det_a]) 0%nat in
  let r2 := update Sample.seconds Sample.scale Sample.disc r1.1.1
              [Sample.det_a; Sample.det_b]
              (Sample.frame_of [Sample.det_a; Sample.det_b]) r1.2 in
  Qfloor (Sample.seconds 0) = 0
  /\ Qfloor (Sample.seconds r1.2) = 3
  /\ people_count_history r2.1.1 = {[ 0 := 2 ]}
  /\ ~ bins_by_wall_clock_second Sample.seconds Sample.scale Sample.disc
         Sample.config.
Proof.
  cbv zeta.
  destruct (update_counts Sample.seconds Sample.scale Sample.disc
              (__init__ Sample.config) [Sample.det_a]
              (Sample.frame_of [Sample.det_a]) 0%nat) as [Hf1 Hh1].
  set (r1 := update Sample.seconds Sample.scale Sample.disc
               (__init__ Sample.config) [Sample.det_a]
               (Sample.frame_of [Sample.det_a]) 0%nat) in *.
  assert (Htick : r1.2 = 3%nat) by (vm_compute; reflexivity).
  destruct (update_counts Sample.seconds Sample.scale Sample.disc r1.1.1
              [Sample.det_a; Sample.det_b]
              (Sample.frame_of [Sample.det_a; Sample.det_b]) r1.2)
    as [_ Hh2].
  assert (Hhist : people_count_history
                    (update Sample.seconds Sample.scale Sample.disc r1.1.1
                       [Sample.det_a; Sample.det_b]
                       (Sample.frame_of [Sample.det_a; Sample.det_b]) r1.2).1.1
                  = {[ 0 := 2 ]}).
  { rewrite Hh2, Hh1, Hf1. cbn. rewrite insert_insert_eq.
    by rewrite insert_empty. }
  split; [reflexivity |]. split; [by rewrite Htick |]. split; [exact Hhist |].
  intros Hbins.
  specialize (Hbins [Sample.det_a] (Sample.frame_of [Sample.det_a])
                [Sample.det_a; Sample.det_b]
                (Sample.frame_of [Sample.det_a; Sample.det_b]) 0%nat).
  cbv zeta in Hbins. fold r1 in Hbins. rewrite Hhist, Htick in Hbins.
  destruct Hbins as (k1 & k2 & Hne & Hk1 & Hk2).
  { vm_compute. discriminate. }
  apply lookup_singleton_Some in Hk1 as [_ Hk1]. discriminate.
Qed.

(** ** Unknown faces *)

Section AlertFacts.
Import SecurityModule CameraApp.
Variable clock : nat -> Q.
Variable float_scale : Z -> Z -> Z -> Z.
Variable circle_pixels : Z * Z -> Z -> option (Z -> Z -> bool).
Variable face_distance : list (list Q) -> list Q -> option (list Q).

(** [np] is not bound in the module, so the body of [_recognize_face]
    never gets past [np.argmin] and every face comes out as "Unknown". *)
Lemma recognize_face_unknown (sec : SecurityModule.Self) (enc : list Q) :
  _recognize_face face_distance sec enc = "Unknown"%string.
Proof.
  unfold _recognize_face, recognize_body.
  destruct (known_faces sec); [done |].
  by destruct (face_distance _ _).
Qed.

Lemma process_frame_alerts (self : CameraApp.Self) frame tk :
  (process_frame clock float_scale circle_pixels face_distance self frame tk).1.2
  = motion_alerts self
      (MotionDetector.detect_motion (motion_detector self) (gray frame)).2
      (get_people_detections (detected frame))
    ++ unknown_face_alerts face_distance self frame
         (get_people_detections (detected frame)).
Proof.
  unfold process_frame, mbind, clocked_bind, cbind.
  destruct (AnalyticsModule.update _ _ _ _ _ _ _) as [a tk1].
  destruct (draw_detections _ _); [| done].
  destruct (get_fps clock _ tk1) as [r tk2].
  by destruct (overlaid frame).
Qed.

Lemma motion_alerts_other_type (self : CameraApp.Self) report persons :
  filter (fun a => alert_type a = "unknown_face"%string)
    (motion_alerts self report persons) = [].
Proof.
  unfold motion_alerts, generate_alert.
  destruct (report.2) as [mag |]; [| done].
  destruct (report.1 && Qltb 10 mag); [| done].
  destruct (enable_alerts (security self)); [| done].
  apply filter_none. intros a Ha. apply list_elem_of_singleton in Ha as ->.
  simpl. discriminate.
Qed.

Lemma face_alerts_closed_form (sec : SecurityModule.Self) (faces : list Face) :
  flat_map
    (fun face =>
       if is_known face then []
       else generate_alert sec "unknown_face"
              (FaceData "critical" (name face) (location face)))
    faces
  = if enable_alerts sec
    then (fun face =>
            {| alert_type := "unknown_face";
               data := FaceData "critical" (name face) (location face) |})
         <$> filter (fun f => is_known f = false) faces
    else [].
Proof.
  unfold generate_alert. induction faces as [| f faces IH]; simpl.
  - by destruct (enable_alerts sec).
  - rewrite IH. destruct (is_known f) eqn:Hk.
    + rewrite filter_cons_False by (rewrite Hk; discriminate). done.
    + rewrite filter_cons_True by done.
      by destruct (enable_alerts sec).
Qed.

Lemma unmatched_face_name (sec : SecurityModule.Self) frame f :
  f ∈ detect_faces face_distance sec frame ->
  is_known f = false -> name f = "Unknown"%string.
Proof.
  unfold detect_faces. destruct (face_recognition sec).
  - intros Hin Hk. apply list_elem_of_fmap in Hin as ([loc enc] & -> & _).
    destruct loc as [[[t r] b] l]. simpl in *.
    apply bool_decide_eq_false in Hk.
    destruct (decide (_recognize_face face_distance sec enc = "Unknown"%string));
      [done | by exfalso; apply Hk].
  - intros Hin. by apply elem_of_nil in Hin.
Qed.

End AlertFacts.

Lemma unknown_face_closed_form (clock : nat -> Q)
    (float_scale : Z -> Z -> Z -> Z)
    (circle_pixels : Z * Z -> Z -> option (Z -> Z -> bool))
    (face_distance : list (list Q) -> list Q -> option (list Q))
    (self : CameraApp.Self) (frame : Frame) (tk : nat) :
  unknown_face_emitted clock float_scale circle_pixels face_distance
    self frame tk
  = if SecurityModule.face_recognition (CameraApp.security self)
       && (0 <? len (get_people_detections (detected frame)))
       && SecurityModule.enable_alerts (CameraApp.security self)
    then unknown_face_alert_of <$> unmatched_faces face_distance self frame
    else [].
Proof.
  unfold unknown_face_emitted.
  rewrite process_frame_alerts, filter_app, motion_alerts_other_type.
  cbn [app]. unfold CameraApp.unknown_face_alerts.
  destruct (SecurityModule.face_recognition (CameraApp.security self)
            && (0 <? len (get_people_detections (detected frame)))) eqn:Hopen;
    [| done].
  rewrite face_alerts_closed_form. cbn [andb].
  destruct (SecurityModule.enable_alerts (CameraApp.security self)); [| done].
  unfold unmatched_faces.
  set (faces := SecurityModule.detect_faces _ _ _).
  assert (Hnames : forall f, f ∈ faces -> SecurityModule.is_known f = false ->
                     SecurityModule.name f = "Unknown"%string)
    by (intros f; apply unmatched_face_name).
  clearbody faces. induction faces as [| f faces IH]; [done |].
  destruct (SecurityModule.is_known f) eqn:Hk.
  - rewrite filter_cons_False by (rewrite Hk; discriminate).
    apply IH. intros g Hg. apply Hnames. by right.
  - rewrite filter_cons_True by done. rewrite !fmap_cons.
    rewrite filter_cons_True by done. f_equal.
    + unfold unknown_face_alert_of. rewrite (Hnames f); [done | left | done].
    + apply IH. intros g Hg. apply Hnames. by right.
Qed.

(** C9, as the code has it. In one processing cycle, with face evaluation
    enabled, a person in the frame and alerts enabled, the [unknown_face]
    alerts are one alert of severity "critical" with name "Unknown" and the
    face's location for each face that [detect_faces] does not report as
    known, in the order of the faces, and nothing else; when the face library
    is not loaded, or no person is in the frame, or alerts are disabled,
    there is no [unknown_face] alert. *)
Theorem unknown_face_alerts_as_built (clock : nat -> Q)
    (float_scale : Z -> Z -> Z -> Z)
    (circle_pixels : Z * Z -> Z -> option (Z -> Z -> bool))
    (face_distance : list (list Q) -> list Q -> option (list Q))
    (self : CameraApp.Self) (frame : Frame) (tk : nat) :
  (face_evaluation_enabled (CameraApp.security self) = true
   /\ get_people_detections (detected frame) <> []
   /\ SecurityModule.enable_alerts (CameraApp.security self) = true ->
   unknown_face_emitted clock float_scale circle_pixels face_distance
     self frame tk
   = unknown_face_alert_of <$> unmatched_faces face_distance self frame)
  /\ (SecurityModule.face_recognition (CameraApp.security self) = false
      \/ get_people_detections (detected frame) = []
      \/ SecurityModule.enable_alerts (CameraApp.security self) = false ->
      unknown_face_emitted clock float_scale circle_pixels face_distance
        self frame tk = []).
Proof.
  rewrite unknown_face_closed_form. unfold face_evaluation_enabled. split.
  - intros (Hen & Hp & ->). apply andb_true_iff in Hen as [_ ->].
    destruct (get_people_detections (detected frame)); [done |].
    done.
  - intros [-> | [-> | ->]]; [done | | ].
    + cbn. by rewrite andb_false_r.
    + by rewrite andb_false_r.
Qed.

Lemma no_alert_when_alerts_disabled :
  ~ unknown_face_rule Sample.seconds Sample.scale Sample.disc
      Sample.no_distance (Sample.app Sample.quiet_config) Sample.frame_face
      1%nat.
Proof.
  intros [Hrule _].
  assert (Hpersons : get_people_detections (detected Sample.frame_face) <> [])
    by (vm_compute; discriminate).
  specialize (Hrule eq_refl Hpersons).
  vm_compute in Hrule. discriminate.
Qed.

(** ** The frame counter *)

Section CounterFacts.
Import CameraApp.
Variable clock : nat -> Q.
Variable float_scale : Z -> Z -> Z -> Z.
Variable circle_pixels : Z * Z -> Z -> option (Z -> Z -> bool).
Variable face_distance : list (list Q) -> list Q -> option (list Q).

Lemma get_fps_counter (self : CameraApp.Self) tk :
  fps_counter (get_fps clock self tk).1.1
  = (if window_elapsed clock self tk then 0 else fps_counter self)
  /\ running (get_fps clock self tk).1.1 = running self.
Proof.
  unfold get_fps, window_elapsed, mbind, clocked_bind, cbind, time_time.
  cbn beta iota. by destruct (Qltb 1 _).
Qed.

Lemma process_frame_counter (self : CameraApp.Self) frame tk :
  let t := (AnalyticsModule.update clock float_scale circle_pixels
              (analytics self) (get_people_detections (detected frame))
              frame tk).2 in
  fps_counter
    (process_frame clock float_scale circle_pixels face_distance self frame tk).1.1
  = (if draw_detections frame (detected frame) then
       (if window_elapsed clock self t then 0 else fps_counter self)
       + (if overlaid frame then 1 else 0)
     else fps_counter self)
  /\ running
       (process_frame clock float_scale circle_pixels face_distance self frame
          tk).1.1
     = running self.
Proof.
  cbv zeta. unfold process_frame, mbind, clocked_bind, cbind.
  cbn [analytics with_motion].
  destruct (AnalyticsModule.update _ _ _ _ _ _ _) as [a tk1]. cbn [snd].
  destruct (draw_detections frame (detected frame)); [| done].
  set (self1 := with_analytics _ _).
  destruct (get_fps_counter self1 tk1) as [Hc Hr].
  destruct (get_fps clock self1 tk1) as [r tk2].
  cbn [fst snd] in *.
  destruct (overlaid frame); unfold cret; cbn [fst snd fps_counter with_fps running];
    rewrite ?Hc, ?Hr; [done |].
  split; [| done]. subst self1. unfold window_elapsed. cbn. lia.
Qed.

End CounterFacts.

(** C6, as the code has it. A turn of the loop on a frame while running
    leaves the counter at one more than it was, a status read leaves it as it
    was, both unless the [get_fps] call inside them reads the clock more than
    one second after [last_fps_time]: then the counter starts again from 0.
    A frame on which [draw_detections] raises is not counted and its cycle
    does not reach [get_fps]; a frame on which the overlay text raises is
    not counted either, after [get_fps] has run.  While stopped the loop
    does not touch the object, and a status read changes the counter by that
    restart only. *)
Theorem frame_counter_steps (clock : nat -> Q)
    (float_scale : Z -> Z -> Z -> Z)
    (circle_pixels : Z * Z -> Z -> option (Z -> Z -> bool))
    (face_distance : list (list Q) -> list Q -> option (list Q))
    (self : CameraApp.Self) (ev : CameraApp.Event) (tk : nat) :
  let self' :=
    (CameraApp.react clock float_scale circle_pixels face_distance
       self ev tk).1 in
  match ev with
  | CameraApp.EvFrame frame =>
      let t := (AnalyticsModule.update clock float_scale circle_pixels
                  (CameraApp.analytics self)
                  (get_people_detections (detected frame)) frame tk).2 in
      if CameraApp.running self then
        CameraApp.fps_counter self'
        = (if CameraApp.draw_detections frame (detected frame) then
             (if window_elapsed clock self t then 0
              else CameraApp.fps_counter self)
             + (if overlaid frame then 1 else 0)
           else CameraApp.fps_counter self)
      else self' = self
  | CameraApp.EvStatus =>
      CameraApp.fps_counter self'
      = (if window_elapsed clock self tk then 0
         else CameraApp.fps_counter self)
      /\ CameraApp.running self' = CameraApp.running self
  | CameraApp.EvStop =>
      CameraApp.fps_counter self' = CameraApp.fps_counter self
      /\ CameraApp.running self' = false
  end.
Proof.
  cbv zeta. destruct ev as [frame | |]; cbn [CameraApp.react].
  - unfold CameraApp.loop_turn, mbind, clocked_bind, cbind.
    destruct (CameraApp.running self); [| done].
    destruct (process_frame_counter clock float_scale circle_pixels
                face_distance self frame tk) as [Hc _].
    cbv zeta in Hc.
    destruct (CameraApp.process_frame _ _ _ _ _ _ _) as [r tk1].
    unfold cret. cbn [fst] in *. exact Hc.
  - unfold CameraApp.status, mbind, clocked_bind, cbind.
    pose proof (get_fps_counter clock self tk) as Hc.
    destruct (CameraApp.get_fps clock self tk) as [r tk1].
    unfold cret. cbn [fst] in *. exact Hc.
  - unfold CameraApp.stop, mbind, clocked_bind, cbind.
    by destruct (AnalyticsModule.get_statistics _ _ _).
Qed.

Lemma frame_counter_restarts :
  ~ counter_grows_while_running Sample.seconds Sample.scale Sample.disc
      Sample.no_distance
  /\ ~ counter_frozen_while_stopped Sample.seconds Sample.scale Sample.disc
         Sample.no_distance.
Proof.
  split.
  - intros Hgrow.
    specialize (Hgrow Sample.app_later CameraApp.EvStatus 7%nat).
    assert (Hle : 1 <= 0); [| lia].
    assert (H1 : CameraApp.fps_counter Sample.app_later = 1)
      by (vm_compute; reflexivity).
    assert (H0 : CameraApp.fps_counter
                   (CameraApp.react Sample.seconds Sample.scale Sample.disc
                      Sample.no_distance Sample.app_later CameraApp.EvStatus
                      7%nat).1 = 0)
      by (vm_compute; reflexivity).
    rewrite <- H0, <- H1. apply Hgrow.
    + vm_compute; reflexivity.
    + discriminate.
  - intros Hfrozen.
    specialize (Hfrozen
                  (CameraApp.stop Sample.seconds Sample.app_later 7%nat).1
                  CameraApp.EvStatus 8%nat).
    assert (H : 0 = 1); [| lia].
    assert (H1 : CameraApp.fps_counter
                   (CameraApp.stop Sample.seconds Sample.app_later 7%nat).1 = 1)
      by (vm_compute; reflexivity).
    assert (H0 : CameraApp.fps_counter
                   (CameraApp.react Sample.seconds Sample.scale Sample.disc
                      Sample.no_distance
                      (CameraApp.stop Sample.seconds Sample.app_later 7%nat).1
                      CameraApp.EvStatus 8%nat).1 = 0)
      by (vm_compute; reflexivity).
    rewrite <- H0, <- H1. apply Hfrozen.
    vm_compute; reflexivity.
Qed.

(** An update made while the clock stands at second 100 lands in bin 0. *)
Example count_lands_in_bin_zero :
  people_count_history
    (update Sample.at_100 Sample.scale Sample.disc (__init__ Sample.config)
       [Sample.det_a] (Sample.frame_of [Sample.det_a]) 0%nat).1.1
  = {[ 0 := 1 ]}.
Proof.
  destruct (update_counts Sample.at_100 Sample.scale Sample.disc
              (__init__ Sample.config) [Sample.det_a]
              (Sample.frame_of [Sample.det_a]) 0%nat) as [_ ->].
  reflexivity.
Qed.

(** With everything switched on, the face of the sample frame raises its
    alert. *)
Example unknown_face_alert_sample :
  unknown_face_emitted Sample.seconds Sample.scale Sample.disc
    Sample.no_distance (Sample.app Sample.config) Sample.frame_face 1%nat
  = [ {| SecurityModule.alert_type := "unknown_face";
         SecurityModule.data :=
           SecurityModule.FaceData "critical" "Unknown" (40, 160, 120, 80) |} ].
Proof. vm_compute. reflexivity. Qed.

(** Where [np.sqrt] raises: a detection far outside any picture, with two
    tracks present.  The [except] clause of [_update_tracks] ends the call
    when the first track is examined: no track is deleted or moved, none is
    opened, and the answer reports one person and two active tracks. *)
Example far_detection_opens_no_track :
  let r := (update Sample.seconds Sample.scale Sample.disc Sample.two_tracks
              [Sample.det_far] (Sample.frame_of []) 0%nat).1 in
  ~ roots_defined Sample.two_tracks [Sample.det_far]
  /\ person_tracks r.1 = person_tracks Sample.two_tracks
  /\ track_counter r.1 = 2
  /\ people_count r.2 = 1
  /\ active_tracks r.2 = 2.
Proof.
  cbv zeta. split; [| by vm_compute].
  unfold roots_defined. intros Hroots.
  apply Forall_cons in Hroots as [Hroots _].
  apply Forall_cons in Hroots as [Hroots _].
  vm_compute in Hroots. discriminate.
Qed.

(** Motion between two frames: the first frame of an application is only
    stored, the second differs from it in three pixels of four and raises
    the motion alert, and the second once more raises nothing. *)
Example motion_alert_sample :
  let first := CameraApp.process_frame Sample.seconds Sample.scale Sample.disc
                 Sample.no_distance (Sample.app Sample.config)
                 Sample.frame_dark 1%nat in
  let second := CameraApp.process_frame Sample.seconds Sample.scale
                  Sample.disc Sample.no_distance first.1.1
                  Sample.frame_bright first.2 in
  let third := CameraApp.process_frame Sample.seconds Sample.scale
                 Sample.disc Sample.no_distance second.1.1
                 Sample.frame_bright second.2 in
  first.1.2 = []
  /\ SecurityModule.alert_type <$> second.1.2 = ["motion_detected"%string]
  /\ third.1.2 = [].
Proof. cbv zeta. repeat split; vm_compute; reflexivity. Qed.

(** A frame on which the drawing calls raise is processed by the analytics
    module and not counted by the frame counter. *)
Example undrawn_frame_is_not_counted :
  let r := (CameraApp.process_frame Sample.seconds Sample.scale Sample.disc
              Sample.no_distance (Sample.app Sample.config)
              Sample.frame_empty 1%nat).1.1 in
  CameraApp.fps_counter r = 0
  /\ frame_count (CameraApp.analytics r) = 1.
Proof. cbv zeta. split; vm_compute; reflexivity. Qed.

(** * Further properties of the modelled code *)

(** ** The tracker, turn by turn *)

Section TurnTheorems.
Variable clock : nat -> Q.
Variable float_scale : Z -> Z -> Z -> Z.
Variable circle_pixels : Z * Z -> Z -> option (Z -> Z -> bool).

(** The greedy choice: the centroid a track is matched with was free when
    the turn of the track came, is nearer than 50, and no centroid free at
    that moment is nearer to the track. *)
Theorem matched_centroid_is_nearest_free self dets frame tk pre tid post tr idx :
  enable_counting self = true ->
  tracks_ok self ->
  keys (person_tracks self) = pre ++ tid :: post ->
  dict_get tid (person_tracks self) = Some tr ->
  (tid, idx) ∈ assigned
                 (update_traced clock float_scale circle_pixels self dets
                    frame tk).1.2 ->
  exists pos,
    (idx, pos) ∈ current_centroids dets
    /\ (idx ∉ matched_before clock self dets pre tk)
    /\ dist_sq pos (position tr) < 50 * 50
    /\ forall j p, (j, p) ∈ current_centroids dets ->
         j ∉ matched_before clock self dets pre tk ->
         dist_sq pos (position tr) <= dist_sq p (position tr).
Proof.
  intros Hen Hok Hkeys Hget Hin.
  destruct (update_traced_tracks clock float_scale circle_pixels self dets
              frame tk Hen) as (Htr & _ & _).
  cbv zeta in Htr. rewrite Htr, update_tracks_assigned in Hin.
  pose proof (turn_outcome clock self dets tk pre tid post tr (proj1 Hok)
                Hkeys Hget) as Hturn.
  cbv zeta in Hturn.
  destruct (match_loop clock (current_centroids dets) pre (match_start self) tk).1
    as [st1 | e1 st1].
  2: { destruct Hturn as (Hnone & _). by apply Hnone in Hin. }
  destruct (nearest _ _ _ _) as [c |] eqn:Hscan.
  2: { destruct Hturn as (Hnone & _). by apply Hnone in Hin. }
  destruct (closest_idx c) as [idx' |] eqn:Hc.
  - destruct Hturn as (_ & Huniq & _).
    apply Huniq in Hin as ->.
    by apply (nearest_minimal _ _ _ closest_init c idx' eq_refl eq_refl Hscan Hc).
  - destruct Hturn as (_ & Hnone & _). by apply Hnone in Hin.
Qed.

(** A matched track moves to its centroid, keeps its entry time, and is
    stamped with a clock reading made during the call: not before the call
    starts, and before it returns. *)
Theorem matched_track_is_moved self dets frame tk pre tid post tr idx :
  enable_counting self = true ->
  tracks_ok self ->
  keys (person_tracks self) = pre ++ tid :: post ->
  dict_get tid (person_tracks self) = Some tr ->
  (tid, idx) ∈ assigned
                 (update_traced clock float_scale circle_pixels self dets
                    frame tk).1.2 ->
  exists det t,
    dets !! idx = Some det
    /\ (tk <= t
        < (update clock float_scale circle_pixels self dets frame tk).2)%nat
    /\ dict_get tid
         (person_tracks
            (update clock float_scale circle_pixels self dets frame tk).1.1)
       = Some {| position := centroid det;
                 entry_time := entry_time tr;
                 last_seen := clock t |}.
Proof.
  intros Hen Hok Hkeys Hget Hin.
  destruct (update_traced_tracks clock float_scale circle_pixels self dets
              frame tk Hen) as (Htr & _ & _).
  cbv zeta in Htr. rewrite Htr, update_tracks_assigned in Hin.
  pose proof (turn_outcome clock self dets tk pre tid post tr (proj1 Hok)
                Hkeys Hget) as Hturn.
  pose proof (update_ticks clock float_scale circle_pixels self dets frame tk
                Hen) as Hticks.
  cbv zeta in Hturn.
  assert (Hle : tid <= track_counter self).
  { destruct Hok as [_ Hle]. rewrite Forall_forall in Hle. apply Hle.
    rewrite Hkeys. apply elem_of_app. right. left. }
  destruct (match_loop clock (current_centroids dets) pre (match_start self) tk).1
    as [st1 | e1 st1].
  2: { destruct Hturn as (Hnone & _). by apply Hnone in Hin. }
  destruct (nearest _ _ _ _) as [c |] eqn:Hscan.
  2: { destruct Hturn as (Hnone & _). by apply Hnone in Hin. }
  destruct (closest_idx c) as [idx' |] eqn:Hc.
  - destruct Hturn as (_ & Huniq & _ & pos & t & Hpos & Ht & Hfinal).
    apply Huniq in Hin as ->.
    apply dict_get_elem, current_centroids_elem in Hpos as (det & Hdet & ->).
    exists det, t. split; [done |]. split; [lia |].
    by rewrite update_person_tracks, update_tracks_old_ids.
  - destruct Hturn as (_ & Hnone & _). by apply Hnone in Hin.
Qed.

(** The other half of the eviction rule: a track that finds a free
    centroid nearer than 50 when its turn comes is still there, with its
    entry time, when the call returns. *)
Theorem track_with_free_centroid_survives self dets frame tk pre tid post tr
    idx pos :
  enable_counting self = true ->
  tracks_ok self ->
  keys (person_tracks self) = pre ++ tid :: post ->
  dict_get tid (person_tracks self) = Some tr ->
  (idx, pos) ∈ current_centroids dets ->
  idx ∉ matched_before clock self dets pre tk ->
  dist_sq pos (position tr) < 50 * 50 ->
  exists tr',
    dict_get tid
      (person_tracks
         (update clock float_scale circle_pixels self dets frame tk).1.1)
    = Some tr'
    /\ entry_time tr' = entry_time tr.
Proof.
  intros Hen Hok Hkeys Hget Hin Hfree Hnear.
  pose proof (turn_outcome clock self dets tk pre tid post tr (proj1 Hok)
                Hkeys Hget) as Hturn.
  cbv zeta in Hturn.
  assert (Hle : tid <= track_counter self).
  { destruct Hok as [_ Hle]. rewrite Forall_forall in Hle. apply Hle.
    rewrite Hkeys. apply elem_of_app. right. left. }
  rewrite update_person_tracks, update_tracks_old_ids by done.
  destruct (match_loop clock (current_centroids dets) pre (match_start self) tk).1
    as [st1 | e1 st1].
  2: { destruct Hturn as (_ & _ & Hsame & _). by exists tr. }
  destruct (nearest _ _ _ _) as [c |] eqn:Hscan.
  2: { destruct Hturn as (_ & _ & Hsame & _). by exists tr. }
  destruct (closest_idx c) as [idx' |] eqn:Hc.
  - destruct Hturn as (_ & _ & _ & pos' & t & _ & _ & Hfinal).
    eexists. split; [exact Hfinal | done].
  - pose proof (nearest_complete _ _ _ _ Hscan Hc idx pos Hin Hfree) as Hfar.
    unfold max_dist_sq in Hfar. lia.
Qed.

End TurnTheorems.

(** ** Counting tracks *)

Lemma complement_count (A : list nat) (n : nat) :
  NoDup A ->
  (forall a, a ∈ A -> (a < n)%nat) ->
  (length A + length (filter (fun i => i ∉ A) (seq 0 n)) = n)%nat.
Proof.
  intros Hnd Hlt.
  assert (Hperm : filter (fun i => i ∈ A) (seq 0 n) ≡ₚ A).
  { apply NoDup_Permutation; [apply NoDup_filter, NoDup_seq | done |].
    intros x. rewrite list_elem_of_filter, elem_of_seq. split; [tauto |].
    intros Hx. split; [done |]. specialize (Hlt x Hx). lia. }
  pose proof (filter_app_complement (fun i => i ∈ A) (seq 0 n)) as Hall.
  apply Permutation_length in Hall. apply Permutation_length in Hperm.
  rewrite length_app, length_seq in Hall. lia.
Qed.

Section CountTheorems.
Variable clock : nat -> Q.
Variable float_scale : Z -> Z -> Z -> Z.
Variable circle_pixels : Z * Z -> Z -> option (Z -> Z -> bool).

Lemma update_people_count self dets frame tk :
  people_count (update clock float_scale circle_pixels self dets frame tk).1.2
  = len dets.
Proof.
  unfold update, mbind, clocked_bind, cbind.
  destruct (if enable_counting _ then _ else _) as [[s2 tr2] tk2].
  by destruct (_calculate_avg_dwell_time clock (s2, tr2).1 tk2).
Qed.

(** After an update that runs the tracker on detections whose squared
    distances to the tracks are below 2^64 there are as many tracks as there
    were detections: every centroid is either given to a track that stays
    or opens a track, and every other track is deleted. *)
Theorem active_tracks_equal_people_count self dets frame tk :
  enable_counting self = true ->
  tracks_ok self ->
  roots_defined self dets ->
  active_tracks (update clock float_scale circle_pixels self dets frame tk).1.2
  = people_count (update clock float_scale circle_pixels self dets frame tk).1.2.
Proof.
  intros Hen Hok Hroots.
  rewrite update_active_tracks, update_people_count, update_person_tracks by done.
  destruct (update_tracks_spec clock self dets tk Hok Hroots)
    as (Hnd2 & Hidx & _ & _ & _ & _ & Hkeys & _).
  cbv zeta in *. unfold len. f_equal.
  assert (Hl : length (person_tracks (_update_tracks clock self dets tk).1.1)
               = length (keys (person_tracks (_update_tracks clock self dets tk).1.1)))
    by (unfold keys; by rewrite length_fmap).
  rewrite Hl, Hkeys, length_app, length_seqZ, !length_fmap.
  pose proof (complement_count _ (length dets) Hnd2 Hidx) as Hc.
  rewrite length_fmap in Hc. unfold len. lia.
Qed.

(** An update without detections deletes every track, opens none and
    leaves the counter where it was. *)
Theorem no_detection_clears_tracks self frame tk :
  enable_counting self = true ->
  tracks_ok self ->
  let r := (update clock float_scale circle_pixels self [] frame tk).1 in
  person_tracks r.1 = []
  /\ track_counter r.1 = track_counter self
  /\ active_tracks r.2 = 0.
Proof.
  intros Hen Hok. cbv zeta.
  rewrite update_active_tracks, update_person_tracks by done.
  rewrite update_is_traced. cbn [fst].
  destruct (update_traced_tracks clock float_scale circle_pixels self []
              frame tk Hen) as (_ & _ & ->).
  assert (Hroots : roots_defined self []).
  { unfold roots_defined. apply Forall_forall. intros tr _. apply Forall_nil_2. }
  destruct (update_tracks_spec clock self [] tk Hok Hroots)
    as (_ & Hidx & _ & _ & _ & Hcnt & Hkeys & _).
  cbv zeta in *. simpl in Hidx, Hcnt, Hkeys.
  assert (Ha : assigned (_update_tracks clock self [] tk).1.2 = []).
  { destruct (assigned _) as [| [t i] l]; [done |].
    exfalso. specialize (Hidx i). simpl in Hidx.
    assert (i < 0)%nat; [apply Hidx; left | lia]. }
  rewrite Ha in Hkeys. simpl in Hkeys.
  assert (Ht : person_tracks (_update_tracks clock self [] tk).1.1 = []).
  { unfold keys in Hkeys. by apply fmap_nil_inv in Hkeys. }
  rewrite Ht. split; [done |]. split; [| done].
  rewrite Hcnt. unfold len. simpl. lia.
Qed.

Lemma heatmap_loop_zero_size frame_h frame_w map_h map_w dets hm :
  frame_h = 0 \/ frame_w = 0 ->
  state_of (heatmap_loop float_scale circle_pixels frame_h frame_w
              map_h map_w dets hm) = hm.
Proof.
  intros Hz. destruct dets as [| det rest]; [done |].
  cbn [heatmap_loop]. case_decide; [done |]. case_decide; [done |].
  by destruct Hz.
Qed.

Lemma update_heatmap_field self dets frame tk :
  heatmap (update clock float_scale circle_pixels self dets frame tk).1.1
  = if enable_heatmap self
    then heatmap (_update_heatmap float_scale circle_pixels self dets frame)
    else heatmap self.
Proof.
  unfold update, mbind, clocked_bind, cbind.
  set (self1 := with_counts _ _ _).
  set (self2 := if enable_heatmap self1 then _ else self1).
  assert (H2 : heatmap self2
               = if enable_heatmap self
                 then heatmap (_update_heatmap float_scale circle_pixels self
                                 dets frame)
                 else heatmap self).
  { subst self2. change (enable_heatmap self1) with (enable_heatmap self).
    destruct (enable_heatmap self); [| done].
    unfold _update_heatmap.
    change (heatmap_resolution self1) with (heatmap_resolution self).
    by destruct (shape frame), (heatmap_resolution self). }
  rewrite <- H2.
  destruct (enable_counting self2).
  - pose proof (update_tracks_heatmap clock self2 dets tk) as Hh.
    destruct (_update_tracks clock self2 dets tk) as [[s3 tr3] tk3].
    cbn [fst snd] in *.
    destruct (_calculate_avg_dwell_time clock s3 tk3). by unfold cret.
  - unfold cret. cbn [fst snd].
    by destruct (_calculate_avg_dwell_time clock self2 tk).
Qed.

(** A frame without rows or without columns: the division by zero in the
    heatmap step is swallowed, the heatmap stays as it was, and the update
    goes on to count the frame and to run the tracker. *)
Theorem empty_frame_leaves_heatmap self dets frame tk :
  (shape frame).1 = 0 \/ (shape frame).2 = 0 ->
  let r := (update clock float_scale circle_pixels self dets frame tk).1 in
  heatmap r.1 = heatmap self
  /\ frame_count r.1 = frame_count self + 1
  /\ people_count r.2 = len dets
  /\ (enable_counting self = true ->
      person_tracks r.1 = person_tracks (_update_tracks clock self dets tk).1.1).
Proof.
  intros Hz. cbv zeta.
  split; [| split; [| split]].
  - rewrite update_heatmap_field. destruct (enable_heatmap self); [| done].
    unfold _update_heatmap.
    destruct (shape frame) as [fh fw], (heatmap_resolution self) as [mh mw].
    simpl in *. by apply heatmap_loop_zero_size.
  - apply update_counts.
  - apply update_people_count.
  - apply update_person_tracks.
Qed.

End CountTheorems.

(** ** People passed *)

Lemma bounded_ids_count (l : list Z) (c : Z) :
  NoDup l -> Forall (fun k => 1 <= k <= c) l -> len l <= Z.max 0 c.
Proof.
  intros Hnd Hall. rewrite Forall_forall in Hall.
  assert (Hsub : l ⊆+ seqZ 1 c).
  { apply NoDup_submseteq; [done |]. intros x Hx. apply elem_of_seqZ.
    specialize (Hall x Hx). lia. }
  apply submseteq_length in Hsub. rewrite length_seqZ in Hsub.
  unfold len. lia.
Qed.

Section PassedTheorems.
Variable clock : nat -> Q.
Variable float_scale : Z -> Z -> Z -> Z.
Variable circle_pixels : Z * Z -> Z -> option (Z -> Z -> bool).

Lemma step_ids_positive s op tk :
  ids_in_step s /\ Forall (fun k => 1 <= k) (keys (person_tracks (obj s))) ->
  ids_in_step (step clock float_scale circle_pixels s op tk).1
  /\ Forall (fun k => 1 <= k)
       (keys (person_tracks
                (obj (step clock float_scale circle_pixels s op tk).1))).
Proof.
  intros [Hinv Hpos]. split; [by apply step_ids_in_step |].
  destruct Hinv as (Hok & Hc0 & _).
  destruct op as [dets frame | | |]; cbn [step].
  - unfold mbind, clocked_bind, cbind.
    destruct (enable_counting (obj s)) eqn:Hen.
    + destruct (update_traced_tracks clock float_scale circle_pixels (obj s)
                  dets frame tk Hen) as (_ & Hp & _).
      destruct (update_tracks_ids clock (obj s) dets tk Hok)
        as (n & _ & _ & _ & Hkeys).
      cbv zeta in *.
      destruct (update_traced clock float_scale circle_pixels (obj s) dets frame tk)
        as [[[s1 res] tr] tk1].
      cbn [fst snd] in *. unfold cret. cbn [fst obj].
      rewrite Hp, Hkeys. apply Forall_app. split.
      * apply Forall_forall. intros k Hk.
        apply list_elem_of_filter in Hk as [_ Hk].
        rewrite Forall_forall in Hpos. by apply Hpos.
      * apply Forall_forall. intros k Hk. apply elem_of_seqZ in Hk. lia.
    + destruct (update_traced_disabled clock float_scale circle_pixels (obj s)
                  dets frame tk Hen) as (_ & Hp & _).
      cbv zeta in *.
      destruct (update_traced clock float_scale circle_pixels (obj s) dets frame tk)
        as [[[s1 res] tr] tk1].
      cbn [fst snd] in *. unfold cret. cbn [fst obj]. by rewrite Hp.
  - unfold mbind, clocked_bind, cbind.
    by destruct (get_statistics clock (obj s) tk).
  - done.
  - unfold cret. cbn [fst obj reset_statistics person_tracks].
    apply Forall_nil_2.
Qed.

(** What [get_statistics] reports as [total_people_passed] is the number
    of tracks opened since the last [reset_statistics], and the number of
    current tracks never exceeds it. *)
Theorem total_people_passed_counts_new_tracks (config : Config)
    (ops : list Op) (tk tk' : nat) :
  let s := (run clock float_scale circle_pixels ops (fresh config) tk).1 in
  let stats := (get_statistics clock (obj s) tk').1 in
  total_people_passed stats = len (issued_epoch s)
  /\ current_tracks stats <= total_people_passed stats.
Proof.
  cbv zeta.
  pose proof (run_invariant clock float_scale circle_pixels
                (fun s => ids_in_step s
                          /\ Forall (fun k => 1 <= k)
                               (keys (person_tracks (obj s))))
                step_ids_positive ops (fresh config) tk) as Hinv.
  destruct Hinv as (((Hnd & Hle) & Hc0 & Hep) & Hpos).
  { split; [| apply Forall_nil_2]. split; [| done].
    split; [apply NoDup_nil_2 | apply Forall_nil_2]. }
  set (s := (run clock float_scale circle_pixels ops (fresh config) tk).1) in *.
  unfold get_statistics, mbind, clocked_bind, cbind.
  destruct (_calculate_avg_dwell_time clock (obj s) tk') as [dwell tk1].
  unfold cret. cbn [fst total_people_passed current_tracks].
  split.
  - rewrite Hep. unfold len. rewrite length_seqZ. lia.
  - assert (Hb : len (keys (person_tracks (obj s)))
                 <= Z.max 0 (track_counter (obj s))).
    { apply bounded_ids_count; [done |].
      rewrite Forall_forall in Hle, Hpos |- *. intros k Hk.
      specialize (Hle k Hk). specialize (Hpos k Hk). lia. }
    unfold len, keys in *. rewrite length_fmap in Hb. lia.
Qed.

End PassedTheorems.

(** ** The motion detector *)

Lemma Qltb_lt (a b : Q) : Qltb a b = true <-> (a < b)%Q.
Proof. unfold Qltb, Qlt. apply Z.ltb_lt. Qed.

Lemma Qltb_ge (a b : Q) : Qltb a b = false <-> (b <= a)%Q.
Proof. unfold Qltb, Qle. rewrite Z.ltb_ge. tauto. Qed.

Lemma Qltb_proper (a b b' : Q) : (b == b')%Q -> Qltb a b = Qltb a b'.
Proof.
  intros Hb. destruct (Qltb a b') eqn:H'.
  - apply Qltb_lt. apply Qltb_lt in H'. by rewrite Hb.
  - apply Qltb_ge. apply Qltb_ge in H'. by rewrite Hb.
Qed.

Section MotionFacts.
Import MotionDetector.

Lemma threshold_sum (diff : list Z) :
  Zsum (threshold_binary diff) = 255 * len (filter (fun d => 30 < d) diff).
Proof.
  unfold len, Zsum, threshold_binary.
  induction diff as [| d diff IH]; [done |].
  cbn [map foldr].
  destruct (30 <? d) eqn:Hd.
  - apply Z.ltb_lt in Hd. rewrite filter_cons_True by done.
    cbn [length]. rewrite IH. lia.
  - apply Z.ltb_ge in Hd. rewrite filter_cons_False by lia.
    rewrite IH. lia.
Qed.

Lemma threshold_length (diff : list Z) :
  len (threshold_binary diff) = len diff.
Proof. unfold len, threshold_binary. by rewrite length_map. Qed.

Lemma changed_at_most_all (diff : list Z) :
  0 <= len (filter (fun d => 30 < d) diff) <= len diff.
Proof.
  unfold len. pose proof (length_filter (fun d => 30 < d) diff). lia.
Qed.

(** The value of line 144 is the percentage of changed pixels. *)
Lemma magnitude_percentage (diff : list Z) :
  diff <> [] ->
  exists q,
    magnitude (threshold_binary diff) = Value q
    /\ (q * inject_Z (len diff)
        == 100 * inject_Z (len (filter (fun d : Z => (30 < d)%Z) diff)))%Q
    /\ (0 <= q <= 100)%Q.
Proof.
  intros Hne. unfold magnitude. rewrite threshold_length, threshold_sum.
  assert (Hn : 0 < len diff).
  { unfold len. destruct diff; [done | simpl; lia]. }
  rewrite decide_False by lia.
  set (c := len (filter (fun d => 30 < d) diff)).
  pose proof (changed_at_most_all diff) as Hc. fold c in Hc.
  set (n := len diff) in *.
  assert (Hn0 : ~ (inject_Z n == 0)%Q).
  { intros Hz. unfold Qeq in Hz. simpl in Hz. lia. }
  assert (Heq : (inject_Z (255 * c) / (255 * inject_Z n) * 100
                 == inject_Z (100 * c) / inject_Z n)%Q).
  { rewrite !inject_Z_mult. field. done. }
  eexists. split; [reflexivity |]. split.
  - rewrite Heq, inject_Z_mult. field. done.
  - assert (Hnpos : (0 < inject_Z n)%Q)
      by (change 0%Q with (inject_Z 0); rewrite <- Zlt_Qlt; lia).
    rewrite Heq. split.
    + apply Qle_shift_div_l; [done |]. rewrite Qmult_0_l.
      change 0%Q with (inject_Z 0). rewrite <- Zle_Qle. lia.
    + apply Qle_shift_div_r; [done |].
      change 100%Q with (inject_Z 100). rewrite <- inject_Z_mult.
      rewrite <- Zle_Qle. lia.
Qed.

Lemma absdiff_nonempty (a b : list Z) :
  a <> [] -> b <> [] -> absdiff a b <> [].
Proof. by destruct a, b. Qed.

(** One call on a detector whose stored frame, if any, has pixels. *)
Lemma detect_motion_answer (self : MotionDetector.Self) (gray : option Gray) :
  stored_has_pixels self ->
  stored_has_pixels (detect_motion self gray).1
  /\ motion_threshold (detect_motion self gray).1 = motion_threshold self
  /\ exists q,
       (detect_motion self gray).2.2 = Value q
       /\ (0 <= q <= 100)%Q
       /\ ((100 <= motion_threshold self)%Q ->
           (detect_motion self gray).2.1 = false).
Proof.
  intros Hst. unfold detect_motion, cvtColor.
  assert (Hzero : exists q : Q,
            Value 0 = Value q /\ (0 <= q <= 100)%Q
            /\ ((100 <= motion_threshold self)%Q -> false = false)).
  { exists 0%Q. split; [done |]. split; [| done]. split; [apply Qle_refl | done]. }
  destruct gray as [g |]; [| done].
  case_decide as Hpix; [done |].
  unfold stored_has_pixels in *.
  destruct (prev_frame self) as [prev |] eqn:Hprev.
  - case_decide as Hs.
    + cbn [fst snd with_prev prev_frame motion_threshold].
      split; [done |]. split; [done |].
      set (diff := absdiff (g_pixels g) (g_pixels prev)).
      assert (Hne : diff <> []) by by apply absdiff_nonempty.
      destruct (magnitude_percentage diff Hne) as (q & -> & _ & Hq).
      exists q. split; [done |]. split; [done |].
      intros Hthr. cbn [above]. apply Qltb_ge.
      destruct Hq as [_ Hq]. by eapply Qle_trans.
    + cbn [fst snd]. rewrite Hprev. done.
  - cbn [fst snd with_prev prev_frame motion_threshold]. done.
Qed.

(** From a new detector, whatever the frames: every answer carries a
    magnitude that is a number between 0 and 100, never [nan], and a
    threshold of 100 or more never reports motion. *)
Theorem motion_magnitude_in_range (threshold : Q)
    (grays : list (option Gray)) :
  Forall (fun answer : bool * reading =>
            exists q,
              answer.2 = Value q
              /\ (0 <= q <= 100)%Q
              /\ ((100 <= threshold)%Q -> answer.1 = false))
    (detect_all (__init__ threshold) grays).2.
Proof.
  assert (Hgen : forall self,
    stored_has_pixels self -> motion_threshold self = threshold ->
    Forall (fun answer : bool * reading =>
              exists q,
                answer.2 = Value q
                /\ (0 <= q <= 100)%Q
                /\ ((100 <= threshold)%Q -> answer.1 = false))
      (detect_all self grays).2).
  { induction grays as [| gray grays IH]; intros self Hst Hthr.
    - apply Forall_nil_2.
    - cbn [detect_all snd].
      destruct (detect_motion_answer self gray Hst) as (Hst' & Hthr' & Hq).
      apply Forall_cons. split.
      + by rewrite <- Hthr.
      + apply IH; [done | by rewrite Hthr']. }
  by apply Hgen.
Qed.

Lemma absdiff_same (l : list Z) : absdiff l l = map (fun _ => 0) l.
Proof.
  unfold absdiff. induction l as [| x l IH]; [done |].
  cbn [zip_with map]. rewrite IH. f_equal. lia.
Qed.

(** An image against itself: no pixel differs, the magnitude is 0. *)
Lemma still_magnitude (l : list Z) :
  l <> [] ->
  exists q,
    magnitude (threshold_binary (absdiff l l)) = Value q /\ (q == 0)%Q.
Proof.
  intros Hne.
  set (diff := absdiff l l).
  assert (Hd : diff <> []).
  { subst diff. rewrite absdiff_same. by destruct l. }
  destruct (magnitude_percentage diff Hd) as (q & Hq & Hform & _).
  assert (Hnone : filter (fun d => 30 < d) diff = []).
  { apply filter_none. subst diff. rewrite absdiff_same. intros x Hx.
    apply list_elem_of_fmap in Hx as (y & -> & _). lia. }
  rewrite Hnone in Hform.
  exists q. split; [done |].
  assert (Hn : ~ (inject_Z (len diff) == 0)%Q).
  { intros Hz. unfold Qeq, len in Hz. simpl in Hz.
    destruct diff; [done | simpl in Hz; lia]. }
  apply (Qmult_inj_r _ _ _ Hn). rewrite Hform. unfold len. simpl. ring.
Qed.

(** The same frame twice: the magnitude is 0, the stored frame stays, and
    motion is reported exactly when the threshold is negative. *)
Theorem same_frame_has_no_magnitude (self : MotionDetector.Self) (g : Gray) :
  prev_frame self = Some g ->
  g_pixels g <> [] ->
  (detect_motion self (Some g)).1 = self
  /\ (detect_motion self (Some g)).2.1 = Qltb (motion_threshold self) 0
  /\ exists q, (detect_motion self (Some g)).2.2 = Value q /\ (q == 0)%Q.
Proof.
  intros Hprev Hne. unfold detect_motion, cvtColor.
  rewrite (decide_False (P := g_pixels g = [])) by done. rewrite Hprev.
  rewrite decide_True by done. cbn [fst snd].
  destruct (still_magnitude (g_pixels g) Hne) as (q & Hq & Hq0).
  rewrite Hq. cbn [above].
  split; [| split].
  - destruct self as [thr p]. simpl in *. by rewrite Hprev.
  - by apply Qltb_proper.
  - by exists q.
Qed.

(** The frame of the call before, once more: no magnitude above 0. *)
Lemma detect_motion_again (self : MotionDetector.Self) (gray : option Gray) :
  exists b q,
    (detect_motion (detect_motion self gray).1 gray).2 = (b, Value q)
    /\ (q == 0)%Q.
Proof.
  assert (Hzero : exists b q, (false, Value 0) = (b, Value q) /\ (q == 0)%Q)
    by (by exists false, 0%Q).
  assert (Hsame : forall (s : MotionDetector.Self) g,
            prev_frame s = Some g -> g_pixels g <> [] ->
            exists b q, (detect_motion s (Some g)).2 = (b, Value q) /\ (q == 0)%Q).
  { intros s g Hp Hne. unfold detect_motion, cvtColor.
    rewrite (decide_False (P := g_pixels g = [])) by done. rewrite Hp.
    rewrite decide_True by done. cbn [fst snd].
    destruct (still_magnitude (g_pixels g) Hne) as (q & Hq & Hq0).
    rewrite Hq. by eexists _, q. }
  destruct gray as [g |]; [| done].
  destruct (decide (g_pixels g = [])) as [Hpix | Hpix].
  { unfold detect_motion at 2. unfold cvtColor. rewrite decide_True by done.
    cbn [fst]. unfold detect_motion, cvtColor. by rewrite decide_True. }
  unfold detect_motion at 2. unfold cvtColor. rewrite decide_False by done.
  destruct (prev_frame self) as [prev |] eqn:Hprev.
  - case_decide as Hs.
    + cbn [fst]. by apply Hsame.
    + cbn [fst]. unfold detect_motion, cvtColor.
      rewrite decide_False by done. rewrite Hprev. by rewrite decide_False.
  - cbn [fst]. by apply Hsame.
Qed.

(** After a frame of another shape the stored frame is not replaced, so
    while the frames keep a shape that differs from the stored one every
    answer is "no motion, magnitude 0.0". *)
Theorem other_shape_silences_detector (self : MotionDetector.Self)
    (prev : Gray) (grays : list (option Gray)) :
  prev_frame self = Some prev ->
  Forall (fun gray => match gray with
                      | Some g => g_shape g <> g_shape prev
                      | None => True
                      end) grays ->
  detect_all self grays
  = (self, replicate (length grays) (false, Value 0)).
Proof.
  intros Hprev Hall. induction Hall as [| gray grays Hg _ IH]; [done |].
  cbn [detect_all length replicate].
  assert (Hstep : detect_motion self gray = (self, (false, Value 0))).
  { unfold detect_motion, cvtColor. destruct gray as [g |]; [| done].
    case_decide; [done |].
    rewrite Hprev. by rewrite decide_False. }
  rewrite Hstep. cbn [fst snd]. by rewrite IH.
Qed.

End MotionFacts.

(** ** Classes of detections *)

(** People and vehicles are picked from the detections in their order,
    people are exactly the detections of class "person", and no detection is
    in both lists. *)
Theorem people_and_vehicles_are_disjoint (dets : list Detection) :
  get_people_detections dets `sublist_of` dets
  /\ get_vehicle_detections dets `sublist_of` dets
  /\ (forall d, d ∈ get_people_detections dets
                <-> d ∈ dets /\ class_name d = "person"%string)
  /\ (forall d, d ∈ get_people_detections dets ->
                d ∉ get_vehicle_detections dets)
  /\ (length (get_people_detections dets)
      + length (get_vehicle_detections dets) <= length dets)%nat.
Proof.
  unfold get_people_detections, get_vehicle_detections.
  split; [apply sublist_filter |]. split; [apply sublist_filter |].
  split; [intros d; rewrite list_elem_of_filter; tauto |].
  split.
  - intros d Hp Hv. apply list_elem_of_filter in Hp as [Hp _].
    apply list_elem_of_filter in Hv as [Hv _]. rewrite Hp in Hv.
    unfold vehicle_classes in Hv.
    repeat (apply elem_of_cons in Hv as [Hv | Hv]; [discriminate |]).
    by apply elem_of_nil in Hv.
  - induction dets as [| d dets IH]; [done |].
    destruct (decide (class_name d = "person"%string)) as [Hp | Hp].
    + rewrite filter_cons_True by done.
      rewrite (filter_cons_False (fun d => class_name d ∈ vehicle_classes)).
      * simpl. lia.
      * rewrite Hp. unfold vehicle_classes. intros Hv.
        repeat (apply elem_of_cons in Hv as [Hv | Hv]; [discriminate |]).
        by apply elem_of_nil in Hv.
    + rewrite filter_cons_False by done.
      destruct (decide (class_name d ∈ vehicle_classes)).
      * rewrite filter_cons_True by done. simpl. lia.
      * rewrite filter_cons_False by done. simpl. lia.
Qed.

(** ** Faces and alerts *)

Section FaceTheorems.
Import SecurityModule CameraApp.
Variable clock : nat -> Q.
Variable float_scale : Z -> Z -> Z -> Z.
Variable circle_pixels : Z * Z -> Z -> option (Z -> Z -> bool).
Variable face_distance : list (list Q) -> list Q -> option (list Q).

(** No face is ever recognised: whatever the known faces and whatever the
    library says about distances, every face [detect_faces] returns is named
    "Unknown" and marked as not known; there is one for each pair of a
    location and an encoding, at four times the location. *)
Theorem no_face_is_ever_known (sec : SecurityModule.Self) (frame : Frame) :
  Forall (fun f => name f = "Unknown"%string /\ is_known f = false)
    (detect_faces face_distance sec frame)
  /\ (face_recognition sec = true ->
      location <$> detect_faces face_distance sec frame
      = (fun l : Z * Z * Z * Z =>
           (l.1.1.1 * 4, l.1.1.2 * 4, l.1.2 * 4, l.2 * 4))
        <$> take (length (face_encodings frame)) (face_locations frame)).
Proof.
  unfold detect_faces. split.
  - destruct (face_recognition sec); [| constructor].
    apply Forall_forall. intros f Hf.
    apply list_elem_of_fmap in Hf as ([loc enc] & -> & _).
    destruct loc as [[[t r] b] l]. cbn [fst snd name is_known].
    rewrite recognize_face_unknown. split; [done |].
    apply bool_decide_eq_false. intros Hne. by apply Hne.
  - intros ->.
    generalize (face_encodings frame). intros encs.
    induction (face_locations frame) as [| loc locs IH] in encs |- *.
    + by destruct encs.
    + destruct encs as [| enc encs]; [done |].
      cbn [zip zip_with fmap list_fmap length take].
      destruct loc as [[[t r] b] l]. cbn [fst snd location map].
      rewrite fmap_cons. cbn [fst snd location]. f_equal. apply IH.
Qed.

Lemma process_frame_keeps (self : CameraApp.Self) frame tk :
  security
    (process_frame clock float_scale circle_pixels face_distance self frame tk).1.1
  = security self
  /\ motion_detector
       (process_frame clock float_scale circle_pixels face_distance self frame
          tk).1.1
     = (MotionDetector.detect_motion (motion_detector self) (gray frame)).1.
Proof.
  unfold process_frame, mbind, clocked_bind, cbind.
  destruct (AnalyticsModule.update _ _ _ _ _ _ _) as [a tk1].
  destruct (draw_detections _ _); [| done].
  unfold get_fps, mbind, clocked_bind, cbind, time_time. cbn beta iota.
  by destruct (Qltb 1 _), (overlaid frame).
Qed.

Lemma unknown_face_alerts_type (self : CameraApp.Self) frame persons :
  Forall (fun a => alert_type a = "unknown_face"%string)
    (unknown_face_alerts face_distance self frame persons).
Proof.
  apply Forall_forall. intros a Ha. unfold unknown_face_alerts in Ha.
  destruct (_ && _); [| by apply elem_of_nil in Ha].
  apply list_elem_of_In, in_flat_map in Ha as (f & _ & Ha).
  destruct (is_known f); [done |].
  unfold generate_alert in Ha.
  destruct (enable_alerts (security self)); [| done].
  by destruct Ha as [<- | []].
Qed.

(** The motion rule, on the answer the motion detector gives for the
    frame of the cycle: one "motion_detected" alert of severity "medium" with
    the magnitude and the number of people when motion is reported with a
    magnitude above 10 and alerts are enabled, none otherwise. *)
Theorem motion_alert_rule (self : CameraApp.Self) (frame : Frame) (tk : nat) :
  let report :=
    (MotionDetector.detect_motion (motion_detector self) (gray frame)).2 in
  filter (fun a => alert_type a = "motion_detected"%string)
    (process_frame clock float_scale circle_pixels face_distance
       self frame tk).1.2
  = match report.2 with
    | MotionDetector.Value motion_mag =>
        if report.1 && Qltb 10 motion_mag && enable_alerts (security self)
        then [ {| alert_type := "motion_detected";
                  data := MotionData "medium" motion_mag
                            (len (get_people_detections (detected frame))) |} ]
        else []
    | MotionDetector.NaN => []
    end.
Proof.
  cbv zeta. rewrite process_frame_alerts, filter_app.
  assert (Hfaces :
    filter (fun a => alert_type a = "motion_detected"%string)
      (unknown_face_alerts face_distance self frame
         (get_people_detections (detected frame))) = []).
  { apply filter_none. intros a Ha.
    pose proof (unknown_face_alerts_type self frame
                  (get_people_detections (detected frame))) as Hty.
    rewrite Forall_forall in Hty. rewrite (Hty a Ha). discriminate. }
  rewrite Hfaces, app_nil_r. unfold motion_alerts, generate_alert.
  destruct (MotionDetector.detect_motion _ _).2 as [moved [mag |]];
    cbn [fst snd]; [| done].
  destruct (moved && Qltb 10 mag); [| done]. cbn [andb].
  destruct (enable_alerts (security self)); [| done].
  by rewrite filter_cons_True.
Qed.

(** A still picture raises no motion alert.  The loop processes a copy of
    the camera's current frame in each turn; when the next copy has the
    pixels of the one before, the second cycle raises no "motion_detected"
    alert, whatever the first did, and the "unknown_face" alerts of the first
    once more. *)
Theorem same_frame_again_raises_no_motion_alert (self : CameraApp.Self)
    (frame : Frame) (tk tk' : nat) :
  (process_frame clock float_scale circle_pixels face_distance
     (process_frame clock float_scale circle_pixels face_distance
        self frame tk).1.1
     frame tk').1.2
  = filter (fun a => alert_type a = "unknown_face"%string)
      (process_frame clock float_scale circle_pixels face_distance
         self frame tk).1.2.
Proof.
  rewrite !process_frame_alerts.
  destruct (process_frame_keeps self frame tk) as [Hsec Hmd].
  rewrite Hmd.
  destruct (detect_motion_again (motion_detector self) (gray frame))
    as (b & q & -> & Hq0).
  rewrite filter_app, motion_alerts_other_type. cbn [app].
  rewrite (filter_all _ _ (proj1 (Forall_forall _ _)
             (unknown_face_alerts_type self frame
                (get_people_detections (detected frame))))).
  assert (Hstill : Qltb 10 q = false).
  { apply Qltb_ge. rewrite Hq0. unfold Qle. simpl. lia. }
  unfold motion_alerts. cbn [fst snd]. rewrite Hstill, andb_false_r.
  cbn [app]. unfold unknown_face_alerts. by rewrite Hsec.
Qed.

End FaceTheorems.

(** Loading the stored faces: the names in the dict are the stored names,
    none twice; when no name is stored twice the dict is the stored list. *)
Theorem load_known_faces_keeps_names (stored : list (string * list Q)) :
  NoDup (keys (SecurityModule._load_known_faces stored))
  /\ (forall n, n ∈ keys (SecurityModule._load_known_faces stored)
                <-> n ∈ stored.*1)
  /\ (NoDup stored.*1 -> SecurityModule._load_known_faces stored = stored).
Proof.
  unfold SecurityModule._load_known_faces.
  assert (Hgen : forall (kf : list (string * list Q)),
    NoDup (keys kf) ->
    NoDup (keys (fold_left (fun kf face => dict_set face.1 face.2 kf) stored kf))
    /\ (forall n, n ∈ keys (fold_left (fun kf face => dict_set face.1 face.2 kf)
                              stored kf)
                  <-> n ∈ keys kf \/ n ∈ stored.*1)
    /\ (NoDup (keys kf ++ stored.*1) ->
        fold_left (fun kf face => dict_set face.1 face.2 kf) stored kf
        = kf ++ stored)).
  { induction stored as [| [n e] stored IH]; intros kf Hkf.
    - simpl. split; [done |]. split.
      + intros n. rewrite elem_of_nil. tauto.
      + intros _. by rewrite app_nil_r.
    - cbn [fold_left fst snd].
      assert (Hkf' : NoDup (keys (dict_set n e kf))).
      { destruct (decide (n ∈ keys kf)).
        - by rewrite keys_dict_set_in.
        - rewrite keys_dict_set_fresh by done.
          apply NoDup_app. split; [done |]. split; [| apply NoDup_singleton].
          intros x Hx Hx'. apply list_elem_of_singleton in Hx'. by subst. }
      destruct (IH _ Hkf') as (H1 & H2 & H3). split; [done |]. split.
      + intros m. rewrite H2, fmap_cons, elem_of_cons. cbn [fst].
        destruct (decide (n ∈ keys kf)) as [Hin | Hin].
        * rewrite keys_dict_set_in by done. split; [tauto |].
          intros [? | [-> | ?]]; tauto.
        * rewrite keys_dict_set_fresh, elem_of_app, list_elem_of_singleton by done.
          tauto.
      + intros Hnd. rewrite fmap_cons in Hnd. cbn [fst] in Hnd.
        assert (Hfresh : n ∉ keys kf).
        { apply NoDup_app in Hnd as (_ & Hd & _). intros Hin.
          apply (Hd n Hin). left. }
        assert (Hset : dict_set n e kf = kf ++ [(n, e)]).
        { clear -Hfresh. unfold keys in Hfresh.
          induction kf as [| [k v] kf IHk]; [done |].
          simpl in *. apply not_elem_of_cons in Hfresh as [Hne Hfresh].
          rewrite decide_False by done. f_equal. by apply IHk. }
        rewrite H3.
        * rewrite Hset, <- app_assoc. done.
        * rewrite keys_dict_set_fresh by done.
          rewrite <- app_assoc. exact Hnd. }
  destruct (Hgen [] (NoDup_nil_2)) as (H1 & H2 & H3).
  split; [done |]. split.
  - intros n. rewrite H2. unfold keys. simpl. rewrite elem_of_nil. tauto.
  - intros Hnd. by apply H3.
Qed.

(** ** Frames and the status answer *)

Section AppTheorems.
Import CameraApp.
Variable clock : nat -> Q.
Variable float_scale : Z -> Z -> Z -> Z.
Variable circle_pixels : Z * Z -> Z -> option (Z -> Z -> bool).
Variable face_distance : list (list Q) -> list Q -> option (list Q).

Lemma get_fps_keeps (self : CameraApp.Self) tk :
  analytics (get_fps clock self tk).1.1 = analytics self
  /\ running (get_fps clock self tk).1.1 = running self
  /\ security (get_fps clock self tk).1.1 = security self.
Proof.
  unfold get_fps, mbind, clocked_bind, cbind, time_time. cbn beta iota.
  by destruct (Qltb 1 _).
Qed.

Lemma process_frame_analytics (self : CameraApp.Self) frame tk :
  AnalyticsModule.frame_count
    (analytics (process_frame clock float_scale circle_pixels face_distance
                  self frame tk).1.1)
  = AnalyticsModule.frame_count (analytics self) + 1
  /\ running (process_frame clock float_scale circle_pixels face_distance
                self frame tk).1.1
     = running self.
Proof.
  unfold process_frame, mbind, clocked_bind, cbind.
  cbn [analytics with_motion].
  destruct (update_counts clock float_scale circle_pixels (analytics self)
              (get_people_detections (detected frame)) frame tk) as [Hf _].
  destruct (AnalyticsModule.update _ _ _ _ _ _ _) as [a tk1].
  destruct (draw_detections _ _); [| done].
  set (self1 := with_analytics _ _).
  destruct (get_fps_keeps self1 tk1) as (Ha & Hr & _).
  destruct (get_fps clock self1 tk1) as [r tk2].
  destruct (overlaid frame); unfold cret;
    cbn [fst snd analytics running with_fps] in *; by rewrite Ha, Hr.
Qed.

Lemma react_frame_count (self : CameraApp.Self) ev tk :
  let self' := (react clock float_scale circle_pixels face_distance
                  self ev tk).1 in
  AnalyticsModule.frame_count (analytics self')
  = AnalyticsModule.frame_count (analytics self)
    + frames_taken (running self) [ev]
  /\ running self'
     = match ev with EvStop => false | _ => running self end.
Proof.
  cbv zeta. destruct ev as [frame | |]; cbn [react frames_taken].
  - unfold loop_turn, mbind, clocked_bind, cbind.
    destruct (running self) eqn:Hrun.
    + destruct (process_frame_analytics self frame tk) as [Hf Hr].
      destruct (process_frame _ _ _ _ _ _ _) as [r tk1].
      unfold cret. cbn [fst analytics running with_frame] in *.
      rewrite Hf, Hr, Hrun. split; [lia | done].
    + unfold cret. cbn [fst]. rewrite Hrun. split; [lia | done].
  - unfold status, mbind, clocked_bind, cbind.
    destruct (get_fps_keeps self tk) as (Ha & Hr & _).
    destruct (get_fps clock self tk) as [r tk1].
    unfold cret. cbn [fst] in *. rewrite Ha, Hr. split; [lia | done].
  - unfold stop, mbind, clocked_bind, cbind.
    destruct (AnalyticsModule.get_statistics _ _ _).
    unfold cret. cbn [fst analytics running with_running]. split; [lia | done].
Qed.

Lemma react_counter_bound (self : CameraApp.Self) ev tk :
  0 <= fps_counter self <= AnalyticsModule.frame_count (analytics self) ->
  let self' := (react clock float_scale circle_pixels face_distance
                  self ev tk).1 in
  0 <= fps_counter self' <= AnalyticsModule.frame_count (analytics self').
Proof.
  intros Hb. cbv zeta.
  pose proof (react_frame_count self ev tk) as [Hf _].
  cbv zeta in Hf. rewrite Hf.
  destruct ev as [frame | |]; cbn [react frames_taken] in *.
  - unfold loop_turn, mbind, clocked_bind, cbind.
    destruct (running self).
    + destruct (process_frame_counter clock float_scale circle_pixels
                  face_distance self frame tk) as [Hc _].
      cbv zeta in Hc.
      destruct (process_frame _ _ _ _ _ _ _) as [r tk1].
      unfold cret. cbn [fst fps_counter with_frame] in *.
      rewrite Hc.
      destruct (draw_detections _ _);
        [destruct (window_elapsed _ _ _), (overlaid frame) |]; lia.
    + unfold cret. cbn [fst]. lia.
  - unfold status, mbind, clocked_bind, cbind.
    destruct (get_fps_counter clock self tk) as [Hc _].
    destruct (get_fps clock self tk) as [r tk1].
    unfold cret. cbn [fst] in *. rewrite Hc.
    destruct (window_elapsed _ _ _); lia.
  - unfold stop, mbind, clocked_bind, cbind.
    destruct (AnalyticsModule.get_statistics _ _ _).
    unfold cret. cbn [fst fps_counter with_running]. lia.
Qed.

Lemma react_all_counts (evs : list Event) : forall (self : CameraApp.Self) tk,
  let self' := (react_all clock float_scale circle_pixels face_distance
                  evs self tk).1 in
  AnalyticsModule.frame_count (analytics self')
  = AnalyticsModule.frame_count (analytics self)
    + frames_taken (running self) evs
  /\ (0 <= fps_counter self <= AnalyticsModule.frame_count (analytics self) ->
      0 <= fps_counter self'
      <= AnalyticsModule.frame_count (analytics self')).
Proof.
  induction evs as [| ev evs IH]; intros self tk; cbv zeta.
  - cbn [react_all frames_taken]. unfold cret. cbn [fst]. split; [lia | done].
  - cbn [react_all]. unfold mbind, clocked_bind, cbind.
    pose proof (react_frame_count self ev tk) as [Hf Hr].
    pose proof (react_counter_bound self ev tk) as Hb.
    cbv zeta in Hf, Hr, Hb.
    destruct (react clock float_scale circle_pixels face_distance self ev tk)
      as [self1 tk1].
    cbn [fst] in *. destruct (IH self1 tk1) as [Hf' Hb']. cbv zeta in Hf', Hb'.
    split.
    + rewrite Hf', Hf, Hr.
      destruct ev as [frame | |]; cbn [frames_taken]; lia.
    + intros H0. apply Hb'. by apply Hb.
Qed.

(** From the start of an application, over any run of frames, status
    reads and stops: the analytics module has counted exactly the frames
    taken while running, none after a stop; the frame counter of the status
    route is never negative and never above that number. *)
Theorem frames_are_counted_once (config : Config) (imported : bool)
    (stored : list (string * list Q)) (evs : list Event) (tk0 tk : nat) :
  let app := start (__init__ clock config imported stored tk0).1 in
  let app' := (react_all clock float_scale circle_pixels face_distance
                 evs app tk).1 in
  AnalyticsModule.frame_count (analytics app') = frames_taken true evs
  /\ 0 <= fps_counter app' <= frames_taken true evs.
Proof.
  cbv zeta.
  set (app := start (__init__ clock config imported stored tk0).1).
  destruct (react_all_counts evs app tk) as [Hf Hb]. cbv zeta in Hf, Hb.
  assert (H0 : AnalyticsModule.frame_count (analytics app) = 0) by done.
  assert (H1 : fps_counter app = 0) by done.
  assert (H2 : running app = true) by done.
  rewrite H0, H2 in Hf. rewrite H0, H1 in Hb.
  assert (Hf' : AnalyticsModule.frame_count
                  (analytics (react_all clock float_scale circle_pixels
                                face_distance evs app tk).1)
                = frames_taken true evs) by lia.
  split; [done |]. rewrite <- Hf'. apply Hb. lia.
Qed.

(** The status answer shows the counter as it stood before the FPS read of
    the same call: when more than a second has gone by, the rate shown is
    that count over the time gone by, and the object is left with a counter
    of 0 and a window that starts at the next clock reading; otherwise the
    rate shown is 0 and the object is untouched. *)
Theorem status_shows_counter_before_reset (self : CameraApp.Self) (tk : nat) :
  let r := (status clock self tk).1 in
  frames_processed r.2 = fps_counter self
  /\ if window_elapsed clock self tk then
       (fps r.2 * (clock tk - last_fps_time self)
        == inject_Z (frames_processed r.2))%Q
       /\ fps_counter r.1 = 0
       /\ last_fps_time r.1 = clock (S tk)
     else fps r.2 = 0%Q /\ r.1 = self.
Proof.
  cbv zeta. unfold status, get_fps, window_elapsed, mbind, clocked_bind, cbind,
    time_time. cbn beta iota.
  destruct (Qltb 1 (clock tk - last_fps_time self)) eqn:Hw;
    unfold cret; cbn [fst snd frames_processed fps fps_counter last_fps_time with_fps].
  - split; [done |]. split; [| done].
    assert (Hnz : ~ (clock tk - last_fps_time self == 0)%Q).
    { intros Hz. apply Qltb_lt in Hw. rewrite Hz in Hw.
      apply Qlt_not_le in Hw. apply Hw. unfold Qle. simpl. lia. }
    field. exact Hnz.
  - done.
Qed.

End AppTheorems.

(** ** The configuration tree *)

Section ConfigFacts.
Import ConfigTree.

Lemma split_dot_nonempty (s : string) : split_dot s <> [].
Proof.
  induction s as [| c s IH]; [done |].
  cbn [split_dot]. case_decide; [done |]. by destruct (split_dot s).
Qed.

Lemma get_path_not_none keys : forall v default,
  default <> VNone -> get_path keys v default <> VNone.
Proof.
  induction keys as [| k ks IH]; intros v default Hd; cbn [get_path].
  - by destruct v.
  - destruct v; try done. by apply IH.
Qed.

(** [get] with a default other than [None] never answers [None]: a
    missing key, a path through a value that is no dict and a stored [None]
    all give the default. *)
Theorem get_never_none (config : list (string * value)) (key : string)
    (default : value) :
  default <> VNone -> get config key default <> VNone.
Proof. intros Hd. unfold get. by apply get_path_not_none. Qed.

Lemma set_path_cons k k2 ks v cfg :
  set_path (k :: k2 :: ks) v cfg
  = match dict_get k cfg with
    | None =>
        match set_path (k2 :: ks) v [] with
        | Some sub => Some (dict_set k (VDict sub) cfg)
        | None => None
        end
    | Some (VDict d) =>
        match set_path (k2 :: ks) v d with
        | Some sub => Some (dict_set k (VDict sub) cfg)
        | None => None
        end
    | Some _ => None
    end.
Proof. reflexivity. Qed.

Lemma set_get_path keys : forall v cfg cfg' default,
  set_path keys v cfg = Some cfg' ->
  get_path keys (VDict cfg') default
  = match v with VNone => default | _ => v end.
Proof.
  induction keys as [| k ks IH]; intros v cfg cfg' default Hset; [done |].
  destruct ks as [| k2 ks].
  - cbn [set_path] in Hset. injection Hset as <-.
    cbn [get_path]. by rewrite dict_get_set_eq.
  - rewrite set_path_cons in Hset. cbn [get_path].
    destruct (dict_get k cfg) as [x |] eqn:Hk.
    + destruct x as [| | | | | | d]; try done.
      destruct (set_path (k2 :: ks) v d) as [sub |] eqn:Hsub; [| done].
      injection Hset as <-. rewrite dict_get_set_eq.
      by apply (IH v d sub default).
    + destruct (set_path (k2 :: ks) v []) as [sub |] eqn:Hsub; [| done].
      injection Hset as <-. rewrite dict_get_set_eq.
      by apply (IH v [] sub default).
Qed.

(** What [set] has written, [get] reads back; a [None] that was written
    reads back as the default. *)
Theorem set_then_get (config config' : list (string * value))
    (key : string) (v default : value) :
  set config key v = Some config' ->
  get config' key default = match v with VNone => default | _ => v end.
Proof. unfold set, get. apply set_get_path. Qed.

Lemma set_path_head keys v cfg cfg' :
  set_path keys v cfg = Some cfg' ->
  exists k ks x, keys = k :: ks /\ cfg' = dict_set k x cfg.
Proof.
  destruct keys as [| k ks]; [done |]. intros Hset.
  exists k, ks. destruct ks as [| k2 ks].
  - cbn [set_path] in Hset. injection Hset as <-. by eexists.
  - rewrite set_path_cons in Hset.
    destruct (dict_get k cfg) as [x |].
    + destruct x as [| | | | | | d]; try done.
      destruct (set_path (k2 :: ks) v d) as [sub |]; [| done].
      injection Hset as <-. by eexists.
    + destruct (set_path (k2 :: ks) v []) as [sub |]; [| done].
      injection Hset as <-. by eexists.
Qed.

(** [set] leaves alone every key that starts with another first
    component. *)
Theorem set_keeps_other_sections (config config' : list (string * value))
    (key key' : string) (v default : value) :
  set config key v = Some config' ->
  head (split_dot key') <> head (split_dot key) ->
  get config' key' default = get config key' default.
Proof.
  unfold set, get. intros Hset Hne.
  destruct (set_path_head _ _ _ _ Hset) as (k & ks & x & Hk & ->).
  rewrite Hk in Hne.
  destruct (split_dot key') as [| k' ks'] eqn:Hk'.
  - by apply split_dot_nonempty in Hk'.
  - cbn [get_path]. rewrite dict_get_set_ne; [done |].
    intros ->. by apply Hne.
Qed.

Lemma set_fails_get_path keys : forall v cfg default,
  keys <> [] ->
  set_path keys v cfg = None ->
  get_path keys (VDict cfg) default = default.
Proof.
  induction keys as [| k ks IH]; intros v cfg default Hne Hset; [done |].
  destruct ks as [| k2 ks]; [done |].
  rewrite set_path_cons in Hset. cbn [get_path].
  destruct (dict_get k cfg) as [x |] eqn:Hk.
  - destruct x as [| | | | | | d]; try done.
    apply (IH v d default); [done |].
    by destruct (set_path (k2 :: ks) v d).
  - done.
Qed.

(** [set] raises only where the path runs into a stored value that is no
    dict, and there [get] answers the default. *)
Theorem set_raises_where_get_defaults (config : list (string * value))
    (key : string) (v default : value) :
  set config key v = None -> get config key default = default.
Proof.
  unfold set, get. apply set_fails_get_path, split_dot_nonempty.
Qed.

Lemma merge_dict_cons b key v rest :
  _merge_config (VDict b) (VDict ((key, v) :: rest))
  = match v, dict_get key b with
    | VDict _, Some sub =>
        match _merge_config sub v with
        | Merged sub' => _merge_config (VDict (dict_set key sub' b)) (VDict rest)
        | TypeError sub' => TypeError (VDict (dict_set key sub' b))
        end
    | _, _ => _merge_config (VDict (dict_set key v b)) (VDict rest)
    end.
Proof. reflexivity. Qed.

Lemma keys_dict_set_keeps {V : Type} (k k' : string) (x : V)
    (d : list (string * V)) :
  k' ∈ keys d -> k' ∈ keys (dict_set k x d).
Proof.
  intros Hin. destruct (decide (k ∈ keys d)).
  - by rewrite keys_dict_set_in.
  - rewrite keys_dict_set_fresh by done. apply elem_of_app. by left.
Qed.

Lemma merge_keeps (items : list (string * value)) :
  forall config, exists config',
    load_from_file config (VDict items) = VDict config'
    /\ (forall k, k ∈ keys config -> k ∈ keys config')
    /\ (forall k, k ∉ items.*1 -> dict_get k config' = dict_get k config).
Proof.
  unfold load_from_file.
  induction items as [| [key v] rest IH]; intros b.
  - exists b. by cbn.
  - rewrite merge_dict_cons.
    assert (Hplain : forall x,
      exists b', merged_value (_merge_config (VDict (dict_set key x b)) (VDict rest))
                 = VDict b'
        /\ (forall k, k ∈ keys b -> k ∈ keys b')
        /\ (forall k, k ∉ ((key, v) :: rest).*1 -> dict_get k b' = dict_get k b)).
    { intros x. destruct (IH (dict_set key x b)) as (b' & Hb' & Hk & Hg).
      exists b'. split; [done |]. split.
      - intros k Hin. by apply Hk, keys_dict_set_keeps.
      - intros k Hn. rewrite fmap_cons in Hn.
        apply not_elem_of_cons in Hn as [Hne Hn]. cbn [fst] in Hne.
        rewrite Hg by done. by apply dict_get_set_ne. }
    destruct v as [| | | | | | u]; try apply Hplain.
    destruct (dict_get key b) as [sub |] eqn:Hsub; [| apply Hplain].
    destruct (_merge_config sub (VDict u)) as [sub' | sub']; [apply Hplain |].
    exists (dict_set key sub' b). split; [done |]. split.
    + intros k Hin. by apply keys_dict_set_keeps.
    + intros k Hn. rewrite fmap_cons in Hn.
      apply not_elem_of_cons in Hn as [Hne Hn]. cbn [fst] in Hne.
      by apply dict_get_set_ne.
Qed.

(** A merge never removes a key of the base and never touches the entry
    of a key the update does not name, whether it ends well or raises half
    way. *)
Theorem merge_keeps_unnamed_entries (config : list (string * value))
    (items : list (string * value)) :
  exists config',
    load_from_file config (VDict items) = VDict config'
    /\ (forall k, k ∈ keys config -> k ∈ keys config')
    /\ (forall k, k ∉ items.*1 -> dict_get k config' = dict_get k config).
Proof. apply merge_keeps. Qed.

Lemma flat_merge_get (items : list (string * value)) : forall b,
  Forall (fun kv => forall d, kv.2 <> VDict d) items ->
  NoDup items.*1 ->
  exists b',
    _merge_config (VDict b) (VDict items) = Merged (VDict b')
    /\ (forall k v, (k, v) ∈ items -> dict_get k b' = Some v).
Proof.
  induction items as [| [key v] rest IH]; intros b Hflat Hnd.
  - exists b. split; [done |]. intros k v Hin. by apply elem_of_nil in Hin.
  - apply Forall_cons in Hflat as [Hv Hflat]. cbn [snd] in Hv.
    rewrite fmap_cons in Hnd. apply NoDup_cons in Hnd as [Hkey Hnd].
    cbn [fst] in Hkey.
    rewrite merge_dict_cons.
    assert (Hstep : match v, dict_get key b with
                    | VDict _, Some sub =>
                        match _merge_config sub v with
                        | Merged sub' =>
                            _merge_config (VDict (dict_set key sub' b)) (VDict rest)
                        | TypeError sub' => TypeError (VDict (dict_set key sub' b))
                        end
                    | _, _ => _merge_config (VDict (dict_set key v b)) (VDict rest)
                    end
                    = _merge_config (VDict (dict_set key v b)) (VDict rest)).
    { destruct v as [| | | | | | u]; try done. by destruct (Hv u). }
    rewrite Hstep.
    destruct (IH (dict_set key v b) Hflat Hnd) as (b' & Hb' & Hg).
    exists b'. split; [done |]. intros k x Hin.
    apply elem_of_cons in Hin as [[= -> ->] | Hin]; [| by apply Hg].
    destruct (merge_keeps rest (dict_set key v b))
      as (b'' & Hb'' & _ & Hkeep).
    unfold load_from_file in Hb''. rewrite Hb' in Hb''. cbn in Hb''.
    injection Hb'' as <-. rewrite Hkeep by done. apply dict_get_set_eq.
Qed.

(** A user configuration without nested dicts and without a key twice is
    merged without an error, and every one of its entries is then read back
    from the top level. *)
Theorem flat_merge_takes_every_entry (config : list (string * value))
    (items : list (string * value)) :
  Forall (fun kv => forall d, kv.2 <> VDict d) items ->
  NoDup items.*1 ->
  exists config',
    _merge_config (VDict config) (VDict items) = Merged (VDict config')
    /\ (forall k v, (k, v) ∈ items -> dict_get k config' = Some v).
Proof. apply flat_merge_get. Qed.

End ConfigFacts.

(** ** The capture loop *)

Lemma take_last_app {A : Type} (n : Z) (l l' : list A) :
  take_last n (take_last n l ++ l') = take_last n (l ++ l').
Proof.
  unfold take_last.
  destruct (decide (length l <= Z.to_nat n)%nat) as [Hle | Hgt].
  - replace (length l - Z.to_nat n)%nat with 0%nat by lia. done.
  - rewrite !length_app, length_drop.
    replace (length l - (length l - Z.to_nat n) + length l' - Z.to_nat n)%nat
      with (length l')%nat by lia.
    replace (length l + length l' - Z.to_nat n)%nat
      with ((length l - Z.to_nat n) + length l')%nat by lia.
    rewrite <- drop_drop. f_equal.
    rewrite drop_app_le by lia. done.
Qed.

Lemma omap_id_some {A : Type} (x : A) (l : list (option A)) :
  omap id (Some x :: l) = x :: omap id l.
Proof. reflexivity. Qed.

Lemma omap_id_none {A : Type} (l : list (option A)) :
  omap id (None :: l) = omap id l.
Proof. reflexivity. Qed.

Section CaptureFacts.
Import CameraCapture.
Variable clock : nat -> Q.
Variable cv2_flip : Frame -> Frame.
Variable cv2_rotate : rotate_code -> Frame -> Frame.

Lemma deque_append_length maxlen x buf :
  len buf <= maxlen -> len (deque_append maxlen x buf) <= maxlen.
Proof.
  unfold deque_append, len. intros Hle.
  repeat case_decide; [done | |].
  - rewrite length_app, length_drop. simpl. lia.
  - rewrite length_app. simpl. lia.
Qed.

Lemma deque_append_take_last maxlen x buf :
  len buf <= maxlen ->
  deque_append maxlen x buf = take_last maxlen (buf ++ [x]).
Proof.
  unfold deque_append, take_last, len. intros Hle.
  rewrite length_app. simpl.
  repeat case_decide.
  - subst. destruct buf; [done | simpl in Hle; lia].
  - replace (length buf + 1 - Z.to_nat maxlen)%nat with 1%nat by lia.
    destruct buf; [simpl in *; lia | done].
  - replace (length buf + 1 - Z.to_nat maxlen)%nat with 0%nat by lia. done.
Qed.

Lemma capture_turn_stopped self read tk :
  is_running self = false -> capture_turn clock cv2_flip cv2_rotate self read tk = (self, tk).
Proof. intros Hr. unfold capture_turn. by rewrite Hr. Qed.

Lemma capture_all_stopped reads : forall self tk,
  is_running self = false ->
  capture_all clock cv2_flip cv2_rotate self reads tk = (self, tk).
Proof.
  induction reads as [| read rest IH]; intros self tk Hr; [done |].
  cbn [capture_all]. unfold mbind, clocked_bind, cbind.
  rewrite capture_turn_stopped by done. by apply IH.
Qed.

Lemma capture_turn_none self tk :
  capture_turn clock cv2_flip cv2_rotate self None tk = (self, tk).
Proof. unfold capture_turn. by destruct (is_running self). Qed.

(** What one turn on a frame does to a running loop, however it ends. *)
Lemma capture_turn_frame self frame tk :
  is_running self = true ->
  let s1 := (capture_turn clock cv2_flip cv2_rotate self (Some frame) tk).1 in
  let frame' := _apply_transforms cv2_flip cv2_rotate self frame in
  flip s1 = flip self /\ rotation s1 = rotation self /\ fps s1 = fps self
  /\ frame_buffer_size s1 = frame_buffer_size self
  /\ frame_buffer s1
     = deque_append (frame_buffer_size self) frame' (frame_buffer self)
  /\ current_frame s1 = Some frame'
  /\ frame_count s1 = frame_count self + 1
  /\ (fps self <= 0 -> is_running s1 = false).
Proof.
  intros Hr. cbv zeta. unfold capture_turn. rewrite Hr.
  unfold mbind, clocked_bind, cbind, time_time, cret.
  cbn [frame_count with_capture].
  destruct (decide ((frame_count self + 1) `mod` 30 = 0)) as [Hm | Hm].
  - destruct (Qeq_bool _ _); cbn [with_running with_fps_clock with_capture fps].
    + cbn. repeat split; done.
    + repeat case_decide; cbn; repeat split; try done; lia.
  - cbn [with_running with_fps_clock with_capture fps].
    repeat case_decide; cbn; repeat split; try done; lia.
Qed.

Lemma apply_transforms_reads self self' frame :
  flip self' = flip self -> rotation self' = rotation self ->
  _apply_transforms cv2_flip cv2_rotate self' frame
  = _apply_transforms cv2_flip cv2_rotate self frame.
Proof. unfold _apply_transforms. by intros -> ->. Qed.

Lemma capture_all_keeps reads : forall self tk,
  len (frame_buffer self) <= frame_buffer_size self ->
  let s' := (capture_all clock cv2_flip cv2_rotate self reads tk).1 in
  len (frame_buffer s') <= frame_buffer_size s'
  /\ frame_buffer_size s' = frame_buffer_size self.
Proof.
  induction reads as [| read rest IH]; intros self tk Hle; [done |].
  cbv zeta. cbn [capture_all]. unfold mbind, clocked_bind, cbind.
  destruct (is_running self) eqn:Hr.
  - destruct read as [frame |].
    + pose proof (capture_turn_frame self frame tk Hr) as Hturn.
      cbv zeta in Hturn.
      destruct (capture_turn clock cv2_flip cv2_rotate self (Some frame) tk)
        as [s1 tk1].
      cbn [fst] in Hturn.
      destruct Hturn as (_ & _ & _ & Hsz & Hbuf & _).
      destruct (IH s1 tk1) as [Hb Hs].
      { rewrite Hbuf, Hsz. by apply deque_append_length. }
      cbv zeta in Hb, Hs. split; [done | by rewrite Hs].
    + rewrite capture_turn_none. by apply IH.
  - rewrite capture_turn_stopped by done. by apply IH.
Qed.

(** From construction on, through [initialize] and any run of the capture
    loop, the buffer never holds more frames than [frame_buffer_size]. *)
Theorem buffer_stays_within_size (flip_ : bool) (rotation_ fps_ size_ : Z)
    (tk0 : nat) :
  0 <= size_ ->
  exists self,
    (__init__ clock flip_ rotation_ fps_ size_ tk0).1 = Some self
    /\ forall opened first reads tk,
         let s1 := start_capture
                     (initialize cv2_flip cv2_rotate self opened first).1 in
         let s' := (capture_all clock cv2_flip cv2_rotate s1 reads tk).1 in
         0 <= len (get_buffer s') <= size_.
Proof.
  intros Hsz. unfold __init__.
  rewrite decide_False by lia.
  unfold mbind, clocked_bind, cbind, time_time, cret. cbn [fst].
  eexists. split; [done |].
  intros opened first reads tk. cbv zeta.
  set (self := Build_Self _ _ _ _ _ _ _ _ _).
  set (s0 := (initialize cv2_flip cv2_rotate self opened first).1).
  assert (H0 : len (frame_buffer s0) <= frame_buffer_size s0
               /\ frame_buffer_size s0 = size_).
  { unfold s0, initialize. destruct opened; [| by cbn].
    destruct first as [frame |]; [| by cbn].
    cbn [fst with_capture frame_buffer frame_buffer_size].
    split; [| done]. apply deque_append_length. by cbn. }
  assert (H1 : len (frame_buffer (start_capture s0))
               <= frame_buffer_size (start_capture s0)
               /\ frame_buffer_size (start_capture s0) = size_).
  { unfold start_capture. by destruct (is_running s0). }
  destruct H1 as [H1 H1'].
  destruct (capture_all_keeps reads (start_capture s0) tk H1) as [Hb Hs].
  cbv zeta in Hb, Hs. unfold get_buffer. split; [unfold len; lia |].
  rewrite <- H1', <- Hs. done.
Qed.

(** A run of the loop that is still running at its end has taken every
    frame the device delivered: the buffer holds the newest
    [frame_buffer_size] frames, transformed and oldest first, the counter has
    counted them, and the current frame is the last one. *)
Theorem running_loop_keeps_newest_frames (self : CameraCapture.Self)
    (reads : list (option Frame)) (tk : nat) :
  let s' := (capture_all clock cv2_flip cv2_rotate self reads tk).1 in
  let taken := _apply_transforms cv2_flip cv2_rotate self <$> omap id reads in
  is_running s' = true ->
  len (frame_buffer self) <= frame_buffer_size self ->
  get_buffer s' = take_last (frame_buffer_size self) (frame_buffer self ++ taken)
  /\ frame_count s' = frame_count self + len taken
  /\ get_frame_copy s'
     = match last taken with
       | Some frame => Some frame
       | None => current_frame self
       end.
Proof.
  cbv zeta. revert self tk.
  induction reads as [| read rest IH]; intros self tk Hrun Hle.
  - cbn. rewrite app_nil_r. unfold take_last, len in *.
    replace (length (frame_buffer self) - Z.to_nat (frame_buffer_size self))%nat
      with 0%nat by lia.
    unfold get_buffer, get_frame_copy. split; [done |].
    split; [simpl; lia | done].
  - cbn [capture_all] in *. unfold mbind, clocked_bind, cbind in *.
    destruct (is_running self) eqn:Hr; cycle 1.
    { rewrite capture_turn_stopped in Hrun by done.
      rewrite capture_all_stopped in Hrun by done. cbn in Hrun. congruence. }
    destruct read as [frame |].
    + pose proof (capture_turn_frame self frame tk Hr) as Hturn.
      cbv zeta in Hturn.
      destruct (capture_turn clock cv2_flip cv2_rotate self (Some frame) tk)
        as [s1 tk1].
      cbn [fst] in Hturn.
      destruct Hturn as (Hf & Hrot & _ & Hsz & Hbuf & Hcur & Hcnt & _).
      destruct (IH s1 tk1 Hrun) as (Hb & Hc & Hl).
      { rewrite Hbuf, Hsz. by apply deque_append_length. }
      assert (Hmap : _apply_transforms cv2_flip cv2_rotate s1 <$> omap id rest
                     = _apply_transforms cv2_flip cv2_rotate self <$> omap id rest).
      { apply list_fmap_ext. intros i x _. by apply apply_transforms_reads. }
      rewrite Hmap in Hb, Hc, Hl.
      rewrite omap_id_some, fmap_cons.
      set (taken := _apply_transforms cv2_flip cv2_rotate self <$> omap id rest) in *.
      split.
      { rewrite Hb, Hbuf, Hsz, deque_append_take_last by done.
        rewrite take_last_app. by rewrite <- app_assoc. }
      split.
      { rewrite Hc, Hcnt. unfold len. cbn [length]. lia. }
      rewrite Hl, Hcur, last_cons. by destruct (last taken).
    + rewrite capture_turn_none in *. rewrite omap_id_none. by apply IH.
Qed.

(** With a target rate of zero or below, the pause of line 123 raises: the
    loop stores the first frame it reads, stops, and takes no second one. *)
Theorem loop_without_rate_takes_one_frame (self : CameraCapture.Self)
    (reads : list (option Frame)) (tk : nat) :
  fps self <= 0 ->
  is_running self = true ->
  let s' := (capture_all clock cv2_flip cv2_rotate self reads tk).1 in
  match omap id reads with
  | [] => s' = self
  | frame :: _ =>
      is_running s' = false
      /\ frame_count s' = frame_count self + 1
      /\ get_frame_copy s' = Some (_apply_transforms cv2_flip cv2_rotate self frame)
  end.
Proof.
  cbv zeta. revert tk.
  induction reads as [| read rest IH]; intros tk Hfps Hr; [done |].
  cbn [capture_all]. unfold mbind, clocked_bind, cbind.
  destruct read as [frame |].
  - pose proof (capture_turn_frame self frame tk Hr) as Hturn.
    cbv zeta in Hturn.
    destruct (capture_turn clock cv2_flip cv2_rotate self (Some frame) tk)
      as [s1 tk1].
    cbn [fst] in Hturn.
    destruct Hturn as (_ & _ & _ & _ & _ & Hcur & Hcnt & Hstop).
    rewrite capture_all_stopped by auto. rewrite omap_id_some. cbn [fst].
    split; [auto |]. split; [done |]. done.
  - rewrite capture_turn_none, omap_id_none. by apply IH.
Qed.

End CaptureFacts.

(** ** Dwell times under a clock that never goes back *)

Lemma values_dict_set_Forall {K : Type} `{EqDecision K} {V : Type}
    (P : V -> Prop) (k : K) (v : V) (d : list (K * V)) :
  P v -> Forall P (values d) -> Forall P (values (dict_set k v d)).
Proof.
  unfold values. intros Hv. induction d as [| [k' v'] d IH]; intros Hd.
  - cbn. by apply Forall_singleton.
  - cbn [dict_set]. rewrite fmap_cons in Hd. apply Forall_cons in Hd as [Hv' Hd].
    case_decide; rewrite fmap_cons; apply Forall_cons; auto.
Qed.

Lemma values_dict_del_Forall {K : Type} `{EqDecision K} {V : Type}
    (P : V -> Prop) (k : K) (d : list (K * V)) :
  Forall P (values d) -> Forall P (values (dict_del k d)).
Proof.
  unfold values. induction d as [| [k' v'] d IH]; intros Hd; [done |].
  cbn [dict_del]. rewrite fmap_cons in Hd. apply Forall_cons in Hd as [Hv' Hd].
  case_decide; [done |]. rewrite fmap_cons. apply Forall_cons; auto.
Qed.

Lemma Qsum_nonneg (l : list Q) :
  Forall (fun q => (0 <= q)%Q) l -> (0 <= Qsum l)%Q.
Proof.
  unfold Qsum. induction 1 as [| q l Hq Hl IH]; cbn [foldr].
  - apply Qle_refl.
  - change 0%Q with (0 + 0)%Q. by apply Qplus_le_compat.
Qed.

Section DwellFacts.
Variable clock : nat -> Q.
Variable float_scale : Z -> Z -> Z -> Z.
Variable circle_pixels : Z * Z -> Z -> option (Z -> Z -> bool).
Hypothesis clock_ok : clock_monotone clock.

Lemma read_before_mono tk tk' (l : list Track) :
  (tk <= tk')%nat ->
  Forall (read_before clock tk) l -> Forall (read_before clock tk') l.
Proof.
  intros Hle Hl. eapply Forall_impl; [exact Hl |].
  intros tr (t & Ht & He). exists t. split; [lia | done].
Qed.

Lemma match_loop_entries cc ids : forall st tk,
  Forall (read_before clock tk) (values (ml_tracks st)) ->
  let r := match_loop clock cc ids st tk in
  Forall (read_before clock r.2) (values (ml_tracks (state_of r.1)))
  /\ (tk <= r.2)%nat.
Proof.
  induction ids as [| k rest IH]; intros st tk Hst; cbv zeta; [by cbn |].
  cbn [match_loop]. unfold mbind, clocked_bind, cbind, match_track.
  destruct (dict_get k (ml_tracks st)) as [tr |] eqn:Hget; [| by cbn].
  destruct (nearest _ _ _ _) as [c |]; [| by cbn].
  destruct (closest_idx c) as [idx |].
  - destruct (dict_get idx cc) as [pos |]; [| by cbn].
    unfold time_time, cret. simpl.
    set (st1 := Build_MatchLoop _ _ _ _).
    destruct (IH st1 (S tk)) as [Hf Hle]; [| split; [done | lia]].
    subst st1. cbn [ml_tracks]. apply values_dict_set_Forall.
    + apply dict_get_values in Hget.
      rewrite Forall_forall in Hst. destruct (Hst _ Hget) as (t & Ht & He).
      exists t. split; [lia | done].
    + by apply (read_before_mono tk); [lia |].
  - unfold cret. simpl.
    set (st1 := Build_MatchLoop _ _ _ _).
    destruct (IH st1 tk) as [Hf Hle]; [| done].
    subst st1. cbn [ml_tracks]. by apply values_dict_del_Forall.
Qed.

Lemma spawn_loop_entries matched items : forall st tk,
  Forall (read_before clock tk) (values (sl_tracks st)) ->
  let r := spawn_loop clock matched items st tk in
  Forall (read_before clock r.2) (values (sl_tracks r.1)) /\ (tk <= r.2)%nat.
Proof.
  induction items as [| [idx pos] items IH]; intros st tk Hst; cbv zeta;
    [by cbn |].
  cbn [spawn_loop]. case_decide; [by apply IH |].
  unfold mbind, clocked_bind, cbind, time_time. cbn beta iota.
  set (st1 := Build_SpawnLoop _ _ _).
  destruct (IH st1 (S (S tk))) as [Hf Hle]; [| split; [done | lia]].
  subst st1. cbn [sl_tracks]. apply values_dict_set_Forall.
  - exists tk. split; [lia | done].
  - by apply (read_before_mono tk); [lia |].
Qed.

Lemma update_tracks_entries self dets tk :
  entries_read_before clock self tk ->
  let r := _update_tracks clock self dets tk in
  entries_read_before clock r.1.1 r.2 /\ (tk <= r.2)%nat.
Proof.
  unfold entries_read_before. intros Hs. cbv zeta.
  unfold _update_tracks, mbind, clocked_bind, cbind.
  set (st0 := Build_MatchLoop _ _ _ _).
  destruct (match_loop_entries (current_centroids dets)
              (keys (person_tracks self)) st0 tk Hs) as [Hf Hle].
  cbv zeta in Hf, Hle.
  destruct (match_loop clock (current_centroids dets)
              (keys (person_tracks self)) st0 tk) as [[st | e st] tk1];
    cbn [fst snd state_of] in Hf, Hle; [| by cbn].
  set (sp0 := Build_SpawnLoop _ _ _).
  destruct (spawn_loop_entries (ml_matched st) (current_centroids dets) sp0 tk1 Hf)
    as [Hf2 Hle2].
  cbv zeta in Hf2, Hle2.
  destruct (spawn_loop clock (ml_matched st) (current_centroids dets) sp0 tk1)
    as [sp tk2].
  cbn in *. split; [done | lia].
Qed.

Lemma avg_dwell_nonneg self tk :
  entries_read_before clock self tk ->
  let r := _calculate_avg_dwell_time clock self tk in
  (0 <= r.1)%Q /\ (tk <= r.2)%nat.
Proof.
  unfold entries_read_before, _calculate_avg_dwell_time. intros Hs. cbv zeta.
  destruct (person_tracks self) as [| [k tr] d] eqn:Hd.
  - cbn. split; [apply Qle_refl | done].
  - unfold mbind, clocked_bind, cbind, time_time, cret. cbn [fst snd].
    split; [| lia].
    set (dwell := map _ _).
    assert (Hnn : Forall (fun q => (0 <= q)%Q) dwell).
    { subst dwell. apply Forall_map. eapply Forall_impl; [exact Hs |].
      intros x (t & Ht & He). cbn beta. rewrite He.
      apply (proj1 (Qle_minus_iff (clock t) (clock tk))). apply clock_ok. lia. }
    destruct dwell as [| q rest] eqn:Hdw; [apply Qle_refl |].
    unfold np_mean. apply Qmult_le_0_compat; [by apply Qsum_nonneg |].
    apply Qinv_le_0_compat. change 0%Q with (inject_Z 0).
    rewrite <- Zle_Qle. lia.
Qed.

(** [update] keeps every entry time a past clock reading, and the dwell
    time it reports is not negative. *)
Lemma update_entries self dets frame tk :
  entries_read_before clock self tk ->
  let r := update clock float_scale circle_pixels self dets frame tk in
  entries_read_before clock r.1.1 r.2
  /\ (0 <= average_dwell_time r.1.2)%Q
  /\ (tk <= r.2)%nat.
Proof.
  intros Hs. cbv zeta. unfold update, mbind, clocked_bind, cbind.
  set (self1 := with_counts _ _ _).
  set (self2 := if enable_heatmap self1 then _ else self1).
  assert (H2 : person_tracks self2 = person_tracks self).
  { subst self2. destruct (enable_heatmap self1); [| done].
    by destruct (update_heatmap_keeps float_scale circle_pixels self1 dets frame)
      as (-> & _). }
  assert (Hs2 : entries_read_before clock self2 tk).
  { unfold entries_read_before. by rewrite H2. }
  destruct (enable_counting self2).
  - destruct (update_tracks_entries self2 dets tk Hs2) as [Hs3 Hle3].
    cbv zeta in Hs3, Hle3.
    destruct (_update_tracks clock self2 dets tk) as [[s3 tr3] tk3].
    cbn [fst snd] in *.
    destruct (avg_dwell_nonneg s3 tk3 Hs3) as [Hnn Hle4]. cbv zeta in Hnn, Hle4.
    destruct (_calculate_avg_dwell_time clock s3 tk3) as [avg tk4].
    cbn [fst snd average_dwell_time cret] in *.
    split; [| split; [done | lia]].
    unfold entries_read_before in *. by apply (read_before_mono tk3).
  - unfold cret. cbn [fst snd].
    destruct (avg_dwell_nonneg self2 tk Hs2) as [Hnn Hle4]. cbv zeta in Hnn, Hle4.
    destruct (_calculate_avg_dwell_time clock self2 tk) as [avg tk4].
    cbn [fst snd average_dwell_time] in *.
    split; [| split; [done | lia]].
    unfold entries_read_before in *. by apply (read_before_mono tk).
Qed.

Lemma step_entries s op tk :
  entries_read_before clock (obj s) tk ->
  let r := step clock float_scale circle_pixels s op tk in
  entries_read_before clock (obj r.1) r.2.
Proof.
  intros Hs. cbv zeta. destruct op as [dets frame | | |]; cbn [step].
  - unfold mbind, clocked_bind, cbind.
    destruct (update_entries (obj s) dets frame tk Hs) as (He & _ & _).
    cbv zeta in He. rewrite update_is_traced in He. cbn [fst snd] in He.
    by destruct (update_traced clock float_scale circle_pixels (obj s) dets frame tk)
      as [[[s1 u1] t1] tk1].
  - unfold get_statistics. unfold mbind, clocked_bind, cbind.
    destruct (avg_dwell_nonneg (obj s) tk Hs) as [_ Hle]. cbv zeta in Hle.
    destruct (_calculate_avg_dwell_time clock (obj s) tk) as [avg tk1].
    cbn [fst snd cret] in *. unfold entries_read_before in *.
    by apply (read_before_mono tk).
  - by cbn.
  - cbn. unfold entries_read_before. cbn. constructor.
Qed.

Lemma run_entries ops : forall s tk,
  entries_read_before clock (obj s) tk ->
  let r := run clock float_scale circle_pixels ops s tk in
  entries_read_before clock (obj r.1) r.2.
Proof.
  induction ops as [| op ops IH]; intros s tk Hs; cbv zeta; [done |].
  cbn [run]. unfold mbind, clocked_bind, cbind.
  pose proof (step_entries s op tk Hs) as H1. cbv zeta in H1.
  destruct (step clock float_scale circle_pixels s op tk) as [s1 tk1].
  by apply IH.
Qed.

End DwellFacts.

(** Under a clock that never goes back, after any run of calls on a new
    object, the average dwell time that [update] and [get_statistics] report
    is not negative. *)
Theorem dwell_time_is_never_negative (clock : nat -> Q)
    (float_scale : Z -> Z -> Z -> Z)
    (circle_pixels : Z * Z -> Z -> option (Z -> Z -> bool))
    (config : Config) (ops : list Op) (dets : list Detection) (frame : Frame)
    (tk : nat) :
  clock_monotone clock ->
  let s := run clock float_scale circle_pixels ops (fresh config) tk in
  (0 <= average_dwell_time
          (update clock float_scale circle_pixels (obj s.1) dets frame s.2).1.2)%Q
  /\ (0 <= avg_dwell_time (get_statistics clock (obj s.1) s.2).1)%Q.
Proof.
  intros Hmono. cbv zeta.
  assert (H0 : entries_read_before clock (obj (fresh config)) tk).
  { unfold entries_read_before. cbn. constructor. }
  pose proof (run_entries clock float_scale circle_pixels Hmono ops
                (fresh config) tk H0)
    as Hs.
  cbv zeta in Hs.
  destruct (run clock float_scale circle_pixels ops (fresh config) tk) as [s tk1].
  cbn [fst snd] in *. split.
  - by destruct (update_entries clock float_scale circle_pixels Hmono
                   (obj s) dets frame tk1 Hs) as (_ & Hnn & _).
  - destruct (avg_dwell_nonneg clock Hmono (obj s) tk1 Hs) as [Hnn _].
    cbv zeta in Hnn. unfold get_statistics. unfold mbind, clocked_bind, cbind.
    by destruct (_calculate_avg_dwell_time clock (obj s) tk1) as [avg tk2].
Qed.

(** ** Sample runs *)

Lemma matched_centroid_is_nearest_free_witness :
  enable_counting Sample.two_tracks = true
  /\ tracks_ok Sample.two_tracks
  /\ (1, 2%nat) ∈ assigned
                    (update_traced Sample.seconds Sample.scale Sample.disc
                       Sample.two_tracks
                       [Sample.det_c; Sample.det_b; Sample.det_a]
                       (Sample.frame_of []) 0%nat).1.2
  /\ exists pos,
       (2%nat, pos) ∈ current_centroids [Sample.det_c; Sample.det_b; Sample.det_a]
       /\ dist_sq pos (100, 100) < 50 * 50.
Proof.
  assert (Hok : tracks_ok Sample.two_tracks).
  { split; simpl.
    - apply NoDup_cons. split; [| apply NoDup_singleton].
      intros Hin. apply list_elem_of_singleton in Hin. discriminate.
    - repeat constructor; simpl; lia. }
  assert (Hin : (1, 2%nat) ∈ assigned
                  (update_traced Sample.seconds Sample.scale Sample.disc
                     Sample.two_tracks
                     [Sample.det_c; Sample.det_b; Sample.det_a]
                     (Sample.frame_of []) 0%nat).1.2).
  { apply list_elem_of_In. vm_compute. left. reflexivity. }
  split; [reflexivity |]. split; [exact Hok |]. split; [exact Hin |].
  destruct (matched_centroid_is_nearest_free Sample.seconds Sample.scale
              Sample.disc Sample.two_tracks
              [Sample.det_c; Sample.det_b; Sample.det_a] (Sample.frame_of [])
              0%nat [] 1 [2] (Sample.track_at (100, 100)) 2%nat
              eq_refl Hok eq_refl eq_refl Hin)
    as (pos & Hpos & _ & Hd & _).
  exists pos. split; [exact Hpos | exact Hd].
Defined.

Lemma matched_track_is_moved_witness :
  enable_counting Sample.two_tracks = true
  /\ tracks_ok Sample.two_tracks
  /\ exists det t,
       [Sample.det_c; Sample.det_b; Sample.det_a] !! 2%nat = Some det
       /\ (0 <= t
           < (update Sample.seconds Sample.scale Sample.disc
                Sample.two_tracks
                [Sample.det_c; Sample.det_b; Sample.det_a]
                (Sample.frame_of []) 0%nat).2)%nat
       /\ dict_get 1
            (person_tracks
               (update Sample.seconds Sample.scale Sample.disc
                  Sample.two_tracks
                  [Sample.det_c; Sample.det_b; Sample.det_a]
                  (Sample.frame_of []) 0%nat).1.1)
          = Some {| position := centroid det;
                    entry_time := 0%Q;
                    last_seen := Sample.seconds t |}.
Proof.
  assert (Hok : tracks_ok Sample.two_tracks).
  { split; simpl.
    - apply NoDup_cons. split; [| apply NoDup_singleton].
      intros Hin. apply list_elem_of_singleton in Hin. discriminate.
    - repeat constructor; simpl; lia. }
  assert (Hin : (1, 2%nat) ∈ assigned
                  (update_traced Sample.seconds Sample.scale Sample.disc
                     Sample.two_tracks
                     [Sample.det_c; Sample.det_b; Sample.det_a]
                     (Sample.frame_of []) 0%nat).1.2).
  { apply list_elem_of_In. vm_compute. left. reflexivity. }
  split; [reflexivity |]. split; [exact Hok |].
  destruct (matched_track_is_moved Sample.seconds Sample.scale
              Sample.disc Sample.two_tracks
              [Sample.det_c; Sample.det_b; Sample.det_a] (Sample.frame_of [])
              0%nat [] 1 [2] (Sample.track_at (100, 100)) 2%nat
              eq_refl Hok eq_refl eq_refl Hin)
    as (det & t & Hdet & Ht & Hget).
  exists det, t. split; [exact Hdet |]. split; [exact Ht | exact Hget].
Defined.

Lemma track_with_free_centroid_survives_witness :
  enable_counting Sample.two_tracks = true
  /\ tracks_ok Sample.two_tracks
  /\ (0%nat, (105, 102)) ∈ current_centroids [Sample.det_c]
  /\ dist_sq (105, 102) (100, 100) < 50 * 50
  /\ exists tr',
       dict_get 1
         (person_tracks
            (update Sample.seconds Sample.scale Sample.disc Sample.two_tracks
               [Sample.det_c] (Sample.frame_of []) 0%nat).1.1)
       = Some tr'
       /\ entry_time tr' = 0%Q.
Proof.
  assert (Hok : tracks_ok Sample.two_tracks).
  { split; simpl.
    - apply NoDup_cons. split; [| apply NoDup_singleton].
      intros Hin. apply list_elem_of_singleton in Hin. discriminate.
    - repeat constructor; simpl; lia. }
  assert (Hin : (0%nat, (105, 102)) ∈ current_centroids [Sample.det_c]).
  { apply list_elem_of_In. vm_compute. left. reflexivity. }
  assert (Hd : dist_sq (105, 102) (100, 100) < 50 * 50)
    by (vm_compute; reflexivity).
  split; [reflexivity |]. split; [exact Hok |]. split; [exact Hin |].
  split; [exact Hd |].
  apply (track_with_free_centroid_survives Sample.seconds Sample.scale
           Sample.disc Sample.two_tracks [Sample.det_c] (Sample.frame_of [])
           0%nat [] 1 [2] (Sample.track_at (100, 100)) 0%nat (105, 102)
           eq_refl Hok eq_refl eq_refl Hin).
  - unfold matched_before. simpl. apply not_elem_of_empty.
  - exact Hd.
Defined.

Lemma active_tracks_equal_people_count_witness :
  enable_counting Sample.two_tracks = true
  /\ tracks_ok Sample.two_tracks
  /\ roots_defined Sample.two_tracks [Sample.det_c]
  /\ active_tracks
       (update Sample.seconds Sample.scale Sample.disc Sample.two_tracks
          [Sample.det_c] (Sample.frame_of []) 0%nat).1.2
     = people_count
         (update Sample.seconds Sample.scale Sample.disc Sample.two_tracks
            [Sample.det_c] (Sample.frame_of []) 0%nat).1.2.
Proof.
  assert (Hok : tracks_ok Sample.two_tracks).
  { split; simpl.
    - apply NoDup_cons. split; [| apply NoDup_singleton].
      intros Hin. apply list_elem_of_singleton in Hin. discriminate.
    - repeat constructor; simpl; lia. }
  assert (Hroots : roots_defined Sample.two_tracks [Sample.det_c]).
  { unfold roots_defined.
    repeat (apply Forall_cons; split); try apply Forall_nil_2;
      vm_compute; reflexivity. }
  split; [reflexivity |]. split; [exact Hok |]. split; [exact Hroots |].
  exact (active_tracks_equal_people_count Sample.seconds Sample.scale
           Sample.disc Sample.two_tracks [Sample.det_c] (Sample.frame_of [])
           0%nat eq_refl Hok Hroots).
Defined.

Lemma no_detection_clears_tracks_witness :
  enable_counting Sample.two_tracks = true
  /\ tracks_ok Sample.two_tracks
  /\ person_tracks
       (update Sample.seconds Sample.scale Sample.disc Sample.two_tracks
          [] (Sample.frame_of []) 0%nat).1.1
     = [].
Proof.
  assert (Hok : tracks_ok Sample.two_tracks).
  { split; simpl.
    - apply NoDup_cons. split; [| apply NoDup_singleton].
      intros Hin. apply list_elem_of_singleton in Hin. discriminate.
    - repeat constructor; simpl; lia. }
  split; [reflexivity |]. split; [exact Hok |].
  exact (proj1 (no_detection_clears_tracks Sample.seconds Sample.scale
                  Sample.disc Sample.two_tracks (Sample.frame_of [])
                  0%nat eq_refl Hok)).
Defined.

Lemma empty_frame_leaves_heatmap_witness :
  (shape Sample.frame_empty).1 = 0
  /\ heatmap
       (update Sample.seconds Sample.scale Sample.disc
          (AnalyticsModule.__init__ Sample.config) [Sample.det_a]
          Sample.frame_empty 0%nat).1.1
     = heatmap (AnalyticsModule.__init__ Sample.config).
Proof.
  split; [reflexivity |].
  exact (proj1 (empty_frame_leaves_heatmap Sample.seconds Sample.scale
                  Sample.disc (AnalyticsModule.__init__ Sample.config)
                  [Sample.det_a] Sample.frame_empty 0%nat
                  (or_introl eq_refl))).
Defined.

Lemma same_frame_has_no_magnitude_witness :
  MotionDetector.prev_frame Sample.motion_seen = Some Sample.gray_a
  /\ MotionDetector.g_pixels Sample.gray_a <> []
  /\ (MotionDetector.detect_motion Sample.motion_seen (Some Sample.gray_a)).1
     = Sample.motion_seen.
Proof.
  assert (Hne : MotionDetector.g_pixels Sample.gray_a <> [])
    by (simpl; discriminate).
  split; [reflexivity |]. split; [exact Hne |].
  exact (proj1 (same_frame_has_no_magnitude Sample.motion_seen Sample.gray_a
                  eq_refl Hne)).
Defined.

Lemma other_shape_silences_detector_witness :
  MotionDetector.prev_frame Sample.motion_seen = Some Sample.gray_a
  /\ MotionDetector.detect_all Sample.motion_seen
       [Some Sample.gray_b; None; Some Sample.gray_b]
     = (Sample.motion_seen,
        replicate 3 (false, MotionDetector.Value 0)).
Proof.
  split; [reflexivity |].
  apply (other_shape_silences_detector Sample.motion_seen Sample.gray_a
           [Some Sample.gray_b; None; Some Sample.gray_b] eq_refl).
  repeat constructor; simpl; discriminate.
Defined.

Lemma get_never_none_witness :
  ConfigTree.VInt 0 <> ConfigTree.VNone
  /\ ConfigTree.get Sample.tree "camera.fps.unit" (ConfigTree.VInt 0)
     <> ConfigTree.VNone.
Proof.
  assert (Hd : ConfigTree.VInt 0 <> ConfigTree.VNone) by discriminate.
  split; [exact Hd |].
  exact (get_never_none Sample.tree "camera.fps.unit" (ConfigTree.VInt 0) Hd).
Defined.

Lemma set_then_get_witness :
  ConfigTree.set Sample.tree "camera.fps" (ConfigTree.VInt 15)
  = Some Sample.tree_15
  /\ ConfigTree.get Sample.tree_15 "camera.fps" ConfigTree.VNone
     = ConfigTree.VInt 15.
Proof.
  assert (Hset : ConfigTree.set Sample.tree "camera.fps" (ConfigTree.VInt 15)
                 = Some Sample.tree_15) by (vm_compute; reflexivity).
  split; [exact Hset |].
  exact (set_then_get Sample.tree Sample.tree_15 "camera.fps"
           (ConfigTree.VInt 15) ConfigTree.VNone Hset).
Defined.

Lemma set_keeps_other_sections_witness :
  ConfigTree.set Sample.tree "camera.fps" (ConfigTree.VInt 15)
  = Some Sample.tree_15
  /\ head (ConfigTree.split_dot "debug")
     <> head (ConfigTree.split_dot "camera.fps")
  /\ ConfigTree.get Sample.tree_15 "debug" ConfigTree.VNone
     = ConfigTree.get Sample.tree "debug" ConfigTree.VNone.
Proof.
  assert (Hset : ConfigTree.set Sample.tree "camera.fps" (ConfigTree.VInt 15)
                 = Some Sample.tree_15) by (vm_compute; reflexivity).
  assert (Hne : head (ConfigTree.split_dot "debug")
                <> head (ConfigTree.split_dot "camera.fps"))
    by (vm_compute; discriminate).
  split; [exact Hset |]. split; [exact Hne |].
  exact (set_keeps_other_sections Sample.tree Sample.tree_15 "camera.fps"
           "debug" (ConfigTree.VInt 15) ConfigTree.VNone Hset Hne).
Defined.

Lemma set_raises_where_get_defaults_witness :
  ConfigTree.set Sample.tree "debug.level" (ConfigTree.VInt 1) = None
  /\ ConfigTree.get Sample.tree "debug.level" (ConfigTree.VInt 7)
     = ConfigTree.VInt 7.
Proof.
  assert (Hset : ConfigTree.set Sample.tree "debug.level" (ConfigTree.VInt 1)
                 = None) by (vm_compute; reflexivity).
  split; [exact Hset |].
  exact (set_raises_where_get_defaults Sample.tree "debug.level"
           (ConfigTree.VInt 1) (ConfigTree.VInt 7) Hset).
Defined.

Lemma flat_merge_takes_every_entry_witness :
  Forall (fun kv => forall d, kv.2 <> ConfigTree.VDict d) Sample.flat_items
  /\ NoDup Sample.flat_items.*1
  /\ exists config',
       ConfigTree._merge_config (ConfigTree.VDict Sample.tree)
         (ConfigTree.VDict Sample.flat_items)
       = ConfigTree.Merged (ConfigTree.VDict config')
       /\ dict_get "debug"%string config' = Some (ConfigTree.VBool true).
Proof.
  assert (Hflat : Forall (fun kv => forall d, kv.2 <> ConfigTree.VDict d)
                    Sample.flat_items).
  { repeat constructor; simpl; discriminate. }
  assert (Hnd : NoDup Sample.flat_items.*1).
  { simpl. apply NoDup_cons. split; [| apply NoDup_singleton].
    intros Hin. apply list_elem_of_singleton in Hin. discriminate. }
  split; [exact Hflat |]. split; [exact Hnd |].
  destruct (flat_merge_takes_every_entry Sample.tree Sample.flat_items
              Hflat Hnd) as (config' & Hm & Hg).
  exists config'. split; [exact Hm |].
  apply Hg. unfold Sample.flat_items. left.
Defined.

Lemma buffer_stays_within_size_witness :
  0 <= 2
  /\ exists self,
       (CameraCapture.__init__ Sample.seconds false 90 30 2 0%nat).1 = Some self
       /\ forall opened first reads tk,
            0 <= len (CameraCapture.get_buffer
                        (CameraCapture.capture_all Sample.seconds
                           Sample.mirror Sample.turn
                           (CameraCapture.start_capture
                              (CameraCapture.initialize Sample.mirror
                                 Sample.turn self opened first).1)
                           reads tk).1)
            <= 2.
Proof.
  assert (Hsz : 0 <= 2) by lia.
  split; [exact Hsz |].
  exact (buffer_stays_within_size Sample.seconds Sample.mirror Sample.turn
           false 90 30 2 0%nat Hsz).
Defined.

Lemma running_loop_keeps_newest_frames_witness :
  CameraCapture.is_running
    (CameraCapture.capture_all Sample.seconds Sample.mirror Sample.turn
       Sample.camera
       [Some (Sample.frame_of []); None; Some Sample.frame_face;
        Some Sample.frame_empty] 0%nat).1
  = true
  /\ len (CameraCapture.frame_buffer Sample.camera)
     <= CameraCapture.frame_buffer_size Sample.camera
  /\ CameraCapture.get_buffer
       (CameraCapture.capture_all Sample.seconds Sample.mirror Sample.turn
          Sample.camera
          [Some (Sample.frame_of []); None; Some Sample.frame_face;
           Some Sample.frame_empty] 0%nat).1
     = take_last 2
         (CameraCapture._apply_transforms Sample.mirror Sample.turn
            Sample.camera
          <$> [Sample.frame_of []; Sample.frame_face; Sample.frame_empty]).
Proof.
  assert (Hrun : CameraCapture.is_running
                   (CameraCapture.capture_all Sample.seconds Sample.mirror
                      Sample.turn Sample.camera
                      [Some (Sample.frame_of []); None; Some Sample.frame_face;
                       Some Sample.frame_empty] 0%nat).1
                 = true) by (vm_compute; reflexivity).
  assert (Hle : len (CameraCapture.frame_buffer Sample.camera)
                <= CameraCapture.frame_buffer_size Sample.camera)
    by (unfold len; simpl; lia).
  split; [exact Hrun |]. split; [exact Hle |].
  exact (proj1 (running_loop_keeps_newest_frames Sample.seconds Sample.mirror
                  Sample.turn Sample.camera
                  [Some (Sample.frame_of []); None; Some Sample.frame_face;
                   Some Sample.frame_empty] 0%nat Hrun Hle)).
Defined.

Lemma loop_without_rate_takes_one_frame_witness :
  CameraCapture.fps Sample.camera_no_rate <= 0
  /\ CameraCapture.is_running Sample.camera_no_rate = true
  /\ CameraCapture.frame_count
       (CameraCapture.capture_all Sample.seconds Sample.mirror Sample.turn
          Sample.camera_no_rate
          [None; Some Sample.frame_face; Some Sample.frame_empty] 0%nat).1
     = 1.
Proof.
  assert (Hfps : CameraCapture.fps Sample.camera_no_rate <= 0)
    by (simpl; lia).
  split; [exact Hfps |]. split; [reflexivity |].
  exact (proj1 (proj2 (loop_without_rate_takes_one_frame Sample.seconds
                         Sample.mirror Sample.turn Sample.camera_no_rate
                         [None; Some Sample.frame_face; Some Sample.frame_empty]
                         0%nat Hfps eq_refl))).
Defined.

Lemma dwell_time_is_never_negative_witness :
  clock_monotone Sample.seconds
  /\ (0 <= average_dwell_time
             (update Sample.seconds Sample.scale Sample.disc
                (obj (run Sample.seconds Sample.scale Sample.disc
                        [OpUpdate [Sample.det_a] (Sample.frame_of [])]
                        (fresh Sample.config) 0%nat).1)
                [Sample.det_c] (Sample.frame_of [])
                (run Sample.seconds Sample.scale Sample.disc
                   [OpUpdate [Sample.det_a] (Sample.frame_of [])]
                   (fresh Sample.config) 0%nat).2).1.2)%Q.
Proof.
  assert (Hmono : clock_monotone Sample.seconds).
  { intros a b Hab. unfold Sample.seconds. rewrite <- Zle_Qle. lia. }
  split; [exact Hmono |].
  exact (proj1 (dwell_time_is_never_negative Sample.seconds Sample.scale
                  Sample.disc Sample.config
                  [OpUpdate [Sample.det_a] (Sample.frame_of [])]
                  [Sample.det_c] (Sample.frame_of []) 0%nat Hmono)).
Defined.
